(** * NeMo example scripts: checkpoint conversion and noisy-channel reranking

    A shallow embedding of
      - examples/nlp/language_modeling/megatron_lm_ckpt_to_nemo.py
      - examples/nlp/machine_translation/noisy_channel_reranking.py
    and the properties of their key translation, attention-layout migration,
    optimizer-state adaptation, rank-path injection, score fusion and beam
    selection. *)

From Stdlib Require Import ZArith List String Ascii Bool Lia ArithRing Floats DecimalString.
Import ListNotations.

Local Open Scope string_scope.
Local Open Scope Z_scope.

#[local] Set Warnings "-register-all,-inexact-float".

(* ================================================================== *)
(** * Python runtime: exceptions and results *)
(* ================================================================== *)

(** The exception classes the two scripts raise or let escape. *)
Inductive exn : Type :=
| KeyError (key : string)
| AttributeError (attr : string)
| TypeError
| ValueError (msg : string)
| IndexError (msg : string)
| ZeroDivisionError
| OverflowError
| RuntimeError
| NotImplementedError (msg : string).

Inductive result (A : Type) : Type :=
| Ok (a : A)
| Raise (e : exn).
Arguments Ok {A} a.
Arguments Raise {A} e.

Definition bind {A B : Type} (m : result A) (k : A -> result B) : result B :=
  match m with
  | Ok a => k a
  | Raise e => Raise e
  end.

Notation "x <- m ;; k" := (bind m (fun x => k))
  (at level 61, m at next level, right associativity).
Notation "' p <- m ;; k" := (bind m (fun p => k))
  (at level 61, p pattern, m at next level, right associativity).

Definition is_ok {A : Type} (r : result A) : bool :=
  match r with Ok _ => true | Raise _ => false end.

(* ================================================================== *)
(** * Python strings *)
(* ================================================================== *)

Module PyStr.

(** [s.find(sub)]: index of the first occurrence, [-1] when there is none. *)
Definition find (s sub : string) : Z :=
  match String.index 0 sub s with
  | Some n => Z.of_nat n
  | None => -1
  end.

(** [sub in s]. *)
Definition contains (s sub : string) : bool := 0 <=? find s sub.

(** [s.replace("", new)]: [new] before every character and at the end. *)
Fixpoint intersperse (new s : string) : string :=
  match s with
  | EmptyString => new
  | String c s' => new ++ String c (intersperse new s')
  end.

(** Left-to-right scan of [s.replace(old, new)] for a non-empty [old];
    [skip] counts the characters of the occurrence being consumed. *)
Fixpoint replace_scan (old new s : string) (skip : nat) : string :=
  match s with
  | EmptyString => EmptyString
  | String c s' =>
      match skip with
      | S k => replace_scan old new s' k
      | O =>
          if String.prefix old s
          then new ++ replace_scan old new s' (Nat.pred (String.length old))
          else String c (replace_scan old new s' O)
      end
  end.

(** [s.replace(old, new)]: every non-overlapping occurrence, leftmost first. *)
Definition replace (s old new : string) : string :=
  match old with
  | EmptyString => intersperse new s
  | String _ _ => replace_scan old new s O
  end.

(** [s.rfind(c) + 1] for a one-character [c]: the length of the part of [s]
    up to and including its last [c], [0] when [c] does not occur. *)
Fixpoint after_last (c : ascii) (s : string) : nat :=
  match s with
  | EmptyString => O
  | String a s' =>
      match after_last c s' with
      | O => if Ascii.eqb a c then 1%nat else O
      | S n => S (S n)
      end
  end.

Fixpoint take (n : nat) (s : string) : string :=
  match n, s with
  | S k, String c s' => String c (take k s')
  | _, _ => EmptyString
  end.

Fixpoint drop (n : nat) (s : string) : string :=
  match n, s with
  | S k, String _ s' => drop k s'
  | _, _ => s
  end.

Fixpoint all_char (c : ascii) (s : string) : bool :=
  match s with
  | EmptyString => true
  | String a s' => Ascii.eqb a c && all_char c s'
  end.

(** [s.rstrip(c)] for a one-character [c]. *)
Fixpoint rstrip_char (c : ascii) (s : string) : string :=
  match s with
  | EmptyString => EmptyString
  | String a s' =>
      match rstrip_char c s' with
      | EmptyString => if Ascii.eqb a c then EmptyString else String a EmptyString
      | r => String a r
      end
  end.

(** [s.split(sep)] for a one-character separator: always at least one field. *)
Fixpoint split (sep : ascii) (s : string) : list string :=
  match s with
  | EmptyString => [EmptyString]
  | String c s' =>
      if Ascii.eqb c sep then EmptyString :: split sep s'
      else match split sep s' with
           | f :: fs => String c f :: fs
           | [] => [String c EmptyString]
           end
  end.

(** The ASCII characters [str.isspace] accepts: tab, line feed, vertical
    tab, form feed, carriage return, the four separators 28..31 and space. *)
Definition is_space (c : ascii) : bool :=
  let n := nat_of_ascii c in
  ((9 <=? n) && (n <=? 13) || (28 <=? n) && (n <=? 32))%nat.

(** Text is held in UTF-8. The characters beyond ASCII that [str.isspace]
    accepts take two bytes (U+0085 and U+00A0) or three (U+1680, U+2000 to
    U+200A, U+2028, U+2029, U+202F, U+205F and U+3000). *)
Definition is_space2 (a b : ascii) : bool :=
  let m := nat_of_ascii a in
  let n := nat_of_ascii b in
  ((m =? 194) && ((n =? 133) || (n =? 160)))%nat.

Definition is_space3 (a b c : ascii) : bool :=
  let l := nat_of_ascii a in
  let m := nat_of_ascii b in
  let n := nat_of_ascii c in
  ((l =? 225) && (m =? 154) && (n =? 128)
   || (l =? 226) && (m =? 128)
      && ((128 <=? n) && (n <=? 138) || (n =? 168) || (n =? 169) || (n =? 175))
   || (l =? 226) && (m =? 129) && (n =? 159)
   || (l =? 227) && (m =? 128) && (n =? 128))%nat.

Fixpoint lstrip (s : string) : string :=
  match s with
  | EmptyString => EmptyString
  | String a s1 =>
      if is_space a then lstrip s1
      else match s1 with
           | EmptyString => s
           | String b s2 =>
               if is_space2 a b then lstrip s2
               else match s2 with
                    | EmptyString => s
                    | String c s3 => if is_space3 a b c then lstrip s3 else s
                    end
           end
  end.

(** The text is made of whitespace only. *)
Definition blank (s : string) : bool :=
  match lstrip s with
  | EmptyString => true
  | String _ _ => false
  end.

Fixpoint rstrip (s : string) : string :=
  match s with
  | EmptyString => EmptyString
  | String c s' => if blank s then EmptyString else String c (rstrip s')
  end.

(** [s.strip()]. *)
Definition strip (s : string) : string := rstrip (lstrip s).

Fixpoint endswith_rev (rs rsuffix : list ascii) : bool :=
  match rsuffix, rs with
  | [], _ => true
  | c :: rsuffix', a :: rs' => Ascii.eqb a c && endswith_rev rs' rsuffix'
  | _ :: _, [] => false
  end.

(** [s.endswith(suffix)]. *)
Definition endswith (s suffix : string) : bool :=
  endswith_rev (rev (list_ascii_of_string s)) (rev (list_ascii_of_string suffix)).

End PyStr.

(* ================================================================== *)
(** * Python dictionaries (insertion-ordered) *)
(* ================================================================== *)

Module Dict.

(** A [dict] or [OrderedDict] with string keys, in insertion order. *)
Definition t (V : Type) : Type := list (string * V).

Section Ops.
Context {V : Type}.

Fixpoint get (d : t V) (k : string) : option V :=
  match d with
  | [] => None
  | (k', v) :: d' => if String.eqb k' k then Some v else get d' k
  end.

(** [k in d]. *)
Definition mem (d : t V) (k : string) : bool :=
  match get d k with Some _ => true | None => false end.

(** [d[k] = v]: an existing key keeps its position, a new one goes last. *)
Fixpoint set (d : t V) (k : string) (v : V) : t V :=
  match d with
  | [] => [(k, v)]
  | (k', v') :: d' =>
      if String.eqb k' k then (k, v) :: d' else (k', v') :: set d' k v
  end.

(** [d[k]], raising [KeyError]. *)
Definition lookup (d : t V) (k : string) : result V :=
  match get d k with
  | Some v => Ok v
  | None => Raise (KeyError k)
  end.

Definition keys (d : t V) : list string := map fst d.

End Ops.

End Dict.

(* ================================================================== *)
(** * Dense tensors and the torch operations the converter uses *)
(* ================================================================== *)

Module Tensor.

Section Elements.
Variable A : Type.

(** A tensor as it sits in a checkpoint: its sizes and its elements in
    row-major order. *)
Record tensor : Type := mk { size : list nat; data : list A }.

(** What [transpose] returns: the same storage read through sizes and
    strides. *)
Record strided : Type :=
  mkStrided { ssize : list nat; sstride : list nat; storage : list A }.

Definition prod_nat (l : list nat) : nat := fold_right Nat.mul 1%nat l.
Definition prod_Z (l : list Z) : Z := fold_right Z.mul 1 l.

(** [len(t.size())]. *)
Definition rank (t : tensor) : nat := List.length (size t).

(** [t.numel()]. *)
Definition numel (t : tensor) : nat := prod_nat (size t).

(** A tensor is well formed when it stores exactly [numel] elements. *)
Definition wf (t : tensor) : Prop := List.length (data t) = numel t.

(** Row-major strides of a list of sizes. *)
Fixpoint contiguous_strides (sz : list nat) : list nat :=
  match sz with
  | [] => []
  | _ :: rest => prod_nat rest :: contiguous_strides rest
  end.

(** torch's shape inference for [view]: at most one [-1], which stands
    for the quotient of the element count by the product of the other
    sizes. *)
Definition infer_size (shape : list Z) (n : Z) : result (list nat) :=
  if existsb (fun d => d <? -1) shape then Raise RuntimeError
  else
    let known := filter (fun d => negb (d =? -1)) shape in
    let newsize := prod_Z known in
    match (List.length shape - List.length known)%nat with
    | O => if n =? newsize then Ok (map Z.to_nat shape) else Raise RuntimeError
    | S O =>
        if ((n =? newsize) || (0 <? newsize) && (n mod newsize =? 0)) && negb (newsize =? 0)
        then Ok (map (fun d => if d =? -1 then Z.to_nat (n / newsize) else Z.to_nat d) shape)
        else Raise RuntimeError
    | S (S _) => Raise RuntimeError
    end.

(** [t.view(shape)] of a dense tensor. *)
Definition view (t : tensor) (shape : list Z) : result tensor :=
  sz <- infer_size shape (Z.of_nat (numel t)) ;;
  Ok (mk sz (data t)).

Fixpoint swap_with {B : Type} (l : list B) (i j : nat) (orig : list B) (pos : nat) : list B :=
  match l with
  | [] => []
  | x :: l' =>
      let y := if Nat.eqb pos i then nth j orig x
               else if Nat.eqb pos j then nth i orig x else x in
      y :: swap_with l' i j orig (S pos)
  end.

Definition swap {B : Type} (l : list B) (i j : nat) : list B := swap_with l i j l O.

(** [t.transpose(i, j)]: sizes and strides exchanged, storage shared. *)
Definition transpose (t : tensor) (i j : nat) : result strided :=
  if (i <? rank t)%nat && (j <? rank t)%nat
  then Ok (mkStrided (swap (size t) i j) (swap (contiguous_strides (size t)) i j) (data t))
  else Raise (IndexError "Dimension out of range").

(** Storage offsets of the elements of a strided view, in row-major order
    of its indices. *)
Fixpoint offsets (sz st : list nat) (off : nat) : list nat :=
  match sz, st with
  | n :: sz', s :: st' => flat_map (fun i => offsets sz' st' (off + i * s)%nat) (seq 0 n)
  | _, _ => [off]
  end.

Definition fetch (l : list A) (o : nat) : list A :=
  match nth_error l o with Some x => [x] | None => [] end.

(** [v.contiguous()]: the elements copied out in row-major order. *)
Definition contiguous (v : strided) : tensor :=
  mk (ssize v) (flat_map (fetch (storage v)) (offsets (ssize v) (sstride v) O)).

(** The row-major position of the index [idx] in a tensor of sizes [sz]. *)
Fixpoint ravel (sz idx : list nat) : nat :=
  match sz, idx with
  | _ :: sz', i :: idx' => (i * prod_nat sz' + ravel sz' idx')%nat
  | _, _ => O
  end.

(** The storage offset of the index [idx] under the strides [st]. *)
Fixpoint dot (idx st : list nat) : nat :=
  match idx, st with
  | i :: idx', s :: st' => (i * s + dot idx' st')%nat
  | _, _ => O
  end.

(** [t.size()[-1]]. *)
Definition last_dim (t : tensor) : result Z :=
  match rev (size t) with
  | d :: _ => Ok (Z.of_nat d)
  | [] => Raise (IndexError "tuple index out of range")
  end.

End Elements.

Arguments mk {A} size data.
Arguments size {A} t.
Arguments data {A} t.
Arguments rank {A} t.
Arguments numel {A} t.
Arguments wf {A} t.
Arguments view {A} t shape.
Arguments transpose {A} t i j.
Arguments contiguous {A} v.
Arguments last_dim {A} t.
Arguments mkStrided {A} ssize sstride storage.
Arguments ssize {A} s.
Arguments sstride {A} s.
Arguments storage {A} s.
Arguments fetch {A} l o.
Arguments offsets sz st off : simpl nomatch.

End Tensor.

(* ================================================================== *)
(** * Python values found in a checkpoint *)
(* ================================================================== *)

(** The objects a Megatron-LM checkpoint holds: numbers, strings, tensors,
    lists, dictionaries with string keys and the [argparse.Namespace] of the
    training arguments. An operation applied to an operand of a class it does
    not support raises; the class of that error is recorded as [TypeError]. *)
Inductive value : Type :=
| VNone
| VBool (b : bool)
| VInt (z : Z)
| VFloat (f : float)
| VStr (s : string)
| VTensor (t : Tensor.tensor float)
| VList (l : list value)
| VDict (d : list (string * value))
| VNamespace (attrs : list (string * value)).

Module Py.

(** [v[key]] for a string key. *)
Definition getitem (v : value) (key : string) : result value :=
  match v with
  | VDict d => Dict.lookup d key
  | _ => Raise TypeError
  end.

(** [v[0]]. *)
Definition getitem0 (v : value) : result value :=
  match v with
  | VList (x :: _) => Ok x
  | VList [] => Raise (IndexError "list index out of range")
  | VStr (String c _) => Ok (VStr (String c EmptyString))
  | VStr EmptyString => Raise (IndexError "string index out of range")
  | VDict _ => Raise (KeyError "0")
  | _ => Raise TypeError
  end.

Definition is_str (key : string) (v : value) : bool :=
  match v with VStr s => String.eqb s key | _ => false end.

(** [key in v] for a string key. *)
Definition contains (v : value) (key : string) : result bool :=
  match v with
  | VDict d => Ok (Dict.mem d key)
  | VList l => Ok (existsb (is_str key) l)
  | VStr s => Ok (PyStr.contains s key)
  | _ => Raise TypeError
  end.

Fixpoint chars (s : string) : list value :=
  match s with
  | EmptyString => []
  | String c s' => VStr (String c EmptyString) :: chars s'
  end.

(** The elements [for x in v] visits. *)
Definition iter (v : value) : result (list value) :=
  match v with
  | VList l => Ok l
  | VDict d => Ok (map VStr (Dict.keys d))
  | VStr s => Ok (chars s)
  | _ => Raise TypeError
  end.

(** [v.name]. *)
Definition getattr (v : value) (name : string) : result value :=
  match v with
  | VNamespace attrs =>
      match Dict.get attrs name with
      | Some x => Ok x
      | None => Raise (AttributeError name)
      end
  | _ => Raise (AttributeError name)
  end.

(** [v[key] = x] on a dictionary held by value. *)
Definition setitem (v : value) (key : string) (x : value) : result value :=
  match v with
  | VDict d => Ok (VDict (Dict.set d key x))
  | _ => Raise TypeError
  end.

(** ** Numbers *)

Definition is_digit (c : ascii) : bool :=
  let n := nat_of_ascii c in ((48 <=? n) && (n <=? 57))%nat.

Definition digit_val (c : ascii) : Z := Z.of_nat (nat_of_ascii c) - 48.

(** Decimal digits with single underscores between them, as [int] reads
    them; [prev] tells whether the previous character was a digit. *)
Fixpoint digits (s : string) (acc : Z) (prev : bool) : option Z :=
  match s with
  | EmptyString => if prev then Some acc else None
  | String c s' =>
      if is_digit c then digits s' (10 * acc + digit_val c) true
      else if Ascii.eqb c "_" then (if prev then digits s' acc false else None)
      else None
  end.

(** [int(s)] for a string, base 10. *)
Definition int_of_string (s : string) : result Z :=
  let body := PyStr.strip s in
  let parsed :=
    match body with
    | String "-" r => option_map Z.opp (digits r 0 false)
    | String "+" r => digits r 0 false
    | _ => digits body 0 false
    end in
  match parsed with
  | Some z => Ok z
  | None => Raise (ValueError "invalid literal for int() with base 10")
  end.

(** [int(f)] for a float: truncation toward zero. *)
Definition int_of_float (f : float) : result Z :=
  match Prim2SF f with
  | S754_zero _ => Ok 0
  | S754_infinity _ => Raise OverflowError
  | S754_nan => Raise (ValueError "cannot convert float NaN to integer")
  | S754_finite s m e =>
      let mag := if 0 <=? e then Z.pos m * 2 ^ e else Z.pos m / 2 ^ (- e) in
      Ok (if s then - mag else mag)
  end.

(** [float(z)] for an int: round to nearest even, [OverflowError] beyond
    the largest double. *)
Definition float_of_int (z : Z) : result float :=
  let f := SF2Prim (binary_normalize prec emax z 0 false) in
  if PrimFloat.is_infinity f then Raise OverflowError else Ok f.

(** [int(v)]. *)
Definition int (v : value) : result Z :=
  match v with
  | VInt z => Ok z
  | VBool b => Ok (if b then 1 else 0)
  | VFloat f => int_of_float f
  | VStr s => int_of_string s
  | _ => Raise TypeError
  end.

(** A number read as an int or as a float. *)
Inductive number : Type :=
| NInt (z : Z)
| NFloat (f : float).

Definition as_number (v : value) : option number :=
  match v with
  | VInt z => Some (NInt z)
  | VBool b => Some (NInt (if b then 1 else 0))
  | VFloat f => Some (NFloat f)
  | _ => None
  end.

Definition to_float (n : number) : result float :=
  match n with
  | NInt z => float_of_int z
  | NFloat f => Ok f
  end.

Section Arith.

(** [x // y] on two floats with [y] not zero: the interpreter's
    [float_floor_div], taken as given. *)
Variable float_floordiv : float -> float -> float.

(** [a // b]: floor division on ints, [float_floordiv] as soon as one
    operand is a float. *)
Definition floordiv (a b : value) : result value :=
  match as_number a, as_number b with
  | Some (NInt x), Some (NInt y) =>
      if y =? 0 then Raise ZeroDivisionError else Ok (VInt (x / y))
  | Some x, Some y =>
      fx <- to_float x ;;
      fy <- to_float y ;;
      if PrimFloat.eqb fy 0%float then Raise ZeroDivisionError
      else Ok (VFloat (float_floordiv fx fy))
  | _, _ => Raise TypeError
  end.

(** [a + b] on numbers. *)
Definition add (a b : value) : result value :=
  match as_number a, as_number b with
  | Some (NInt x), Some (NInt y) => Ok (VInt (x + y))
  | Some x, Some y =>
      fx <- to_float x ;;
      fy <- to_float y ;;
      Ok (VFloat (PrimFloat.add fx fy))
  | _, _ => Raise TypeError
  end.

End Arith.

(** [v < 3], the comparison the converter makes on the checkpoint version. *)
Definition lt3 (v : value) : result bool :=
  match as_number v with
  | Some (NInt z) => Ok (z <? 3)
  | Some (NFloat f) => Ok (PrimFloat.ltb f 3%float)
  | None => Raise TypeError
  end.

(** [v == n] for a small int [n] (here 0 or 1): never raises. *)
Definition eq_small (v : value) (n : Z) : bool :=
  match as_number v with
  | Some (NInt z) => z =? n
  | Some (NFloat f) =>
      match float_of_int n with
      | Ok g => PrimFloat.eqb f g
      | Raise _ => false
      end
  | None => false
  end.

End Py.

(* ================================================================== *)
(** * posixpath *)
(* ================================================================== *)

Module Path.

(** [os.path.dirname(p)]. *)
Definition dirname (p : string) : string :=
  let i := PyStr.after_last "/" p in
  let head := PyStr.take i p in
  match head with
  | EmptyString => head
  | String _ _ => if PyStr.all_char "/" head then head else PyStr.rstrip_char "/" head
  end.

(** [os.path.basename(p)]. *)
Definition basename (p : string) : string :=
  PyStr.drop (PyStr.after_last "/" p) p.

(** [os.path.join(a, b)]. *)
Definition join (a b : string) : string :=
  if String.prefix "/" b then b
  else match a with
       | EmptyString => b
       | String _ _ => if PyStr.endswith a "/" then a ++ b else a ++ "/" ++ b
       end.

End Path.

(* ================================================================== *)
(** * megatron_lm_ckpt_to_nemo.py *)
(* ================================================================== *)

Module Megatron.

Definition tensor : Type := Tensor.tensor float.

(** ** parse_weights *)

(** The loop over [name_translate]: every rule whose pattern occurs in
    [key] assigns [new_key = key.replace(...)], computed from [key]. *)
Fixpoint translate_loop (name_translate : Dict.t string) (key new_key : string) : string :=
  match name_translate with
  | [] => new_key
  | (replace_key, replacement) :: rest =>
      translate_loop rest key
        (if 0 <=? PyStr.find key replace_key
         then PyStr.replace key replace_key replacement
         else new_key)
  end.

(** The value of [new_key] after the loop, starting from [new_key = key]. *)
Definition translate_key (translator : Dict.t string) (key : string) : string :=
  translate_loop translator key key.

(** The walk's accumulators: [total[0]] and [converted]. *)
Definition walk_state : Type := (Z * Dict.t tensor)%type.

(** The leaf branch: count the elements, store under the final key. *)
Definition parse_leaf (leaf : value) (parent_key new_key : string) (st : walk_state)
  : result walk_state :=
  match leaf with
  | VTensor w =>
      let num_parameters := Z.of_nat (Tensor.numel w) in
      let final_key := "model" ++ parent_key ++ "." ++ new_key in
      Ok (fst st + num_parameters, Dict.set (snd st) final_key w)
  | _ => Raise (AttributeError "cpu")
  end.

(** [parse_weights] on the mapping held by [node]. *)
Fixpoint parse_node (translator : Dict.t string) (node : value) (parent_key : string)
    (st : walk_state) {struct node} : result walk_state :=
  match node with
  | VDict weight_dict =>
      (fix loop (items : list (string * value)) (st : walk_state) {struct items}
         : result walk_state :=
         match items with
         | [] => Ok st
         | (key, child) :: rest =>
             let new_key := translate_key translator key in
             st' <- match child with
                    | VDict _ => parse_node translator child (parent_key ++ "." ++ new_key) st
                    | _ => parse_leaf child parent_key new_key st
                    end ;;
             loop rest st'
         end) weight_dict st
  | _ => Raise TypeError
  end.

Definition parse_weights (weight_dict : Dict.t value) (parent_key : string)
    (total : Z) (converted : Dict.t tensor) (translator : Dict.t string)
  : result walk_state :=
  parse_node translator (VDict weight_dict) parent_key (total, converted).

(** The renaming rules [convert] builds for the gpt and bert models. *)
Definition name_translate : Dict.t string :=
  Dict.set (Dict.set (Dict.set [] "transformer" "encoder")
              ".attention." ".self_attention.")
    "word_embeddings_for_head" "word_embeddings".

(** ** Attention-layout migration (load_from_checkpoint) *)

Definition QKV : string := "query_key_value".

(** Checkpoint version 0, one tensor: 3, np, hn -> np, 3, hn. *)
Definition migrate_v0 (np : Z) (weight : tensor) : result tensor :=
  if Nat.eqb (Tensor.rank weight) 2 then
    last <- Tensor.last_dim weight ;;
    weight <- Tensor.view weight [3; np; -1; last] ;;
    v <- Tensor.transpose weight 0 1 ;;
    let weight := Tensor.contiguous v in
    last <- Tensor.last_dim weight ;;
    Tensor.view weight [-1; last]
  else
    weight <- Tensor.view weight [3; np; -1] ;;
    v <- Tensor.transpose weight 0 1 ;;
    let weight := Tensor.contiguous v in
    Tensor.view weight [-1].

(** Checkpoint version 1, one tensor: np, hn, 3 -> np, 3, hn. *)
Definition migrate_v1 (np : Z) (weight : tensor) : result tensor :=
  if Nat.eqb (Tensor.rank weight) 2 then
    last <- Tensor.last_dim weight ;;
    weight <- Tensor.view weight [np; -1; 3; last] ;;
    v <- Tensor.transpose weight 1 2 ;;
    Ok (Tensor.contiguous v)
  else
    weight <- Tensor.view weight [np; -1; 3] ;;
    v <- Tensor.transpose weight 1 2 ;;
    Ok (Tensor.contiguous v).

(** [for key in state_dict: if key.find('query_key_value') >= 0: ...],
    assigning the migrated tensor back under the same key. *)
Fixpoint migrate_keys (f : tensor -> result tensor) (keys : list string)
    (state_dict : Dict.t tensor) : result (Dict.t tensor) :=
  match keys with
  | [] => Ok state_dict
  | key :: rest =>
      if 0 <=? PyStr.find key QKV then
        weight <- Dict.lookup state_dict key ;;
        weight <- f weight ;;
        migrate_keys f rest (Dict.set state_dict key weight)
      else migrate_keys f rest state_dict
  end.

(** The number of attention heads: from the hparams file when one is
    given, else from the checkpoint's legacy config. *)
Definition attention_heads (hparams : option value) (old_checkpoint : Dict.t value)
  : result value :=
  match hparams with
  | Some h => cfg <- Py.getitem h "cfg" ;; Py.getitem cfg "num_attention_heads"
  | None =>
      match Dict.get old_checkpoint "config" with
      | Some config =>
          has <- Py.contains config "num-attention-heads" ;;
          if has then Py.getitem config "num-attention-heads"
          else Raise (ValueError "need to know number of attention heads")
      | None => Raise (ValueError "need to know number of attention heads")
      end
  end.

(** A value passed where torch expects a size: an int, not a bool, that
    fits in 64 bits. *)
Definition as_size (v : value) : result Z :=
  match v with
  | VInt z => if (- 2 ^ 63 <=? z) && (z <? 2 ^ 63) then Ok z else Raise TypeError
  | _ => Raise TypeError
  end.

(** [old_checkpoint.get('checkpoint_version', 0)]. *)
Definition checkpoint_version (old_checkpoint : Dict.t value) : value :=
  match Dict.get old_checkpoint "checkpoint_version" with
  | Some v => v
  | None => VInt 0
  end.

(** The block of [load_from_checkpoint] guarded by
    [check_point_version < 3]. *)
Definition migrate_attention (old_checkpoint : Dict.t value) (hparams : option value)
    (state_dict : Dict.t tensor) : result (Dict.t tensor) :=
  let check_point_version := checkpoint_version old_checkpoint in
  old <- Py.lt3 check_point_version ;;
  if old then
    np <- attention_heads hparams old_checkpoint ;;
    if Py.eq_small check_point_version 0 then
      migrate_keys (fun w => n <- as_size np ;; migrate_v0 n w) (Dict.keys state_dict) state_dict
    else if Py.eq_small check_point_version 1 then
      migrate_keys (fun w => n <- as_size np ;; migrate_v1 n w) (Dict.keys state_dict) state_dict
    else Ok state_dict
  else Ok state_dict.

(** [key.find('query_key_value') >= 0]. *)
Definition mentions_qkv (key : string) : bool := 0 <=? PyStr.find key QKV.

(** The tensors the version-0 branches can view by [heads], a number
    torch takes as a size (it fits in 64 bits): two dimensions with
    [3 * heads * hn] rows, or any other number of dimensions with
    [3 * heads * hn] elements. *)
Definition v0_shape (heads : nat) (w : tensor) : Prop :=
  Z.of_nat heads < 2 ^ 63 /\
  ((exists hn c, Tensor.size w = [(3 * heads * hn)%nat; c] /\ (0 < c)%nat) \/
   (Tensor.rank w <> 2%nat /\ exists hn, Tensor.numel w = (3 * heads * hn)%nat)).

(** The same for the version-1 branches, whose rows come as
    (heads, hn, 3). *)
Definition v1_shape (heads : nat) (w : tensor) : Prop :=
  Z.of_nat heads < 2 ^ 63 /\
  ((exists hn c, Tensor.size w = [(heads * hn * 3)%nat; c] /\ (0 < c)%nat) \/
   (Tensor.rank w <> 2%nat /\ exists hn, Tensor.numel w = (heads * hn * 3)%nat)).

(** ** add_optimizer_state *)

Definition OPTIMIZER_KEY : string := "optimizer".
Definition FP32_FP16_KEY : string := "fp32_from_fp16_params".
Definition NEW_OPTIMIZER_KEY : string := "optimizer_states".
Definition STEP_KEY : string := "iteration".
Definition NEW_STEP_KEY : string := "global_step".
Definition LR_SCHEDULER : string := "lr_scheduler".
Definition NEW_LR_SCHEDULER : string := "lr_schedulers".

(** [[f(i) for i in l]], stopping at the first element that raises. *)
Fixpoint comprehension {A B : Type} (f : A -> result B) (l : list A) : result (list B) :=
  match l with
  | [] => Ok []
  | x :: rest => y <- f x ;; ys <- comprehension f rest ;; Ok (y :: ys)
  end.

(** [for param_group in ...: param_group['initial_lr'] = sched['max_lr']]. *)
Definition set_initial_lr (sched : value) (param_groups : list value) : result (list value) :=
  comprehension
    (fun param_group =>
       max_lr <- Py.getitem sched "max_lr" ;;
       Py.setitem param_group "initial_lr" max_lr)
    param_groups.

(** The learning rates back-filled into [opt_state]; the parameter groups
    are updated in place, so the state stored in the new checkpoint is the
    updated one. *)
Definition backfill_initial_lr (lm_checkpoint : Dict.t value) (opt_state : value)
  : result value :=
  if Dict.mem lm_checkpoint LR_SCHEDULER then
    sched <- Dict.lookup lm_checkpoint LR_SCHEDULER ;;
    groups <- Py.getitem opt_state "param_groups" ;;
    elems <- Py.iter groups ;;
    elems' <- set_initial_lr sched elems ;;
    match groups with
    | VList _ => Py.setitem opt_state "param_groups" (VList elems')
    | _ => Ok opt_state
    end
  else Ok opt_state.

(** Lines 183-197: the optimizer states. *)
Definition optimizer_block (lm_checkpoint new_checkpoint : Dict.t value)
    (megatron_amp_o2 : bool) : result (Dict.t value) :=
  match Dict.get lm_checkpoint OPTIMIZER_KEY with
  | None => Ok new_checkpoint
  | Some section =>
      nested <- Py.contains section OPTIMIZER_KEY ;;
      if nested then
        opt_state <- Py.getitem section OPTIMIZER_KEY ;;
        if megatron_amp_o2 then
          opt_state <- backfill_initial_lr lm_checkpoint opt_state ;;
          has_fp32 <- Py.contains section FP32_FP16_KEY ;;
          opt_dict <- (if has_fp32
                       then fp32_state <- Py.getitem section FP32_FP16_KEY ;;
                            Ok (Dict.set [] FP32_FP16_KEY fp32_state)
                       else Ok []) ;;
          let opt_dict := Dict.set opt_dict OPTIMIZER_KEY opt_state in
          Ok (Dict.set new_checkpoint NEW_OPTIMIZER_KEY (VList [VDict opt_dict]))
        else Ok (Dict.set new_checkpoint NEW_OPTIMIZER_KEY (VList [opt_state]))
      else Ok new_checkpoint
  end.

(** Lines 199-201: the step counter and the epoch. *)
Definition step_block (lm_checkpoint new_checkpoint : Dict.t value) : Dict.t value :=
  match Dict.get lm_checkpoint STEP_KEY with
  | Some iteration =>
      Dict.set (Dict.set new_checkpoint NEW_STEP_KEY iteration) "epoch" (VInt 1)
  | None => new_checkpoint
  end.

(** [new_checkpoint['optimizer_states'][0]['optimizer']['param_groups']]. *)
Definition new_param_groups (new_checkpoint : Dict.t value) : result (list value) :=
  states <- Dict.lookup new_checkpoint "optimizer_states" ;;
  first <- Py.getitem0 states ;;
  optimizer <- Py.getitem first "optimizer" ;;
  groups <- Py.getitem optimizer "param_groups" ;;
  Py.iter groups.

Section Scheduler.

Variable float_floordiv : float -> float -> float.

(** [int(sched[field]) // gbs]. *)
Definition steps_in_batches (sched : value) (field : string) (gbs : value) : result value :=
  raw <- Py.getitem sched field ;;
  n <- Py.int raw ;;
  Py.floordiv float_floordiv (VInt n) gbs.

(** Lines 202-223: the scheduler section. *)
Definition scheduler_block (lm_checkpoint new_checkpoint : Dict.t value)
  : result (Dict.t value) :=
  if Dict.mem lm_checkpoint LR_SCHEDULER then
    args <- Dict.lookup lm_checkpoint "args" ;;
    gbs <- Py.getattr args "global_batch_size" ;;
    sched <- Dict.lookup lm_checkpoint LR_SCHEDULER ;;
    let content : Dict.t value := [] in
    decay <- steps_in_batches sched "decay_steps" gbs ;;
    warmup_raw <- Py.getitem sched "warmup_steps" ;;
    warmup <- Py.floordiv float_floordiv warmup_raw gbs ;;
    max_steps <- Py.add decay warmup ;;
    let content := Dict.set content "max_steps" max_steps in
    warmup_steps <- steps_in_batches sched "warmup_steps" gbs ;;
    let content := Dict.set content "warmup_steps" warmup_steps in
    let content := Dict.set content "constant_steps" (VInt 0) in
    decay_steps <- steps_in_batches sched "decay_steps" gbs ;;
    let content := Dict.set content "decay_steps" decay_steps in
    min_lr <- Py.getitem sched "min_lr" ;;
    let content := Dict.set content "min_lr" min_lr in
    content <-
      (if Dict.mem lm_checkpoint OPTIMIZER_KEY then
         groups <- new_param_groups new_checkpoint ;;
         base_lrs <- comprehension (fun i => Py.getitem i "initial_lr") groups ;;
         let content := Dict.set content "base_lrs" (VList base_lrs) in
         last_epoch <- steps_in_batches sched "num_steps" gbs ;;
         let content := Dict.set content "last_epoch" last_epoch in
         groups <- new_param_groups new_checkpoint ;;
         last_lr <- comprehension (fun i => Py.getitem i "lr") groups ;;
         Ok (Dict.set content "_last_lr" (VList last_lr))
       else
         max_lr <- Py.getitem sched "max_lr" ;;
         let content := Dict.set content "base_lrs" (VList [max_lr]) in
         last_epoch <- steps_in_batches sched "num_steps" gbs ;;
         Ok (Dict.set content "last_epoch" last_epoch)) ;;
    step_count <- steps_in_batches sched "num_steps" gbs ;;
    let content := Dict.set content "_step_count" step_count in
    let content := Dict.set content "verbose" (VBool false) in
    let content := Dict.set content "_get_lr_called_within_step" (VBool false) in
    Ok (Dict.set new_checkpoint NEW_LR_SCHEDULER (VList [VDict content]))
  else Ok new_checkpoint.

(** [add_optimizer_state(lm_checkpoint, new_checkpoint, megatron_amp_o2)]:
    the new checkpoint as the call leaves it, or the exception that
    escapes. *)
Definition add_optimizer_state (lm_checkpoint new_checkpoint : Dict.t value)
    (megatron_amp_o2 : bool) : result (Dict.t value) :=
  new_checkpoint <- optimizer_block lm_checkpoint new_checkpoint megatron_amp_o2 ;;
  let new_checkpoint := step_block lm_checkpoint new_checkpoint in
  scheduler_block lm_checkpoint new_checkpoint.

End Scheduler.

(** The global batch size cannot be read from the source checkpoint. *)
Definition batch_size_absent (lm : Dict.t value) : Prop :=
  Dict.get lm "args" = None \/
  exists attrs, Dict.get lm "args" = Some (VNamespace attrs) /\
                Dict.get attrs "global_batch_size" = None.

(** ** megatron_lm_inject_model_parallel_rank *)

(** The fields of the [AppState] singleton the function reads. *)
Record AppState : Type := {
  model_parallel_size : option Z;
  pipeline_model_parallel_size : option Z;
  tensor_model_parallel_rank : Z;
  pipeline_model_parallel_rank : Z
}.

Fixpoint zeros (n : nat) : string :=
  match n with
  | O => EmptyString
  | S k => String "0" (zeros k)
  end.

(** [f'{z:0{width}d}']: decimal, zero-padded to [width] characters, the
    sign counted in the width. *)
Definition format_d (width : nat) (z : Z) : string :=
  let ds := NilZero.string_of_uint (N.to_uint (Z.abs_N z)) in
  if z <? 0
  then "-" ++ zeros (Nat.pred width - String.length ds) ++ ds
  else zeros (width - String.length ds) ++ ds.

(** Modelled from the spec: [uninject_model_parallel_rank], imported from
    nemo.utils.model_utils and not among the sources. The spec says of it
    that the resolver "must first strip any pre-existing rank segment": the
    directory that holds the file is dropped when it is a rank segment. *)
Definition uninject_model_parallel_rank (filepath : string) : string :=
  let dirname := Path.dirname filepath in
  if String.prefix "mp_rank_" (Path.basename dirname)
  then Path.join (Path.dirname dirname) (Path.basename filepath)
  else filepath.

Section Inject.

(** The helper that strips a rank segment. *)
Variable uninject : string -> string.
Variable app_state : AppState.

Definition inject_with (filepath : string) : string :=
  let filepath := uninject filepath in
  match model_parallel_size app_state with
  | Some mp =>
      if 1 <? mp then
        let dirname := Path.dirname filepath in
        let basename := Path.basename filepath in
        let single :=
          match pipeline_model_parallel_size app_state with
          | None => true
          | Some pp => pp =? 1
          end in
        if single then
          dirname ++ "/mp_rank_" ++ format_d 2 (tensor_model_parallel_rank app_state)
            ++ "/" ++ basename
        else
          dirname ++ "/mp_rank_" ++ format_d 2 (tensor_model_parallel_rank app_state)
            ++ "_" ++ format_d 3 (pipeline_model_parallel_rank app_state)
            ++ "/" ++ basename
      else filepath
  | None => filepath
  end.

End Inject.

(** The directory name the ranks are encoded in. *)
Definition rank_segment (app_state : AppState) : string :=
  match pipeline_model_parallel_size app_state with
  | None => "mp_rank_" ++ format_d 2 (tensor_model_parallel_rank app_state)
  | Some pp =>
      if pp =? 1 then "mp_rank_" ++ format_d 2 (tensor_model_parallel_rank app_state)
      else "mp_rank_" ++ format_d 2 (tensor_model_parallel_rank app_state)
             ++ "_" ++ format_d 3 (pipeline_model_parallel_rank app_state)
  end.

Definition megatron_lm_inject_model_parallel_rank (app_state : AppState)
    (filepath : string) : string :=
  inject_with uninject_model_parallel_rank app_state filepath.

End Megatron.

(* ================================================================== *)
(** * noisy_channel_reranking.py *)
(* ================================================================== *)

Module Reranker.

(** The parsed command line. *)
Record Args : Type := {
  reverse_model : option string;
  language_model : option string;
  forward_model_coef : float;
  reverse_model_coef : float;
  target_lm_coef : float;
  srctext : option string;
  cached_score_file : option string;
  tgtout : string;
  beam_size : Z;
  write_scores : bool;
  length_normalize_scores : bool;
  len_pen : option float
}.

(** ** score_fusion, on Python floats (as the cached-score path calls it) *)

(** [a / b] on floats. *)
Definition truediv (a b : float) : result float :=
  if PrimFloat.eqb b 0%float then Raise ZeroDivisionError
  else Ok (PrimFloat.div a b).

Section Fusion.

(** [x ** y] on floats where the result is a float; [Raise] where the
    interpreter raises or leaves the floats. *)
Variable float_pow : float -> float -> result float.
Variable args : Args.

Definition normalized (score len : float) : result float :=
  if length_normalize_scores args then truediv score len else Ok score.

(** The body of the loop of [score_fusion] for one candidate. *)
Definition fuse (forward_score rev_score lm_score src_len tgt_len : float)
  : result float :=
  let score := 0%float in
  forward_score <- normalized forward_score tgt_len ;;
  let score := PrimFloat.add score (PrimFloat.mul (forward_model_coef args) forward_score) in
  rev_score <- normalized rev_score src_len ;;
  let score := PrimFloat.add score (PrimFloat.mul (reverse_model_coef args) rev_score) in
  lm_score <- normalized lm_score tgt_len ;;
  let score := PrimFloat.add score (PrimFloat.mul (target_lm_coef args) lm_score) in
  match len_pen args with
  | Some p =>
      penalty <- float_pow (PrimFloat.div (PrimFloat.add 5%float tgt_len) 6%float) p ;;
      truediv score penalty
  | None => Ok score
  end.

(** [score_fusion]: the loop over the zipped lists. *)
Fixpoint score_fusion (forward_scores rev_scores lm_scores src_lens tgt_lens : list float)
  : result (list float) :=
  match forward_scores, rev_scores, lm_scores, src_lens, tgt_lens with
  | f :: fs, r :: rs, l :: ls, sl :: sls, tl :: tls =>
      score <- fuse f r l sl tl ;;
      rest <- score_fusion fs rs ls sls tls ;;
      Ok (score :: rest)
  | _, _, _, _, _ => Ok []
  end.

End Fusion.

(** ** numpy.argmax on a list of floats *)

(** The scan after the first element: [mp] is the running maximum, [best]
    its index, [i] the index of the head of [xs]; a NaN maximum ends it. *)
Fixpoint argmax_scan (xs : list float) (i : nat) (mp : float) (best : nat) : nat :=
  if PrimFloat.is_nan mp then best
  else match xs with
       | [] => best
       | x :: rest =>
           if negb (PrimFloat.leb x mp) then argmax_scan rest (S i) x i
           else argmax_scan rest (S i) mp best
       end.

Definition argmax (xs : list float) : result nat :=
  match xs with
  | [] => Raise (ValueError "attempt to get argmax of an empty sequence")
  | x :: rest => Ok (argmax_scan rest 1 x 0)
  end.

(** ** The cached-score path of main *)

Definition TAB : ascii := "009".

(** [item[k]] on a list of fields. *)
Definition field (item : list string) (k : nat) : result string :=
  match nth_error item k with
  | Some s => Ok s
  | None => Raise (IndexError "list index out of range")
  end.

(** [line.strip().split('\t')]. *)
Definition fields (line : string) : list string :=
  PyStr.split TAB (PyStr.strip line).

(** The message of lines 267-269; its [\t] are tab characters. *)
Definition FIELDS_MESSAGE : string :=
  "All lines did not contain exactly 5 fields. Format - src_txt "
  ++ String TAB " tgt_text " ++ String TAB " forward_score "
  ++ String TAB " reverse_score " ++ String TAB " lm_score "
  ++ String TAB " src_len " ++ String TAB " tgt_len".

Section Cached.

Variable float_pow : float -> float -> result float.
(** [float(s)] on a string. *)
Variable float_of_string : string -> result float.
Variable args : Args.

Definition column (src_text : list (list string)) (k : nat) : result (list string) :=
  Megatron.comprehension (fun item => field item k) src_text.

Definition float_column (src_text : list (list string)) (k : nat) : result (list float) :=
  Megatron.comprehension (fun item => s <- field item k ;; float_of_string s) src_text.

(** Lines 266-279: one full beam window; the selected target text. *)
Definition rerank_window (src_text : list (list string)) : result string :=
  if forallb (fun item => Nat.eqb (List.length item) 7) src_text then
    src_texts <- column src_text 0 ;;
    tgt_texts <- column src_text 1 ;;
    forward_scores <- float_column src_text 2 ;;
    reverse_scores <- float_column src_text 3 ;;
    lm_scores <- float_column src_text 4 ;;
    src_lens <- float_column src_text 5 ;;
    tgt_lens <- float_column src_text 6 ;;
    fused_scores <- score_fusion float_pow args forward_scores reverse_scores lm_scores
                      src_lens tgt_lens ;;
    best <- argmax fused_scores ;;
    field tgt_texts best
  else Raise (IndexError FIELDS_MESSAGE).

(** Lines 263-282: the loop over the lines of the cached score file;
    [src_text] is the window being filled, [tgt_text] the selections so
    far. *)
Fixpoint cached_loop (lines : list string) (src_text : list (list string))
    (tgt_text : list string) (count : Z) : result (list string) :=
  match lines with
  | [] => Ok tgt_text
  | line :: rest =>
      let src_text := (src_text ++ [fields line])%list in
      if Z.of_nat (List.length src_text) =? beam_size args then
        best <- rerank_window src_text ;;
        cached_loop rest [] (tgt_text ++ [best])%list (count + 1)
      else cached_loop rest src_text tgt_text count
  end.

Definition rerank_cached (lines : list string) : result (list string) :=
  cached_loop lines [] [] 0.

End Cached.

(** ** main: the order of checks and of file and model I/O *)

Inductive event : Type :=
| RestoreModel (path : option string)
| ReadFile (path : string)
| WriteFile (path : string) (lines : list string).

(** What the file system and the model loader answer. *)
Record World : Type := {
  restore_from : option string -> result unit;
  read_lines : string -> result (list string);
  write_lines : string -> list string -> result unit
}.

(** A computation that performs I/O: the events in order, then its result
    or the exception that ended it. *)
Definition io (A : Type) : Type := (list event * result A)%type.

Definition ret {A : Type} (a : A) : io A := ([], Ok a).
Definition throw {A : Type} (e : exn) : io A := ([], Raise e).
Definition emit {A : Type} (ev : event) (r : result A) : io A := ([ev], r).

Definition bind_io {A B : Type} (m : io A) (k : A -> io B) : io B :=
  match m with
  | (t, Ok a) => let '(t', r) := k a in ((t ++ t')%list, r)
  | (t, Raise e) => (t, Raise e)
  end.

Definition lift {A : Type} (r : result A) : io A := ([], r).

Definition BOTH_MESSAGE : string :=
  "Only one of --srctext or --cached_score_file must be provided.".
Definition NEITHER_MESSAGE : string :=
  "Neither --srctext nor --cached_score_file were provided.".

Section Main.

Variable float_pow : float -> float -> result float.
Variable float_of_string : string -> result float.
Variable world : World.
(** Lines 208-257, the path that scores with the models, and lines
    289-316, the scores file: both run the external models' code. *)
Variable srctext_rerank : Args -> io (list string).
Variable write_scores_file : Args -> io unit.

Definition restore (path : option string) : io unit :=
  emit (RestoreModel path) (restore_from world path).

(** Lines 160-165: the reverse models, one per comma-separated path. *)
Fixpoint restore_reverse (paths : list string) : io unit :=
  match paths with
  | [] => ret tt
  | model_path :: rest =>
      if PyStr.endswith model_path ".nemo" then
        bind_io (restore (Some model_path)) (fun _ => restore_reverse rest)
      else throw (NotImplementedError ("Only support .nemo files, but got: " ++ model_path))
  end.

(** Lines 158-169. *)
Definition load_models (args : Args) : io unit :=
  match cached_score_file args with
  | None =>
      match reverse_model args with
      | Some paths =>
          bind_io (restore_reverse (PyStr.split "," paths)) (fun _ =>
          restore (language_model args))
      | None => throw (AttributeError "split")
      end
  | Some _ => ret tt
  end.

(** Lines 171-175. *)
Definition check_inputs (args : Args) : result unit :=
  match srctext args, cached_score_file args with
  | Some _, Some _ =>
      Raise (ValueError "Only one of --srctext or --cached_score_file must be provided.")
  | None, None =>
      Raise (ValueError "Neither --srctext nor --cached_score_file were provided.")
  | _, _ => Ok tt
  end.

(** Lines 196-206. *)
Definition check_cached_args (args : Args) : result unit :=
  match cached_score_file args with
  | Some _ =>
      if write_scores args then
        Raise (ValueError "--write_scores cannot be provided with a cached score file.")
      else match reverse_model args with
           | Some _ =>
               Raise (ValueError "--reverse_model cannot be provided with a cached score file since it assumes reverse scores already present in the cached file.")
           | None =>
               match language_model args with
               | Some _ =>
                   Raise (ValueError "--language_model cannot be provided with a cached score file since it assumes language model scores already present in the cached file.")
               | None => Ok tt
               end
           end
  | None => Ok tt
  end.

(** Lines 259-282. *)
Definition cached_rerank (args : Args) (path : string) : io (list string) :=
  bind_io (emit (ReadFile path) (read_lines world path)) (fun lines =>
  lift (rerank_cached float_pow float_of_string args lines)).

Definition main (args : Args) : io unit :=
  bind_io (load_models args) (fun _ =>
  bind_io (lift (check_inputs args)) (fun _ =>
  bind_io (lift (check_cached_args args)) (fun _ =>
  bind_io (match srctext args, cached_score_file args with
           | Some _, _ => srctext_rerank args
           | None, Some path => cached_rerank args path
           | None, None => throw TypeError
           end) (fun tgt_text =>
  bind_io (emit (WriteFile (tgtout args) tgt_text)
             (write_lines world (tgtout args) tgt_text)) (fun _ =>
  if write_scores args then write_scores_file args else ret tt))))).

End Main.

(** The event is the restoring of a model. *)
Definition is_restore (ev : event) : bool :=
  match ev with
  | RestoreModel _ => true
  | _ => false
  end.


(** The flags of a run on a cached score file that passes the checks of
    lines 171-206. *)
Definition cached_mode (args : Args) (path : string) : Prop :=
  cached_score_file args = Some path /\ srctext args = None /\
  write_scores args = false /\ reverse_model args = None /\ language_model args = None.

End Reranker.

(* ================================================================== *)
(** * The weight walk, leaf by leaf *)
(* ================================================================== *)

Module Walk.

(** Induction over [value] through its nested lists and mappings. *)
Section Induction.

Variable P : value -> Prop.
Hypothesis HNone : P VNone.
Hypothesis HBool : forall b, P (VBool b).
Hypothesis HInt : forall z, P (VInt z).
Hypothesis HFloat : forall f, P (VFloat f).
Hypothesis HStr : forall s, P (VStr s).
Hypothesis HTensor : forall t, P (VTensor t).
Hypothesis HList : forall l, Forall P l -> P (VList l).
Hypothesis HDict : forall d, Forall (fun kv => P (snd kv)) d -> P (VDict d).
Hypothesis HNamespace : forall d, Forall (fun kv => P (snd kv)) d -> P (VNamespace d).

Fixpoint value_nested_ind (v : value) : P v :=
  match v with
  | VNone => HNone
  | VBool b => HBool b
  | VInt z => HInt z
  | VFloat f => HFloat f
  | VStr s => HStr s
  | VTensor t => HTensor t
  | VList l =>
      HList l ((fix all (l : list value) : Forall P l :=
                  match l with
                  | [] => Forall_nil _
                  | x :: r => Forall_cons x (value_nested_ind x) (all r)
                  end) l)
  | VDict d =>
      HDict d ((fix all (d : list (string * value)) : Forall (fun kv => P (snd kv)) d :=
                  match d with
                  | [] => Forall_nil _
                  | kv :: r => Forall_cons kv (value_nested_ind (snd kv)) (all r)
                  end) d)
  | VNamespace d =>
      HNamespace d ((fix all (d : list (string * value)) : Forall (fun kv => P (snd kv)) d :=
                  match d with
                  | [] => Forall_nil _
                  | kv :: r => Forall_cons kv (value_nested_ind (snd kv)) (all r)
                  end) d)
  end.

End Induction.

(** The leaves of a weight tree in the order [parse_weights] visits them,
    each with the key it is stored under. *)
Fixpoint leaves (translator : Dict.t string) (node : value) (parent_key : string)
    {struct node} : list (string * value) :=
  match node with
  | VDict weight_dict =>
      (fix loop (items : list (string * value)) {struct items} : list (string * value) :=
         match items with
         | [] => []
         | (key, child) :: rest =>
             let new_key := Megatron.translate_key translator key in
             let here :=
               match child with
               | VDict _ => leaves translator child (parent_key ++ "." ++ new_key)
               | _ => [("model" ++ parent_key ++ "." ++ new_key, child)]
               end in
             (here ++ loop rest)%list
         end) weight_dict
  | _ => []
  end.

(** One leaf counted and stored, as the else branch of the loop does. *)
Definition store (st : result Megatron.walk_state) (entry : string * value)
  : result Megatron.walk_state :=
  st <- st ;;
  match snd entry with
  | VTensor w => Ok (fst st + Z.of_nat (Tensor.numel w), Dict.set (snd st) (fst entry) w)
  | _ => Raise (AttributeError "cpu")
  end.

Definition is_tensor (v : value) : bool :=
  match v with VTensor _ => true | _ => false end.

(** The number of elements of the tensors among the entries. *)
Fixpoint count_elements (entries : list (string * value)) : Z :=
  match entries with
  | [] => 0
  | (_, VTensor w) :: rest => Z.of_nat (Tensor.numel w) + count_elements rest
  | _ :: rest => count_elements rest
  end.

(** The tensors among the entries assigned in order. *)
Fixpoint assign_all (converted : Dict.t Megatron.tensor) (entries : list (string * value))
  : Dict.t Megatron.tensor :=
  match entries with
  | [] => converted
  | (key, VTensor w) :: rest => assign_all (Dict.set converted key w) rest
  | _ :: rest => assign_all converted rest
  end.

End Walk.

(* ================================================================== *)
(** * load_from_checkpoint *)
(* ================================================================== *)

Module Loader.

(** [c.lower()] on an ASCII character. *)
Definition lower_char (c : ascii) : ascii :=
  let n := nat_of_ascii c in
  if ((65 <=? n) && (n <=? 90))%nat then ascii_of_nat (n + 32) else c.

(** [s.lower()], on ASCII letters. *)
Fixpoint lower (s : string) : string :=
  match s with
  | EmptyString => EmptyString
  | String c s' => String (lower_char c) (lower s')
  end.

(** [hparams_file.split(".")[-1]]. *)
Definition extension (hparams_file : string) : string :=
  last (PyStr.split "." hparams_file) EmptyString.

(** The two loaders of pytorch_lightning.core.saving. *)
Inductive loader : Type :=
| TagsCsv
| Yaml.

(** Lines 279-285: the loader chosen from the extension. *)
Definition loader_of (hparams_file : string) : result loader :=
  let extension := extension hparams_file in
  if String.eqb (lower extension) "csv" then Ok TagsCsv
  else if String.eqb (lower extension) "yml" || String.eqb (lower extension) "yaml" then Ok Yaml
  else Raise (ValueError ".csv, .yml or .yaml is required for `hparams_file`").

(** [LightningModule.CHECKPOINT_HYPER_PARAMS_KEY] of pytorch_lightning. *)
Definition CHECKPOINT_HYPER_PARAMS_KEY : string := "hyper_parameters".

(** The converted tensors as the value held under [state_dict]. *)
Definition tensors_value (state_dict : Dict.t Megatron.tensor) : value :=
  VDict (map (fun entry => (fst entry, VTensor (snd entry))) state_dict).

(** [d.update(other)]. *)
Definition update (d other : Dict.t value) : Dict.t value :=
  fold_left (fun acc entry => Dict.set acc (fst entry) (snd entry)) other d.

(** What [load_from_checkpoint] returns. *)
Record loaded : Type := {
  checkpoint : Dict.t value;
  consumed : option value;
  steps : option value;
  check_point_version : value
}.

Section LoadFromCheckpoint.

Variable float_floordiv : float -> float -> float.
(** [load_hparams_from_tags_csv] and [load_hparams_from_yaml]. *)
Variable load_hparams_from_tags_csv : string -> result value.
Variable load_hparams_from_yaml : string -> result value.

(** Lines 278-287: the hyper-parameters of the file, [on_gpu] cleared. *)
Definition load_hparams (hparams_file : string) : result (Dict.t value) :=
  kind <- loader_of hparams_file ;;
  hparams <- match kind with
             | TagsCsv => load_hparams_from_tags_csv hparams_file
             | Yaml => load_hparams_from_yaml hparams_file
             end ;;
  match hparams with
  | VDict d => Ok (Dict.set d "on_gpu" (VBool false))
  | _ => Raise TypeError
  end.

(** Lines 345-347. *)
Definition consumed_samples (old_checkpoint : Dict.t value) : option value :=
  match Dict.get old_checkpoint "args" with
  | Some args =>
      match Py.getattr args "consumed_train_samples" with
      | Ok samples => Some samples
      | Raise _ => None
      end
  | None => None
  end.

(** Lines 270-354, on a checkpoint already read: [weights] is the mapping
    [old_checkpoint['model']], [translator] is [kwargs['translator']] and
    [config_kwargs] the keyword arguments left once [trainer] is popped. *)
Definition load_from_checkpoint (weights old_checkpoint : Dict.t value)
    (hparams_file : option string) (translator : Dict.t string)
    (config_kwargs : Dict.t value) : result loaded :=
  st <- Megatron.parse_weights weights "" 0 [] translator ;;
  let state_dict := snd st in
  hparams <- match hparams_file with
             | Some file => hparams <- load_hparams file ;; Ok (Some hparams)
             | None => Ok None
             end ;;
  state_dict <- Megatron.migrate_attention old_checkpoint (option_map VDict hparams)
                  state_dict ;;
  let hyper := match hparams with Some d => d | None => [] end in
  let hyper := VDict (update hyper config_kwargs) in
  let checkpoint := [("state_dict", tensors_value state_dict);
                     (CHECKPOINT_HYPER_PARAMS_KEY, hyper)] in
  checkpoint <- Megatron.add_optimizer_state float_floordiv old_checkpoint checkpoint true ;;
  Ok {| checkpoint := checkpoint;
        consumed := consumed_samples old_checkpoint;
        steps := Dict.get old_checkpoint "iteration";
        check_point_version := Megatron.checkpoint_version old_checkpoint |}.

End LoadFromCheckpoint.

End Loader.

(* ================================================================== *)
(** * Instances of the float parameters, for running examples *)
(* ================================================================== *)

Module Instances.

(** The floor of the exact quotient of two finite doubles, rounded to
    nearest; NaN on other operands. It stands for [float_floordiv] in the
    examples, whose step counts are all ints. *)
Definition floor_quotient (x y : float) : float :=
  match Prim2SF x, Prim2SF y with
  | S754_finite sx mx ex, S754_finite sy my ey =>
      let e := Z.min ex ey in
      let X := cond_Zopp sx (Z.pos mx * 2 ^ (ex - e)) in
      let Y := cond_Zopp sy (Z.pos my * 2 ^ (ey - e)) in
      SF2Prim (binary_normalize prec emax (X / Y) 0 (xorb sx sy))
  | S754_zero _, S754_finite _ _ _ => PrimFloat.div x y
  | _, _ => PrimFloat.nan
  end.

(** [x ** y] for the exponents 0.0 and 1.0, where the result is exact; the
    other exponents are left out. It stands for [float_pow] in the examples. *)
Definition pow_exact (x y : float) : result float :=
  if PrimFloat.eqb y 1%float then Ok x
  else if PrimFloat.eqb y 0%float then Ok 1%float
  else Raise OverflowError.

(** Digits with at most one point: the digits read as an integer and the
    power of ten the point divides it by. *)
Fixpoint decimal_digits (s : string) (acc scale : Z) (point any : bool) : option (Z * Z) :=
  match s with
  | EmptyString => if any then Some (acc, scale) else None
  | String c s' =>
      if Py.is_digit c then
        decimal_digits s' (10 * acc + Py.digit_val c) (if point then 10 * scale else scale) point true
      else if Ascii.eqb c "." then
        (if point then None else decimal_digits s' acc scale true any)
      else None
  end.

(** [float(s)] for a plain decimal literal (a sign, digits, at most one
    point) short enough that one division gives the nearest double. It
    stands for [float_of_string] in the examples. *)
Definition float_of_decimal (s : string) : result float :=
  let body := PyStr.strip s in
  let '(negative, ds) :=
    match body with
    | String "-" r => (true, r)
    | String "+" r => (false, r)
    | _ => (false, body)
    end in
  match decimal_digits ds 0 1 false false with
  | Some (n, scale) =>
      if (n <? 2 ^ 53) && (scale <=? 10 ^ 22) then
        a <- Py.float_of_int n ;;
        b <- Py.float_of_int scale ;;
        let q := PrimFloat.div a b in
        Ok (if negative then PrimFloat.opp q else q)
      else Raise (ValueError "could not convert string to float")
  | None => Raise (ValueError "could not convert string to float")
  end.

End Instances.

(* ================================================================== *)
(** * The specification's wording, for comparison with the code *)
(* ================================================================== *)

Module Spec.

(** The rules as the specification words them: every rule whose pattern
    occurs in the key is applied, in rule order, each to the string the
    earlier rules have already rewritten. *)
Fixpoint translate_chained_loop (rules : Dict.t string) (key new_key : string) : string :=
  match rules with
  | [] => new_key
  | (pattern, replacement) :: rest =>
      translate_chained_loop rest key
        (if 0 <=? PyStr.find key pattern
         then PyStr.replace new_key pattern replacement
         else new_key)
  end.

Definition translate_chained (rules : Dict.t string) (key : string) : string :=
  translate_chained_loop rules key key.

(** One line of the cached score file, read: the two texts, the three
    scores and the two lengths. *)
Record score_record : Type := {
  src_txt : string;
  tgt_txt : string;
  forward : float;
  reverse : float;
  lm : float;
  src_len : float;
  tgt_len : float
}.

(** The line splits into exactly seven fields and its five numbers read as
    the record's. *)
Definition reads (float_of_string : string -> result float) (line : string)
    (r : score_record) : Prop :=
  exists f rv l sl tl,
    Reranker.fields line = [src_txt r; tgt_txt r; f; rv; l; sl; tl] /\
    float_of_string f = Ok (forward r) /\
    float_of_string rv = Ok (reverse r) /\
    float_of_string l = Ok (lm r) /\
    float_of_string sl = Ok (src_len r) /\
    float_of_string tl = Ok (tgt_len r).

(** A primed score as the specification gives it: the raw score divided by
    a length when length normalization is enabled, otherwise the raw
    score. *)
Definition primed (args : Reranker.Args) (score len : float) : float :=
  if Reranker.length_normalize_scores args then PrimFloat.div score len else score.

(** fwd_coef * forward' + rev_coef * reverse' + lm_coef * lm', forward and
    LM primed by the target length, reverse by the source length. *)
Definition weighted_sum (args : Reranker.Args) (r : score_record) : float :=
  PrimFloat.add
    (PrimFloat.add
       (PrimFloat.mul (Reranker.forward_model_coef args) (primed args (forward r) (tgt_len r)))
       (PrimFloat.mul (Reranker.reverse_model_coef args) (primed args (reverse r) (src_len r))))
    (PrimFloat.mul (Reranker.target_lm_coef args) (primed args (lm r) (tgt_len r))).

(** ((5 + target length) / 6) ** length_penalty; the power is the
    interpreter's, the one operation here that is not IEEE arithmetic. *)
Definition length_penalty (float_pow : float -> float -> result float)
    (r : score_record) (p : float) : result float :=
  float_pow (PrimFloat.div (PrimFloat.add 5%float (tgt_len r)) 6%float) p.

(** The fused score as the specification gives it: the weighted sum,
    divided by the length penalty when one is configured. The divisions
    are IEEE divisions: this is the formula alone, which raises nothing of
    its own. *)
Definition fused_score (float_pow : float -> float -> result float)
    (args : Reranker.Args) (r : score_record) : result float :=
  match Reranker.len_pen args with
  | Some p =>
      penalty <- length_penalty float_pow r p ;;
      Ok (PrimFloat.div (weighted_sum args r) penalty)
  | None => Ok (weighted_sum args r)
  end.

(** No divisor of the formula is zero: neither length under length
    normalization, nor the length penalty when one is configured. (Python
    raises on a division by zero where IEEE gives an infinity or a NaN.) *)
Definition divisors_not_zero (float_pow : float -> float -> result float)
    (args : Reranker.Args) (r : score_record) : bool :=
  (if Reranker.length_normalize_scores args
   then negb (PrimFloat.eqb (src_len r) 0%float) && negb (PrimFloat.eqb (tgt_len r) 0%float)
   else true)
  && match Reranker.len_pen args with
     | Some p =>
         match length_penalty float_pow r p with
         | Ok penalty => negb (PrimFloat.eqb penalty 0%float)
         | Raise _ => true
         end
     | None => true
     end.

(** Two doubles that are the same number: identical, or both zero (0.0 and
    -0.0 are equal numbers with different signs). *)
Definition same_number (x y : float) : Prop :=
  x = y \/ (PrimFloat.eqb x 0%float = true /\ PrimFloat.eqb y 0%float = true).

(** [best] is the first position of the largest of [scores]. *)
Definition first_maximum (scores : list float) (best : nat) : Prop :=
  exists top,
    nth_error scores best = Some top /\
    (forall j s, nth_error scores j = Some s -> PrimFloat.leb s top = true) /\
    (forall j s, (j < best)%nat -> nth_error scores j = Some s -> PrimFloat.ltb s top = true).

(** [text] is the target text of the record at the first position of the
    largest of the window's fused scores. *)
Definition window_selection (recs : list score_record) (scores : list float)
    (text : string) : Prop :=
  exists best r,
    nth_error recs best = Some r /\ text = tgt_txt r /\ first_maximum scores best.

End Spec.

(* ================================================================== *)
(** * Sample checkpoints *)
(* ================================================================== *)

Module Samples.

Definition scheduler : value :=
  VDict [("max_lr", VFloat 0.5); ("min_lr", VFloat 0.125); ("warmup_steps", VInt 3200);
         ("num_steps", VInt 64000); ("decay_style", VStr "linear");
         ("decay_steps", VInt 320000)].

(** Iteration counter, scheduler and training arguments; no optimizer. *)
Definition checkpoint_plain : Dict.t value :=
  [("iteration", VInt 500); ("lr_scheduler", scheduler);
   ("args", VNamespace [("global_batch_size", VInt 64)])].



(** The same with the optimizer section nested as Megatron-LM saves it. *)
Definition checkpoint_full : Dict.t value :=
  ("optimizer",
   VDict [("optimizer",
           VDict [("state", VDict []);
                  ("param_groups", VList [VDict [("lr", VFloat 0.25)]])]);
          ("fp32_from_fp16_params", VList [])]) :: checkpoint_plain.

(** An optimizer section that lacks the nested optimizer state. *)
Definition checkpoint_flat_optimizer : Dict.t value :=
  ("optimizer", VDict [("param_scheduler", VDict [])]) :: checkpoint_plain.

(** A scheduler section, and training arguments without a batch size. *)
Definition checkpoint_no_batch_size : Dict.t value :=
  [("iteration", VInt 500); ("lr_scheduler", scheduler); ("args", VNamespace [])].

(** Model weights only: no iteration counter. *)
Definition checkpoint_weights_only : Dict.t value :=
  [("model", VDict []); ("checkpoint_version", VFloat 3)].

(** Tensor-parallel rank 0 of 2, no pipeline parallelism. *)
Definition two_way : Megatron.AppState := {|
  Megatron.model_parallel_size := Some 2;
  Megatron.pipeline_model_parallel_size := Some 1;
  Megatron.tensor_model_parallel_rank := 0;
  Megatron.pipeline_model_parallel_rank := 0
|}.

(** Tensor-parallel rank 1, pipeline rank 12 of a 4 by 16 grid. *)
Definition grid : Megatron.AppState := {|
  Megatron.model_parallel_size := Some 64;
  Megatron.pipeline_model_parallel_size := Some 16;
  Megatron.tensor_model_parallel_rank := 1;
  Megatron.pipeline_model_parallel_rank := 12
|}.

(** A version-0 checkpoint (no version recorded) of a model with two
    attention heads. *)
Definition old_v0 : Dict.t value :=
  [("model", VDict []); ("config", VDict [("num-attention-heads", VInt 2)])].

Definition QKV_WEIGHT : string :=
  "model.language_model.encoder.layers.0.self_attention.query_key_value.weight".
Definition QKV_BIAS : string :=
  "model.language_model.encoder.layers.0.self_attention.query_key_value.bias".
Definition DENSE_WEIGHT : string :=
  "model.language_model.encoder.layers.0.self_attention.dense.weight".

(** A fused projection of six rows and two columns, its bias and another
    weight. *)
Definition state_dict : Dict.t Megatron.tensor :=
  [(QKV_WEIGHT, Tensor.mk [6%nat; 2%nat] [0; 1; 2; 3; 4; 5; 6; 7; 8; 9; 10; 11]%float);
   (QKV_BIAS, Tensor.mk [6%nat] [0; 1; 2; 3; 4; 5]%float);
   (DENSE_WEIGHT, Tensor.mk [2%nat; 2%nat] [0; 1; 2; 3]%float)].

(** A fused projection stored with three dimensions. *)
Definition state_dict_rank3 : Dict.t Megatron.tensor :=
  [(QKV_WEIGHT,
    Tensor.mk [3%nat; 2%nat; 4%nat]
      [0; 1; 2; 3; 4; 5; 6; 7; 8; 9; 10; 11; 12; 13; 14; 15; 16; 17; 18; 19; 20; 21; 22; 23]%float)].

(** Cached-score reranking with the default coefficients, beams of two. *)
Definition cached_args : Reranker.Args := {|
  Reranker.reverse_model := None;
  Reranker.language_model := None;
  Reranker.forward_model_coef := 1.0;
  Reranker.reverse_model_coef := 0.7;
  Reranker.target_lm_coef := 0.07;
  Reranker.srctext := None;
  Reranker.cached_score_file := Some "scores.tsv";
  Reranker.tgtout := "out.txt";
  Reranker.beam_size := 2;
  Reranker.write_scores := false;
  Reranker.length_normalize_scores := false;
  Reranker.len_pen := None
|}.

(** The same with length normalization and a length penalty of 1. *)
Definition cached_args_penalized : Reranker.Args := {|
  Reranker.reverse_model := None;
  Reranker.language_model := None;
  Reranker.forward_model_coef := 1.0;
  Reranker.reverse_model_coef := 0.7;
  Reranker.target_lm_coef := 0.07;
  Reranker.srctext := None;
  Reranker.cached_score_file := Some "scores.tsv";
  Reranker.tgtout := "out.txt";
  Reranker.beam_size := 2;
  Reranker.write_scores := false;
  Reranker.length_normalize_scores := true;
  Reranker.len_pen := Some 1%float
|}.

(** Neither [--srctext] nor [--cached_score_file], with models to load. *)
Definition no_input_args : Reranker.Args := {|
  Reranker.reverse_model := Some "rev.nemo";
  Reranker.language_model := Some "lm.nemo";
  Reranker.forward_model_coef := 1.0;
  Reranker.reverse_model_coef := 0.7;
  Reranker.target_lm_coef := 0.07;
  Reranker.srctext := None;
  Reranker.cached_score_file := None;
  Reranker.tgtout := "out.txt";
  Reranker.beam_size := 4;
  Reranker.write_scores := false;
  Reranker.length_normalize_scores := false;
  Reranker.len_pen := None
|}.

(** Both [--srctext] and [--cached_score_file]. *)
Definition both_inputs_args : Reranker.Args := {|
  Reranker.reverse_model := None;
  Reranker.language_model := None;
  Reranker.forward_model_coef := 1.0;
  Reranker.reverse_model_coef := 0.7;
  Reranker.target_lm_coef := 0.07;
  Reranker.srctext := Some "beams.tsv";
  Reranker.cached_score_file := Some "scores.tsv";
  Reranker.tgtout := "out.txt";
  Reranker.beam_size := 4;
  Reranker.write_scores := false;
  Reranker.length_normalize_scores := false;
  Reranker.len_pen := None
|}.

Definition LF : string := String "010" EmptyString.
Definition T : string := String Reranker.TAB EmptyString.

(** A score line: source, target, forward, reverse and LM scores, lengths. *)
Definition score_line (src tgt f r l sl tl : string) : string :=
  src ++ T ++ tgt ++ T ++ f ++ T ++ r ++ T ++ l ++ T ++ sl ++ T ++ tl ++ LF.

(** Three well-formed lines: one window of two and a line left over. *)
Definition three_lines : list string :=
  [score_line "quelle" "first" "-2.0" "-3.0" "-1.0" "3" "2";
   score_line "quelle" "second" "-1.5" "-3.0" "-1.0" "3" "2";
   score_line "bach" "third" "-1.0" "-1.0" "-1.0" "1" "1"].

(** Two lines, the second with six fields. *)
Definition short_record : list string :=
  [score_line "quelle" "first" "-2.0" "-3.0" "-1.0" "3" "2";
   "quelle" ++ T ++ "second" ++ T ++ "-1.5" ++ T ++ "-3.0" ++ T ++ "-1.0" ++ T ++ "3" ++ LF].

(** The first two of [three_lines], read. *)
Definition first_record : Spec.score_record := {|
  Spec.src_txt := "quelle"; Spec.tgt_txt := "first";
  Spec.forward := (-2.0)%float; Spec.reverse := (-3.0)%float; Spec.lm := (-1.0)%float;
  Spec.src_len := 3%float; Spec.tgt_len := 2%float
|}.
Definition second_record : Spec.score_record := {|
  Spec.src_txt := "quelle"; Spec.tgt_txt := "second";
  Spec.forward := (-1.5)%float; Spec.reverse := (-3.0)%float; Spec.lm := (-1.0)%float;
  Spec.src_len := 3%float; Spec.tgt_len := 2%float
|}.

(** The fused score of a record by the formula, NaN where it has none. *)
Definition score_of (args : Reranker.Args) (r : Spec.score_record) : float :=
  match Spec.fused_score Instances.pow_exact args r with
  | Ok s => s
  | Raise _ => PrimFloat.nan
  end.

(** A world in which every model restores and every file holds
    [three_lines]. *)
Definition world : Reranker.World := {|
  Reranker.restore_from := fun _ => Ok tt;
  Reranker.read_lines := fun _ => Ok three_lines;
  Reranker.write_lines := fun _ _ => Ok tt
|}.

(** The same world with [short_record] in every file. *)
Definition world_short : Reranker.World := {|
  Reranker.restore_from := fun _ => Ok tt;
  Reranker.read_lines := fun _ => Ok short_record;
  Reranker.write_lines := fun _ _ => Ok tt
|}.

(** The model-scoring paths are not run in the examples. *)
Definition no_srctext_rerank (_ : Reranker.Args) : Reranker.io (list string) :=
  Reranker.throw RuntimeError.
Definition no_write_scores_file (_ : Reranker.Args) : Reranker.io unit :=
  Reranker.throw RuntimeError.

End Samples.

(* ================================================================== *)
(** * More sample inputs *)
(* ================================================================== *)

Module Examples.

(** A scheduler whose step counts are all floats with a fractional part,
    each just below a multiple of 64. *)
Definition scheduler_fractions : Dict.t value :=
  [("max_lr", VFloat 0.5); ("min_lr", VFloat 0.125); ("warmup_steps", VFloat 3263.5);
   ("num_steps", VFloat 64063.5); ("decay_style", VStr "linear");
   ("decay_steps", VFloat 320063.75)].

(** Iteration counter, that scheduler and training arguments; no
    optimizer. *)
Definition checkpoint_fractions : Dict.t value :=
  [("iteration", VInt 500); ("lr_scheduler", VDict scheduler_fractions);
   ("args", VNamespace [("global_batch_size", VInt 64)])].

(** A weight tree as Megatron-LM nests it. *)
Definition weights : Dict.t value :=
  [("language_model",
    VDict [("embedding",
            VDict [("word_embeddings",
                    VDict [("weight", VTensor (Tensor.mk [2%nat; 2%nat] [0; 1; 2; 3]%float))])]);
           ("transformer",
            VDict [("layers.0.attention.query_key_value.weight",
                    VTensor (Tensor.mk [6%nat; 2%nat]
                               [0; 1; 2; 3; 4; 5; 6; 7; 8; 9; 10; 11]%float));
                   ("layers.0.attention.dense.weight",
                    VTensor (Tensor.mk [2%nat; 2%nat] [0; 1; 2; 3]%float))])])].

(** A version-0 checkpoint of a model with two attention heads, saved at
    iteration 500 without optimizer or scheduler. *)
Definition old_checkpoint : Dict.t value :=
  [("model", VDict weights);
   ("config", VDict [("num-attention-heads", VInt 2)]);
   ("iteration", VInt 500)].

(** The keyword arguments [convert] passes on, [trainer] popped. *)
Definition config_kwargs : Dict.t value :=
  [("translator",
    VDict [("transformer", VStr "encoder");
           (".attention.", VStr ".self_attention.");
           ("word_embeddings_for_head", VStr "word_embeddings")])].

(** A YAML file of hyper-parameters that gives the number of heads. *)
Definition yaml_file (_ : string) : result value :=
  Ok (VDict [("cfg", VDict [("num_attention_heads", VInt 2)]); ("on_gpu", VBool true)]).

(** No CSV file of tags can be read. *)
Definition no_csv_file (_ : string) : result value := Raise RuntimeError.

(** A fused projection of five rows, which two heads cannot share. *)
Definition five_rows : Megatron.tensor :=
  Tensor.mk [5%nat; 2%nat] [0; 1; 2; 3; 4; 5; 6; 7; 8; 9]%float.

(** A scheduler section and a global batch size of zero. *)
Definition checkpoint_zero_batch : Dict.t value :=
  [("lr_scheduler", Samples.scheduler);
   ("args", VNamespace [("global_batch_size", VInt 0)])].

(** Reranking from a cached score file with the default coefficients. *)
Definition cached_run (beam : Z) (scores normalize : bool) : Reranker.Args := {|
  Reranker.reverse_model := None;
  Reranker.language_model := None;
  Reranker.forward_model_coef := 1.0;
  Reranker.reverse_model_coef := 0.7;
  Reranker.target_lm_coef := 0.07;
  Reranker.srctext := None;
  Reranker.cached_score_file := Some "scores.tsv";
  Reranker.tgtout := "out.txt";
  Reranker.beam_size := beam;
  Reranker.write_scores := scores;
  Reranker.length_normalize_scores := normalize;
  Reranker.len_pen := None
|}.

(** Reranking with models, the second of the reverse models a checkpoint
    file. *)
Definition model_run : Reranker.Args := {|
  Reranker.reverse_model := Some "a.nemo,b.ckpt,c.nemo";
  Reranker.language_model := Some "lm.nemo";
  Reranker.forward_model_coef := 1.0;
  Reranker.reverse_model_coef := 0.7;
  Reranker.target_lm_coef := 0.07;
  Reranker.srctext := Some "beams.tsv";
  Reranker.cached_score_file := None;
  Reranker.tgtout := "out.txt";
  Reranker.beam_size := 4;
  Reranker.write_scores := false;
  Reranker.length_normalize_scores := false;
  Reranker.len_pen := None
|}.

(** [float(s)] on the decimal literals of the examples and on "nan". *)
Definition float_of_text (s : string) : result float :=
  if String.eqb (PyStr.strip s) "nan" then Ok PrimFloat.nan
  else Instances.float_of_decimal s.

(** A window of three records, the forward score of the second not a
    number. *)
Definition nan_window : list (list string) :=
  map Reranker.fields
    [Samples.score_line "quelle" "first" "-2.0" "-3.0" "-1.0" "3" "2";
     Samples.score_line "quelle" "second" "nan" "-3.0" "-1.0" "3" "2";
     Samples.score_line "quelle" "third" "-1.0" "-1.0" "-1.0" "3" "2"].

End Examples.

(* ================================================================== *)
(** * The order of doubles, through integer keys *)
(* ================================================================== *)

Module FloatOrder.

(** A key whose lexicographic order is the order [SFcompare] decides:
    the class (infinities, negative, zero, positive), then exponent and
    mantissa, both negated for negative numbers. NaN has no place in it. *)
Definition key (f : spec_float) : Z * Z * Z :=
  match f with
  | S754_nan => (0, 0, 0)
  | S754_zero _ => (0, 0, 0)
  | S754_infinity true => (-2, 0, 0)
  | S754_infinity false => (2, 0, 0)
  | S754_finite false m e => (1, e, Z.pos m)
  | S754_finite true m e => (-1, - e, - Z.pos m)
  end.

Definition lt3 (a b : Z * Z * Z) : Prop :=
  let '(a1, a2, a3) := a in
  let '(b1, b2, b3) := b in
  a1 < b1 \/ (a1 = b1 /\ (a2 < b2 \/ (a2 = b2 /\ a3 < b3))).

Definition fkey (x : float) : Z * Z * Z := key (Prim2SF x).

(** Equal up to the sign of a zero, on the specification side of floats. *)
Definition zsim (a b : spec_float) : Prop :=
  a = b \/ (exists s s', a = S754_zero s /\ b = S754_zero s').

End FloatOrder.

(* ================================================================== *)
(** * Properties *)
(* ================================================================== *)

Lemma bind_ok_inv {A B : Type} (m : result A) (k : A -> result B) (b : B) :
  bind m k = Ok b -> exists a, m = Ok a /\ k a = Ok b.
Proof.
  destruct m as [a|e]; simpl; intros H; [eauto | discriminate].
Qed.

Lemma dict_get_set_same {V : Type} (d : Dict.t V) (k : string) (v : V) :
  Dict.get (Dict.set d k v) k = Some v.
Proof.
  induction d as [|[k' v'] d IH]; simpl.
  - now rewrite String.eqb_refl.
  - destruct (String.eqb k' k) eqn:E; simpl.
    + now rewrite String.eqb_refl.
    + now rewrite E.
Qed.

Lemma dict_get_set_other {V : Type} (d : Dict.t V) (k k' : string) (v : V) :
  k <> k' -> Dict.get (Dict.set d k v) k' = Dict.get d k'.
Proof.
  intros Hne. induction d as [|[k0 v0] d IH]; simpl.
  - destruct (String.eqb k k') eqn:E; [|reflexivity].
    apply String.eqb_eq in E. contradiction.
  - destruct (String.eqb k0 k) eqn:E; simpl.
    + apply String.eqb_eq in E. subst k0.
      destruct (String.eqb k k') eqn:E'; [|reflexivity].
      apply String.eqb_eq in E'. contradiction.
    + destruct (String.eqb k0 k'); [reflexivity | exact IH].
Qed.

(** ** Key translation *)

Section KeyTranslation.
Import Megatron.

(** A rule appended last decides the outcome whenever its pattern occurs:
    what the earlier rules assigned is overwritten. *)
Lemma translate_loop_snoc (rules : Dict.t string) (pattern replacement key new_key : string) :
  translate_loop (rules ++ [(pattern, replacement)])%list key new_key =
  if 0 <=? PyStr.find key pattern
  then PyStr.replace key pattern replacement
  else translate_loop rules key new_key.
Proof.
  revert new_key.
  induction rules as [|[p r] rules IH]; intros new_key; simpl.
  - reflexivity.
  - apply IH.
Qed.

(** X1: the translated key never mixes two rules: it is the key itself or one
    rule applied to the key. *)
Lemma translate_loop_single (rules : Dict.t string) (key new_key : string) :
  translate_loop rules key new_key = new_key \/
  exists pattern replacement,
    In (pattern, replacement) rules /\
    (0 <=? PyStr.find key pattern) = true /\
    translate_loop rules key new_key = PyStr.replace key pattern replacement.
Proof.
  revert new_key.
  induction rules as [|[p r] rules IH]; intros new_key; simpl.
  - now left.
  - destruct (IH (if 0 <=? PyStr.find key p then PyStr.replace key p r else new_key))
      as [H | (p' & r' & Hin & Hocc & H)].
    + rewrite H. destruct (0 <=? PyStr.find key p) eqn:E.
      * right. exists p, r. repeat split; auto.
      * now left.
    + right. exists p', r'. repeat split; auto.
Qed.

(** C1: on a key in which two rule patterns occur, the walk's translation
    holds the replacement of the last of them only, where the chained
    translation of the specification holds both. *)
Theorem C1_translation_keeps_last_rule_only :
  PyStr.contains "transformer.attention.w" "transformer" = true /\
  PyStr.contains "transformer.attention.w" ".attention." = true /\
  translate_key name_translate "transformer.attention.w" = "transformer.self_attention.w" /\
  Spec.translate_chained name_translate "transformer.attention.w" = "encoder.self_attention.w" /\
  parse_weights
    [("transformer.attention.w", VTensor (Tensor.mk [2%nat] [1%float; 2%float]))]
    "" 0 [] name_translate
  = Ok (2, [("model.transformer.self_attention.w", Tensor.mk [2%nat] [1%float; 2%float])]).
Proof.
  repeat split; vm_compute; reflexivity.
Qed.

End KeyTranslation.

(** ** Optimizer-state adapter *)

Section OptimizerState.
Import Megatron.

Variable float_floordiv : float -> float -> float.

Ltac name_keys :=
  unfold OPTIMIZER_KEY, FP32_FP16_KEY, NEW_OPTIMIZER_KEY, STEP_KEY, NEW_STEP_KEY,
    LR_SCHEDULER, NEW_LR_SCHEDULER in *.

(** The optimizer block writes at most the [optimizer_states] entry. *)
Lemma optimizer_block_other_keys lm new amp new1 k :
  optimizer_block lm new amp = Ok new1 ->
  k <> "optimizer_states" ->
  Dict.get new1 k = Dict.get new k.
Proof.
  unfold optimizer_block. name_keys. intros H Hk.
  destruct (Dict.get lm "optimizer") as [section|]; [|now inversion H].
  destruct (Py.contains section "optimizer") as [[|]|]; simpl in H;
    try discriminate; [|now inversion H].
  destruct (Py.getitem section "optimizer") as [opt_state|]; simpl in H; [|discriminate].
  destruct amp.
  - destruct (backfill_initial_lr lm opt_state) as [st|]; simpl in H; [|discriminate].
    destruct (Py.contains section "fp32_from_fp16_params") as [[|]|]; simpl in H;
      try discriminate.
    + destruct (Py.getitem section "fp32_from_fp16_params"); simpl in H; [|discriminate].
      inversion H. apply dict_get_set_other. congruence.
    + inversion H. apply dict_get_set_other. congruence.
  - inversion H. apply dict_get_set_other. congruence.
Qed.

(** Without an [optimizer] entry in the source the block changes nothing. *)
Lemma optimizer_block_absent lm new amp :
  Dict.get lm "optimizer" = None -> optimizer_block lm new amp = Ok new.
Proof.
  unfold optimizer_block. name_keys. now intros ->.
Qed.

(** An [optimizer] section without the nested state changes nothing either. *)
Lemma optimizer_block_not_nested lm new amp section :
  Dict.get lm "optimizer" = Some (VDict section) ->
  Dict.mem section "optimizer" = false ->
  optimizer_block lm new amp = Ok new.
Proof.
  unfold optimizer_block. name_keys. intros -> Hm. simpl. now rewrite Hm.
Qed.

(** The scheduler block writes at most the [lr_schedulers] entry. *)
Lemma scheduler_block_other_keys lm new new' k :
  scheduler_block float_floordiv lm new = Ok new' ->
  k <> "lr_schedulers" ->
  Dict.get new' k = Dict.get new k.
Proof.
  unfold scheduler_block. name_keys. intros H Hk.
  destruct (Dict.mem lm "lr_scheduler"); [|now inversion H].
  repeat match type of H with
         | bind ?m _ = Ok _ =>
             let a := fresh "a" in
             let Ha := fresh "Ha" in
             apply bind_ok_inv in H; destruct H as (a & Ha & H)
         end.
  inversion H. apply dict_get_set_other. congruence.
Qed.

Lemma step_block_fields lm new :
  match Dict.get lm "iteration" with
  | Some it =>
      Dict.get (step_block lm new) "global_step" = Some it /\
      Dict.get (step_block lm new) "epoch" = Some (VInt 1)
  | None => step_block lm new = new
  end.
Proof.
  unfold step_block. name_keys.
  destruct (Dict.get lm "iteration") as [it|]; [|reflexivity].
  split.
  - rewrite dict_get_set_other by congruence. apply dict_get_set_same.
  - apply dict_get_set_same.
Qed.

(** C8 (as amended): when the adapter returns, a source iteration counter
    is copied verbatim into [global_step] and [epoch] is 1; without an
    iteration counter neither field is written. The adapter does return when
    the source has neither an optimizer nor a scheduler section. *)
Theorem C8_step_copied_epoch_only_with_iteration
    (lm new : Dict.t value) (amp : bool) :
  (forall new', add_optimizer_state float_floordiv lm new amp = Ok new' ->
     match Dict.get lm "iteration" with
     | Some it =>
         Dict.get new' "global_step" = Some it /\ Dict.get new' "epoch" = Some (VInt 1)
     | None =>
         Dict.get new' "global_step" = Dict.get new "global_step" /\
         Dict.get new' "epoch" = Dict.get new "epoch"
     end) /\
  (Dict.get lm "optimizer" = None -> Dict.get lm "lr_scheduler" = None ->
   add_optimizer_state float_floordiv lm new amp = Ok (step_block lm new)).
Proof.
  split.
  - intros new' H. unfold add_optimizer_state in H.
    apply bind_ok_inv in H. destruct H as (new1 & H1 & H2).
    pose proof (scheduler_block_other_keys _ _ _ "global_step" H2 ltac:(congruence)) as Eg.
    pose proof (scheduler_block_other_keys _ _ _ "epoch" H2 ltac:(congruence)) as Ee.
    pose proof (optimizer_block_other_keys _ _ _ _ "global_step" H1 ltac:(congruence)) as Og.
    pose proof (optimizer_block_other_keys _ _ _ _ "epoch" H1 ltac:(congruence)) as Oe.
    pose proof (step_block_fields lm new1) as S.
    destruct (Dict.get lm "iteration") as [it|].
    + destruct S as [Sg Se]. split; congruence.
    + rewrite S in Eg, Ee. split; congruence.
  - intros Ho Hs. unfold add_optimizer_state.
    rewrite optimizer_block_absent by assumption. simpl.
    unfold scheduler_block, Dict.mem. name_keys. now rewrite Hs.
Qed.

Lemma new_param_groups_missing (new : Dict.t value) :
  Dict.get new "optimizer_states" = None ->
  new_param_groups new = Raise (KeyError "optimizer_states").
Proof.
  unfold new_param_groups, Dict.lookup. now intros ->.
Qed.

(** With an [optimizer] key in the source and no [optimizer_states] entry in
    the target, the scheduler block cannot return. *)
Lemma scheduler_block_needs_states lm new :
  Dict.mem lm "lr_scheduler" = true ->
  Dict.mem lm "optimizer" = true ->
  Dict.get new "optimizer_states" = None ->
  is_ok (scheduler_block float_floordiv lm new) = false.
Proof.
  intros Hs Ho Hn. unfold scheduler_block. name_keys. rewrite Hs, Ho.
  rewrite (new_param_groups_missing _ Hn).
  repeat match goal with
         | |- is_ok (bind ?m _) = false => destruct m; simpl; [|reflexivity]
         end.
  reflexivity.
Qed.

Lemma floordiv_int n g :
  g <> 0 -> Py.floordiv float_floordiv (VInt n) (VInt g) = Ok (VInt (n / g)).
Proof.
  intros Hg. unfold Py.floordiv. simpl.
  destruct (g =? 0) eqn:E; [apply Z.eqb_eq in E; contradiction | reflexivity].
Qed.

(** [int(sched[field]) // gbs] on ints. *)
Lemma steps_in_batches_int sched field n g :
  Dict.get sched field = Some (VInt n) -> g <> 0 ->
  steps_in_batches float_floordiv (VDict sched) field (VInt g) = Ok (VInt (n / g)).
Proof.
  intros Hf Hg. unfold steps_in_batches, Py.getitem, Dict.lookup. rewrite Hf. simpl.
  now apply floordiv_int.
Qed.

(** [int(sched[field]) // gbs] on whatever [int] reads. *)
Lemma steps_in_batches_read sched field raw n g :
  Dict.get sched field = Some raw -> Py.int raw = Ok n -> g <> 0 ->
  steps_in_batches float_floordiv (VDict sched) field (VInt g) = Ok (VInt (n / g)).
Proof.
  intros Hf Hint Hg. unfold steps_in_batches, Py.getitem, Dict.lookup. rewrite Hf.
  cbn [bind]. rewrite Hint. cbn [bind]. now apply floordiv_int.
Qed.

(** C10: an [optimizer] section without the nested optimizer state, a
    scheduler section and no [optimizer_states] entry in the target: the
    adapter never returns, and once the step counts of the scheduler have
    been read it is the lookup of [optimizer_states], made to derive the base
    learning rates, that raises [KeyError]; the fallback to [max_lr] is not
    taken. *)
Theorem C10_flat_optimizer_section_raises_key_error
    (lm new : Dict.t value) (amp : bool) (section : Dict.t value) :
  Dict.get lm "optimizer" = Some (VDict section) ->
  Dict.mem section "optimizer" = false ->
  Dict.mem lm "lr_scheduler" = true ->
  Dict.get new "optimizer_states" = None ->
  is_ok (add_optimizer_state float_floordiv lm new amp) = false /\
  (forall attrs g sched d w m,
      Dict.get lm "args" = Some (VNamespace attrs) ->
      Dict.get attrs "global_batch_size" = Some (VInt g) -> g <> 0 ->
      Dict.get lm "lr_scheduler" = Some (VDict sched) ->
      Dict.get sched "decay_steps" = Some (VInt d) ->
      Dict.get sched "warmup_steps" = Some (VInt w) ->
      Dict.get sched "min_lr" = Some m ->
      add_optimizer_state float_floordiv lm new amp = Raise (KeyError "optimizer_states")).
Proof.
  intros Ho Hflat Hs Hn.
  assert (Hstates : Dict.get (step_block lm new) "optimizer_states" = None).
  { unfold step_block. name_keys. destruct (Dict.get lm "iteration"); [|exact Hn].
    rewrite !dict_get_set_other by congruence. exact Hn. }
  assert (Hmem : Dict.mem lm "optimizer" = true) by (unfold Dict.mem; now rewrite Ho).
  unfold add_optimizer_state.
  rewrite (optimizer_block_not_nested _ _ _ _ Ho Hflat). simpl.
  split.
  - now apply scheduler_block_needs_states.
  - intros attrs g sched d w m Ha Hg Hg0 Hsched Hd Hw Hm.
    unfold scheduler_block. name_keys. rewrite Hs, Hmem.
    unfold Dict.lookup. rewrite Ha, Hsched. simpl. rewrite Hg. simpl.
    rewrite !(steps_in_batches_int _ _ _ _ Hd Hg0), !(steps_in_batches_int _ _ _ _ Hw Hg0).
    unfold Dict.lookup. rewrite Hw, Hm. simpl.
    rewrite (floordiv_int _ _ Hg0). simpl.
    now rewrite (new_param_groups_missing _ Hstates).
Qed.

Lemma scheduler_block_needs_batch_size lm new :
  Dict.mem lm "lr_scheduler" = true ->
  batch_size_absent lm ->
  is_ok (scheduler_block float_floordiv lm new) = false.
Proof.
  intros Hs Habs. unfold scheduler_block. name_keys. rewrite Hs.
  unfold Dict.lookup.
  destruct Habs as [Ha | (attrs & Ha & Hg)]; rewrite Ha; simpl; [reflexivity|].
  now rewrite Hg.
Qed.

(** X28: with a scheduler section in the source and an int batch size, every
    target the adapter returns holds a scheduler section whose [decay_steps],
    [warmup_steps], [last_epoch] and [_step_count] are the source step
    counts, truncated to ints by [int], floor-divided by the global batch
    size; its [max_steps] is the sum of the first of them and of the
    warm-up as the source stores it, not truncated, floor-divided by the
    batch size: the int [d // g + w // g] when the source stores an int.
    The adapter does return when the batch size is not zero, the source has
    no optimizer section and that sum exists; and it raises when the global
    batch size is absent. *)
Theorem add_optimizer_state_scheduler_steps
    (lm new : Dict.t value) (amp : bool) :
  Dict.mem lm "lr_scheduler" = true ->
  (forall sched attrs g rd rw rn d w n,
      Dict.get lm "lr_scheduler" = Some (VDict sched) ->
      Dict.get lm "args" = Some (VNamespace attrs) ->
      Dict.get attrs "global_batch_size" = Some (VInt g) ->
      Dict.get sched "decay_steps" = Some rd -> Py.int rd = Ok d ->
      Dict.get sched "warmup_steps" = Some rw -> Py.int rw = Ok w ->
      Dict.get sched "num_steps" = Some rn -> Py.int rn = Ok n ->
      (forall new', add_optimizer_state float_floordiv lm new amp = Ok new' ->
         exists content quotient total,
           Dict.get new' "lr_schedulers" = Some (VList [VDict content]) /\
           Dict.get content "decay_steps" = Some (VInt (d / g)) /\
           Dict.get content "warmup_steps" = Some (VInt (w / g)) /\
           Dict.get content "last_epoch" = Some (VInt (n / g)) /\
           Dict.get content "_step_count" = Some (VInt (n / g)) /\
           Py.floordiv float_floordiv rw (VInt g) = Ok quotient /\
           Py.add (VInt (d / g)) quotient = Ok total /\
           Dict.get content "max_steps" = Some total /\
           (rw = VInt w -> total = VInt (d / g + w / g))) /\
      (g <> 0 -> Dict.get lm "optimizer" = None ->
       forall quotient total lo hi,
         Py.floordiv float_floordiv rw (VInt g) = Ok quotient ->
         Py.add (VInt (d / g)) quotient = Ok total ->
         Dict.get sched "min_lr" = Some lo -> Dict.get sched "max_lr" = Some hi ->
         exists new', add_optimizer_state float_floordiv lm new amp = Ok new')) /\
  (batch_size_absent lm ->
   is_ok (add_optimizer_state float_floordiv lm new amp) = false).
Proof.
  intros Hs. split.
  - intros sched attrs g rd rw rn d w n Hsched Ha Hg Hd Hdi Hw Hwi Hn Hni. split.
    + intros new' H. unfold add_optimizer_state in H.
      apply bind_ok_inv in H. destruct H as (new1 & _ & H).
      unfold scheduler_block in H. name_keys. rewrite Hs in H.
      unfold Dict.lookup in H. rewrite Ha, Hsched in H. simpl in H. rewrite Hg in H.
      simpl in H.
      destruct (Z.eq_dec g 0) as [-> | Hg0].
      { unfold steps_in_batches, Py.getitem, Dict.lookup in H. rewrite Hd in H.
        cbn [bind] in H. rewrite Hdi in H. simpl in H. discriminate. }
      rewrite !(steps_in_batches_read _ _ _ _ _ Hd Hdi Hg0),
        !(steps_in_batches_read _ _ _ _ _ Hw Hwi Hg0),
        !(steps_in_batches_read _ _ _ _ _ Hn Hni Hg0) in H.
      unfold Dict.lookup in H. rewrite Hw in H. cbn [bind] in H.
      destruct (Py.floordiv float_floordiv rw (VInt g)) as [quotient|e] eqn:Eq;
        cbn [bind] in H; [|discriminate].
      destruct (Py.add (VInt (d / g)) quotient) as [total|e] eqn:Et;
        cbn [bind] in H; [|discriminate].
      assert (Hint : rw = VInt w -> total = VInt (d / g + w / g)).
      { intros ->. rewrite (floordiv_int _ _ Hg0) in Eq. inversion Eq. subst quotient.
        simpl in Et. now inversion Et. }
      destruct (Dict.get sched "min_lr") as [lo|]; simpl in H; [|discriminate].
      destruct (Dict.mem lm "optimizer").
      * repeat match goal with
               | H' : bind ?m _ = Ok _ |- _ =>
                   apply bind_ok_inv in H'; destruct H' as (? & ? & H')
               end.
        repeat match goal with
               | H' : Ok _ = Ok _ |- _ => inversion H'; clear H'; subst
               end.
        eexists. exists quotient, total. split; [apply dict_get_set_same|].
        repeat split; solve [reflexivity | assumption].
      * destruct (Dict.get sched "max_lr") as [hi|]; simpl in H; [|discriminate].
        inversion H; subst.
        eexists. exists quotient, total. split; [apply dict_get_set_same|].
        repeat split; solve [reflexivity | assumption].
    + intros Hg0 Ho quotient total lo hi Eq Et Hlo Hhi. unfold add_optimizer_state.
      rewrite (optimizer_block_absent _ _ _ Ho). simpl.
      unfold scheduler_block. name_keys. rewrite Hs.
      unfold Dict.lookup, Dict.mem. rewrite Ha, Hsched, Ho. simpl. rewrite Hg. simpl.
      rewrite !(steps_in_batches_read _ _ _ _ _ Hd Hdi Hg0),
        !(steps_in_batches_read _ _ _ _ _ Hw Hwi Hg0),
        !(steps_in_batches_read _ _ _ _ _ Hn Hni Hg0).
      unfold Dict.lookup. rewrite Hw. cbn [bind]. rewrite Eq. cbn [bind]. rewrite Et.
      cbn [bind]. rewrite Hlo, Hhi. simpl. eauto.
  - intros Habs. unfold add_optimizer_state.
    destruct (optimizer_block lm new amp) as [new1|e]; simpl; [|reflexivity].
    now apply scheduler_block_needs_batch_size.
Qed.

End OptimizerState.

(** Witness of C8 on the sample checkpoint that has an iteration counter. *)
Lemma C8_step_copied_witness :
  exists new',
    Megatron.add_optimizer_state Instances.floor_quotient Samples.checkpoint_plain [] true
    = Ok new' /\
    Dict.get new' "global_step" = Some (VInt 500) /\
    Dict.get new' "epoch" = Some (VInt 1).
Proof.
  eexists. split; [vm_compute; reflexivity|].
  exact (proj1 (C8_step_copied_epoch_only_with_iteration
                  Instances.floor_quotient Samples.checkpoint_plain [] true) _ eq_refl).
Defined.

(** C8, counterexample to "epoch is always set to 1": a source checkpoint
    without an iteration counter leaves the target without an epoch. *)
Lemma C8_epoch_missing_without_iteration :
  exists new',
    Megatron.add_optimizer_state Instances.floor_quotient Samples.checkpoint_weights_only [] true
    = Ok new' /\
    Dict.get new' "epoch" = None.
Proof.
  eexists. split; [vm_compute; reflexivity | reflexivity].
Qed.

(** Witness of C10 on the sample checkpoint whose optimizer section is flat. *)
Lemma C10_flat_optimizer_witness :
  is_ok (Megatron.add_optimizer_state Instances.floor_quotient
           Samples.checkpoint_flat_optimizer [] true) = false /\
  Megatron.add_optimizer_state Instances.floor_quotient Samples.checkpoint_flat_optimizer [] true
  = Raise (KeyError "optimizer_states").
Proof.
  pose proof (C10_flat_optimizer_section_raises_key_error
                Instances.floor_quotient Samples.checkpoint_flat_optimizer [] true
                [("param_scheduler", VDict [])] eq_refl eq_refl eq_refl eq_refl) as [H1 H2].
  split; [exact H1|].
  apply H2 with (attrs := [("global_batch_size", VInt 64)]) (g := 64)
                (sched := [("max_lr", VFloat 0.5); ("min_lr", VFloat 0.125);
                           ("warmup_steps", VInt 3200); ("num_steps", VInt 64000);
                           ("decay_style", VStr "linear"); ("decay_steps", VInt 320000)])
                (d := 320000) (w := 3200) (m := VFloat 0.125);
    solve [reflexivity | discriminate].
Defined.


(** Witness of X28: the sample scheduler counts 320000, 3200 and 64000
    samples at 64 samples a batch with an optimizer section; step counts
    with fractional parts (320063.75, 3263.5 and 64063.5) without one,
    which [int] truncates before the division and where [max_steps] is a
    float; and the sample without a batch size. *)
Lemma add_optimizer_state_scheduler_steps_witness :
  (exists new',
      Megatron.add_optimizer_state Instances.floor_quotient Samples.checkpoint_full [] true
      = Ok new' /\
      exists content,
        Dict.get new' "lr_schedulers" = Some (VList [VDict content]) /\
        Dict.get content "decay_steps" = Some (VInt 5000) /\
        Dict.get content "warmup_steps" = Some (VInt 50) /\
        Dict.get content "last_epoch" = Some (VInt 1000) /\
        Dict.get content "_step_count" = Some (VInt 1000) /\
        Dict.get content "max_steps" = Some (VInt 5050)) /\
  (exists new',
      Megatron.add_optimizer_state Instances.floor_quotient Examples.checkpoint_fractions [] true
      = Ok new' /\
      exists content,
        Dict.get new' "lr_schedulers" = Some (VList [VDict content]) /\
        Dict.get content "decay_steps" = Some (VInt 5000) /\
        Dict.get content "warmup_steps" = Some (VInt 50) /\
        Dict.get content "last_epoch" = Some (VInt 1000) /\
        Dict.get content "_step_count" = Some (VInt 1000) /\
        Dict.get content "max_steps" = Some (VFloat 5050)) /\
  is_ok (Megatron.add_optimizer_state Instances.floor_quotient
           Samples.checkpoint_no_batch_size [] true) = false.
Proof.
  split; [|split].
  - destruct (add_optimizer_state_scheduler_steps
                Instances.floor_quotient Samples.checkpoint_full [] true eq_refl) as [H _].
    destruct (H [("max_lr", VFloat 0.5); ("min_lr", VFloat 0.125);
                 ("warmup_steps", VInt 3200); ("num_steps", VInt 64000);
                 ("decay_style", VStr "linear"); ("decay_steps", VInt 320000)]
                [("global_batch_size", VInt 64)] 64
                (VInt 320000) (VInt 3200) (VInt 64000) 320000 3200 64000
                eq_refl eq_refl eq_refl eq_refl eq_refl eq_refl eq_refl eq_refl eq_refl)
      as [Hfields _].
    eexists. split; [vm_compute; reflexivity|].
    destruct (Hfields _ eq_refl)
      as (content & quotient & total & Hc & Hd & Hw & Hl & Hsc & _ & _ & Hm & Hint).
    exists content. rewrite (Hint eq_refl) in Hm. repeat split; assumption.
  - destruct (add_optimizer_state_scheduler_steps
                Instances.floor_quotient Examples.checkpoint_fractions [] true eq_refl)
      as [H _].
    destruct (H Examples.scheduler_fractions
                [("global_batch_size", VInt 64)] 64
                (VFloat 320063.75) (VFloat 3263.5) (VFloat 64063.5) 320063 3263 64063
                eq_refl eq_refl eq_refl eq_refl eq_refl eq_refl eq_refl eq_refl eq_refl)
      as [Hfields Hruns].
    destruct (Hruns ltac:(discriminate) eq_refl (VFloat 50) (VFloat 5050)
                (VFloat 0.125) (VFloat 0.5) eq_refl eq_refl eq_refl eq_refl)
      as [new' Hnew].
    exists new'. split; [exact Hnew|].
    destruct (Hfields new' Hnew)
      as (content & quotient & total & Hc & Hd & Hw & Hl & Hsc & Hq & Ht & Hm & _).
    exists content.
    assert (Hq' : quotient = VFloat 50) by (vm_compute in Hq; congruence).
    rewrite Hq' in Ht.
    assert (Ht' : total = VFloat 5050) by (vm_compute in Ht; congruence).
    rewrite Ht' in Hm. repeat split; assumption.
  - apply (proj2 (add_optimizer_state_scheduler_steps
                    Instances.floor_quotient Samples.checkpoint_no_batch_size [] true eq_refl)).
    right. exists []. split; reflexivity.
Defined.

(** ** The cached-score loop, window by window *)

Section CachedLoop.
Import Reranker.

Variable float_pow : float -> float -> result float.
Variable float_of_string : string -> result float.
Variable args : Args.

Local Abbreviation loop := (cached_loop float_pow float_of_string args).
Local Abbreviation window := (rerank_window float_pow float_of_string args).

(** Lines that do not complete the window are only collected. *)
Lemma cached_loop_fill (w rest : list string) (buf : list (list string))
    (out : list string) (count : Z) :
  Z.of_nat (List.length buf) + Z.of_nat (List.length w) < beam_size args ->
  loop (w ++ rest)%list buf out count = loop rest (buf ++ map fields w)%list out count.
Proof.
  revert buf. induction w as [|line w IH]; intros buf Hlen; simpl.
  - now rewrite app_nil_r.
  - simpl in Hlen.
    replace (Z.of_nat (List.length (buf ++ [fields line])) =? beam_size args) with false.
    + rewrite IH.
      * now rewrite <- app_assoc.
      * rewrite length_app. simpl. lia.
    + symmetry. apply Z.eqb_neq. rewrite length_app. simpl. lia.
Qed.

(** The line that completes a window has it reranked. *)
Lemma cached_loop_full (w rest : list string) (out : list string) (count : Z) :
  Z.of_nat (List.length w) = beam_size args ->
  w <> [] ->
  loop (w ++ rest)%list [] out count =
  bind (window (map fields w)) (fun best => loop rest [] (out ++ [best])%list (count + 1)).
Proof.
  intros Hlen Hne.
  destruct (exists_last Hne) as (w' & line & ->).
  rewrite length_app in Hlen. simpl in Hlen.
  rewrite <- app_assoc. rewrite cached_loop_fill by (simpl; lia).
  simpl.
  replace (Z.of_nat (List.length (map fields w' ++ [fields line])) =? beam_size args) with true.
  - now rewrite map_app.
  - symmetry. apply Z.eqb_eq. rewrite length_app, length_map. simpl. lia.
Qed.

(** Fewer lines than a window select nothing and raise nothing. *)
Lemma cached_loop_tail (tail : list string) (out : list string) (count : Z) :
  Z.of_nat (List.length tail) < beam_size args ->
  loop tail [] out count = Ok out.
Proof.
  intros Hlen. rewrite <- (app_nil_r tail).
  rewrite cached_loop_fill by (simpl; lia). reflexivity.
Qed.

(** The loop over a file made of full windows and a shorter tail. *)
Lemma cached_loop_windows (ws : list (list string)) (tail : list string)
    (out : list string) (count : Z) :
  Forall (fun w => Z.of_nat (List.length w) = beam_size args /\ w <> []) ws ->
  Z.of_nat (List.length tail) < beam_size args ->
  loop (List.concat ws ++ tail)%list [] out count =
  bind (Megatron.comprehension (fun w => window (map fields w)) ws)
       (fun bests => Ok (out ++ bests)%list).
Proof.
  intros Hws Htail. revert out count.
  induction Hws as [|w ws [Hw Hne] _ IH]; intros out count; simpl.
  - rewrite cached_loop_tail by assumption. now rewrite app_nil_r.
  - rewrite <- app_assoc. rewrite cached_loop_full by assumption.
    destruct (window (map fields w)) as [best|e]; simpl; [|reflexivity].
    rewrite IH.
    destruct (Megatron.comprehension _ ws) as [bests|e]; simpl; [|reflexivity].
    now rewrite <- app_assoc.
Qed.

(** [rerank_cached] on full windows and a shorter tail: one selection per
    window, in order. *)
Lemma rerank_cached_windows (ws : list (list string)) (tail : list string) :
  Forall (fun w => Z.of_nat (List.length w) = beam_size args /\ w <> []) ws ->
  Z.of_nat (List.length tail) < beam_size args ->
  rerank_cached float_pow float_of_string args (List.concat ws ++ tail)%list =
  Megatron.comprehension (fun w => window (map fields w)) ws.
Proof.
  intros Hws Htail. unfold rerank_cached.
  rewrite cached_loop_windows by assumption.
  destruct (Megatron.comprehension _ ws); reflexivity.
Qed.

(** A window with a record that has not exactly seven fields is refused. *)
Lemma rerank_window_field_count (src_text : list (list string)) :
  Exists (fun item => List.length item <> 7%nat) src_text ->
  window src_text = Raise (IndexError FIELDS_MESSAGE).
Proof.
  intros Hex. unfold rerank_window.
  replace (forallb (fun item => Nat.eqb (List.length item) 7) src_text) with false;
    [reflexivity|].
  symmetry. apply not_true_is_false. intros Hall.
  rewrite forallb_forall in Hall. apply Exists_exists in Hex.
  destruct Hex as (item & Hin & Hlen). apply Hall in Hin.
  apply Nat.eqb_eq in Hin. contradiction.
Qed.

Lemma comprehension_app {A B : Type} (f : A -> result B) (l1 l2 : list A) :
  Megatron.comprehension f (l1 ++ l2)%list =
  bind (Megatron.comprehension f l1) (fun ys1 =>
  bind (Megatron.comprehension f l2) (fun ys2 => Ok (ys1 ++ ys2)%list)).
Proof.
  induction l1 as [|x l1 IH]; simpl.
  - destruct (Megatron.comprehension f l2); reflexivity.
  - destruct (f x); simpl; [|reflexivity]. rewrite IH.
    destruct (Megatron.comprehension f l1); simpl; [|reflexivity].
    destruct (Megatron.comprehension f l2); reflexivity.
Qed.

End CachedLoop.

(** ** main on a cached score file *)

Section MainCached.
Import Reranker.

Variable float_pow : float -> float -> result float.
Variable float_of_string : string -> result float.
Variable world : World.
Variable srctext_rerank : Args -> io (list string).
Variable write_scores_file : Args -> io unit.

Local Abbreviation run := (main float_pow float_of_string world srctext_rerank write_scores_file).

(** In cached mode the file is read, and the selections are written only
    when the loop over its lines returns. *)
Lemma main_cached (args : Args) (path : string) (lines : list string) :
  cached_mode args path ->
  read_lines world path = Ok lines ->
  run args =
  match rerank_cached float_pow float_of_string args lines with
  | Ok tgt_text =>
      ([ReadFile path; WriteFile (tgtout args) tgt_text],
       write_lines world (tgtout args) tgt_text)
  | Raise e => ([ReadFile path], Raise e)
  end.
Proof.
  intros (Hc & Hs & Hw & Hr & Hl) Hread.
  unfold main, load_models, check_inputs, check_cached_args, cached_rerank.
  rewrite Hc, Hs, Hw, Hr, Hl. simpl. rewrite Hread. simpl.
  destruct (rerank_cached float_pow float_of_string args lines) as [tgt_text|e]; simpl;
    [|reflexivity].
  destruct (write_lines world (tgtout args) tgt_text) as [[]|e]; reflexivity.
Qed.

Lemma comprehension_all_ok {A B : Type} (f : A -> result B) (l : list A) :
  (forall x, In x l -> is_ok (f x) = true) ->
  exists ys, Megatron.comprehension f l = Ok ys.
Proof.
  induction l as [|x l IH]; intros Hall; simpl.
  - eauto.
  - pose proof (Hall x (or_introl eq_refl)) as Hx.
    destruct (f x) as [y|e]; [|discriminate]. simpl.
    destruct IH as [ys ->]; [intros z Hz; apply Hall; now right|]. simpl. eauto.
Qed.

(** C5 (as amended): on a cached score file made of full windows of
    [beam_size] lines and a shorter tail, the tail changes nothing (it raises
    nothing and selects nothing); and when a full window, the windows before
    it reranked, holds a record that has not exactly seven fields, the run
    ends with the [IndexError] of line 267 after reading the file, with no
    output written. *)
Theorem C5_full_windows_checked_tail_ignored
    (args : Args) (path : string) (ws : list (list string)) (tail : list string) :
  cached_mode args path ->
  read_lines world path = Ok (List.concat ws ++ tail)%list ->
  Forall (fun w => Z.of_nat (List.length w) = beam_size args /\ w <> []) ws ->
  Z.of_nat (List.length tail) < beam_size args ->
  rerank_cached float_pow float_of_string args (List.concat ws ++ tail)%list =
  rerank_cached float_pow float_of_string args (List.concat ws) /\
  (forall ws1 w ws2,
      ws = (ws1 ++ w :: ws2)%list ->
      (forall w', In w' ws1 ->
                  is_ok (rerank_window float_pow float_of_string args (map fields w')) = true) ->
      Exists (fun line => List.length (fields line) <> 7%nat) w ->
      run args = ([ReadFile path], Raise (IndexError FIELDS_MESSAGE))).
Proof.
  intros Hmode Hread Hws Htail.
  assert (H0 : 0 < beam_size args) by lia.
  split.
  - rewrite rerank_cached_windows by assumption.
    rewrite <- (app_nil_r (List.concat ws)) at 1.
    rewrite rerank_cached_windows; [reflexivity | assumption | simpl; lia].
  - intros ws1 w ws2 -> Hok Hbad.
    rewrite (main_cached args path _ Hmode Hread).
    rewrite rerank_cached_windows by assumption.
    rewrite comprehension_app.
    destruct (comprehension_all_ok _ ws1 Hok) as [ys ->]. simpl.
    rewrite rerank_window_field_count; [reflexivity|].
    apply Exists_exists in Hbad. destruct Hbad as (line & Hin & Hlen).
    apply Exists_exists. exists (fields line). split; [now apply in_map | exact Hlen].
Qed.

End MainCached.

(** ** main: the checks on the input flags *)

Section MainChecks.
Import Reranker.

Variable float_pow : float -> float -> result float.
Variable float_of_string : string -> result float.
Variable world : World.
Variable srctext_rerank : Args -> io (list string).
Variable write_scores_file : Args -> io unit.

Local Abbreviation run := (main float_pow float_of_string world srctext_rerank write_scores_file).

Lemma restore_reverse_trace (paths : list string) :
  forallb is_restore (fst (restore_reverse world paths)) = true.
Proof.
  induction paths as [|p paths IH]; simpl; [reflexivity|].
  destruct (PyStr.endswith p ".nemo"); [|reflexivity].
  unfold restore, emit, bind_io.
  destruct (restore_from world (Some p)) as [[]|e]; [|reflexivity].
  destruct (restore_reverse world paths) as [t r]. simpl in *. exact IH.
Qed.

Lemma load_models_trace (args : Args) :
  forallb is_restore (fst (load_models world args)) = true.
Proof.
  unfold load_models.
  destruct (cached_score_file args); [reflexivity|].
  destruct (reverse_model args) as [paths|]; [|reflexivity].
  pose proof (restore_reverse_trace (PyStr.split "," paths)) as Ht.
  unfold bind_io. destruct (restore_reverse world (PyStr.split "," paths)) as [t [[]|e]];
    simpl in *; [|exact Ht].
  unfold restore, emit. rewrite forallb_app, Ht. reflexivity.
Qed.

Lemma restore_reverse_all_ok (paths : list string) :
  Forall (fun p => PyStr.endswith p ".nemo" = true /\ restore_from world (Some p) = Ok tt) paths ->
  restore_reverse world paths = (map (fun p => RestoreModel (Some p)) paths, Ok tt).
Proof.
  induction 1 as [|p paths [Hext Hok] _ IH]; simpl; [reflexivity|].
  rewrite Hext. unfold restore, emit, bind_io. rewrite Hok, IH. reflexivity.
Qed.

(** Without either input flag, main is the loading of the models followed
    by the failing check. *)
Lemma main_neither (args : Args) :
  srctext args = None -> cached_score_file args = None ->
  run args =
  match load_models world args with
  | (t, Ok _) => (t, Raise (ValueError NEITHER_MESSAGE))
  | (t, Raise e) => (t, Raise e)
  end.
Proof.
  intros Hs Hc. unfold main, check_inputs. rewrite Hs, Hc.
  destruct (load_models world args) as [t [[]|e]]; simpl; [|reflexivity].
  now rewrite app_nil_r.
Qed.

(** C9 (as amended): with both [--srctext] and [--cached_score_file] the
    run raises the [ValueError] of line 172 before any file or model I/O;
    with neither, the run always fails and touches no file, but it first
    restores the reverse models and the language model, and raises the
    [ValueError] of line 175 once they have all been restored. *)
Theorem C9_both_flags_fail_first_neither_after_models (args : Args) :
  (forall s c, srctext args = Some s -> cached_score_file args = Some c ->
               run args = ([], Raise (ValueError BOTH_MESSAGE))) /\
  (srctext args = None -> cached_score_file args = None ->
   is_ok (snd (run args)) = false /\
   forallb is_restore (fst (run args)) = true /\
   (forall paths,
       reverse_model args = Some paths ->
       Forall (fun p => PyStr.endswith p ".nemo" = true /\ restore_from world (Some p) = Ok tt)
              (PyStr.split "," paths) ->
       restore_from world (language_model args) = Ok tt ->
       run args =
       ((map (fun p => RestoreModel (Some p)) (PyStr.split "," paths)
           ++ [RestoreModel (language_model args)])%list,
        Raise (ValueError NEITHER_MESSAGE)))).
Proof.
  split.
  - intros s c Hs Hc. unfold main, load_models, check_inputs. rewrite Hs, Hc. reflexivity.
  - intros Hs Hc. rewrite (main_neither args Hs Hc).
    pose proof (load_models_trace args) as Ht.
    split; [|split].
    + destruct (load_models world args) as [t [[]|e]]; reflexivity.
    + destruct (load_models world args) as [t [[]|e]]; exact Ht.
    + intros paths Hr Hall Hlm. unfold load_models. rewrite Hc, Hr.
      rewrite (restore_reverse_all_ok _ Hall). unfold restore, emit, bind_io.
      rewrite Hlm. reflexivity.
Qed.

End MainChecks.

(** Witness of C9: both flags given; and neither, with one reverse model
    and a language model that restore. *)
Lemma C9_flag_checks_witness :
  Reranker.main Instances.pow_exact Instances.float_of_decimal Samples.world
    Samples.no_srctext_rerank Samples.no_write_scores_file Samples.both_inputs_args
  = ([], Raise (ValueError Reranker.BOTH_MESSAGE)) /\
  forallb Reranker.is_restore
    (fst (Reranker.main Instances.pow_exact Instances.float_of_decimal Samples.world
            Samples.no_srctext_rerank Samples.no_write_scores_file Samples.no_input_args))
  = true.
Proof.
  split.
  - exact (proj1 (C9_both_flags_fail_first_neither_after_models
                    Instances.pow_exact Instances.float_of_decimal Samples.world
                    Samples.no_srctext_rerank Samples.no_write_scores_file
                    Samples.both_inputs_args) "beams.tsv" "scores.tsv" eq_refl eq_refl).
  - exact (proj1 (proj2 (proj2 (C9_both_flags_fail_first_neither_after_models
                    Instances.pow_exact Instances.float_of_decimal Samples.world
                    Samples.no_srctext_rerank Samples.no_write_scores_file
                    Samples.no_input_args) eq_refl eq_refl))).
Defined.

(** C9, counterexample to "neither flag fails before any model I/O": the
    reverse model and the language model are restored before the error. *)
Lemma C9_models_restored_before_neither_error :
  Reranker.main Instances.pow_exact Instances.float_of_decimal Samples.world
    Samples.no_srctext_rerank Samples.no_write_scores_file Samples.no_input_args
  = ([Reranker.RestoreModel (Some "rev.nemo"); Reranker.RestoreModel (Some "lm.nemo")],
     Raise (ValueError Reranker.NEITHER_MESSAGE)).
Proof.
  vm_compute. reflexivity.
Qed.

(** Witness of C5: two lines, beams of two, the second line with six fields. *)
Lemma C5_short_record_witness :
  Reranker.main Instances.pow_exact Instances.float_of_decimal Samples.world_short
    Samples.no_srctext_rerank Samples.no_write_scores_file Samples.cached_args
  = ([Reranker.ReadFile "scores.tsv"], Raise (IndexError Reranker.FIELDS_MESSAGE)).
Proof.
  refine (proj2 (C5_full_windows_checked_tail_ignored
                   Instances.pow_exact Instances.float_of_decimal Samples.world_short
                   Samples.no_srctext_rerank Samples.no_write_scores_file
                   Samples.cached_args "scores.tsv" [Samples.short_record] []
                   _ eq_refl _ eq_refl)
                [] Samples.short_record [] eq_refl _ _).
  - repeat split.
  - constructor; [split; [reflexivity | discriminate] | constructor].
  - intros w' [].
  - apply Exists_cons_tl. apply Exists_cons_hd. vm_compute. discriminate.
Defined.

(** C5, counterexample to "a line count not divisible by beam_size fails":
    three well-formed lines with beams of two are reranked without an error;
    the window of the first two lines gives the one selection and the third
    line is dropped. *)
Lemma C5_indivisible_line_count_accepted :
  Reranker.main Instances.pow_exact Instances.float_of_decimal Samples.world
    Samples.no_srctext_rerank Samples.no_write_scores_file Samples.cached_args
  = ([Reranker.ReadFile "scores.tsv"; Reranker.WriteFile "out.txt" ["second"]], Ok tt).
Proof.
  vm_compute. reflexivity.
Qed.

(** ** Strided views made contiguous *)

Section StridedIndexing.
Import Tensor.

Lemma flat_map_seq_length {B : Type} (f : nat -> list B) (m n a : nat) :
  (forall j, (a <= j < a + n)%nat -> List.length (f j) = m) ->
  List.length (flat_map f (seq a n)) = (n * m)%nat.
Proof.
  revert a. induction n as [|n IH]; intros a Hlen; simpl; [reflexivity|].
  rewrite length_app, Hlen by lia. rewrite IH; [reflexivity|].
  intros j Hj. apply Hlen. lia.
Qed.

Lemma flat_map_seq_nth {B : Type} (f : nat -> list B) (m n a i k : nat) :
  (forall j, (a <= j < a + n)%nat -> List.length (f j) = m) ->
  (i < n)%nat -> (k < m)%nat ->
  nth_error (flat_map f (seq a n)) (i * m + k) = nth_error (f (a + i)%nat) k.
Proof.
  revert a i. induction n as [|n IH]; intros a i Hlen Hi Hk; [lia|]. simpl.
  destruct i as [|i].
  - simpl. rewrite Nat.add_0_r. apply nth_error_app1. rewrite Hlen by lia. exact Hk.
  - rewrite nth_error_app2 by (rewrite Hlen by lia; simpl; lia).
    rewrite Hlen by lia.
    replace (S i * m + k - m)%nat with (i * m + k)%nat by (simpl; lia).
    replace (a + S i)%nat with (S a + i)%nat by lia.
    apply IH; [|lia | exact Hk].
    intros j Hj. apply Hlen. lia.
Qed.

Lemma offsets_length (sz st : list nat) (off : nat) :
  List.length st = List.length sz ->
  List.length (offsets sz st off) = prod_nat sz.
Proof.
  revert st off. induction sz as [|n sz IH]; intros st off Hlen.
  - destruct st; [reflexivity | discriminate].
  - destruct st as [|s st]; [discriminate|]. simpl in *.
    apply flat_map_seq_length. intros j _. apply IH. lia.
Qed.

(** The element at row-major position [ravel sz idx] of a strided view is
    read at storage offset [off + dot idx st]. *)
Lemma offsets_nth (sz st idx : list nat) (off : nat) :
  List.length st = List.length sz ->
  Forall2 lt idx sz ->
  nth_error (offsets sz st off) (ravel sz idx) = Some (off + dot idx st)%nat.
Proof.
  intros Hlen Hidx. revert st off Hlen.
  induction Hidx as [|i n idx sz Hi _ IH]; intros st off Hlen.
  - destruct st; [|discriminate]. simpl. now rewrite Nat.add_0_r.
  - destruct st as [|s st]; [discriminate|]. simpl in *.
    assert (Hr : (ravel sz idx < prod_nat sz)%nat).
    { rewrite <- (offsets_length sz st O) by lia.
      apply nth_error_Some. rewrite IH by lia. discriminate. }
    rewrite flat_map_seq_nth with (m := prod_nat sz); try assumption.
    + simpl. rewrite IH by lia. f_equal. lia.
    + intros j _. apply offsets_length. lia.
Qed.

Lemma offsets_bound (sz st : list nat) (off N : nat) :
  List.length st = List.length sz ->
  (forall idx, Forall2 lt idx sz -> (off + dot idx st < N)%nat) ->
  Forall (fun o => (o < N)%nat) (offsets sz st off).
Proof.
  revert st off. induction sz as [|n sz IH]; intros st off Hlen Hall.
  - destruct st; [|discriminate]. simpl. constructor; [|constructor].
    specialize (Hall [] (Forall2_nil _)). simpl in Hall. lia.
  - destruct st as [|s st]; [discriminate|]. simpl in *.
    apply Forall_flat_map. apply Forall_forall. intros i Hi.
    apply in_seq in Hi. apply IH; [lia|].
    intros idx Hidx. specialize (Hall (i :: idx)). simpl in Hall.
    rewrite <- Nat.add_assoc. apply Hall. constructor; [lia | exact Hidx].
Qed.

Lemma flat_map_fetch_nth {B : Type} (l : list B) (offs : list nat) (k : nat) :
  Forall (fun o => (o < List.length l)%nat) offs ->
  nth_error (flat_map (fetch l) offs) k =
  match nth_error offs k with
  | Some o => nth_error l o
  | None => None
  end.
Proof.
  intros Hall. revert k. induction Hall as [|o offs Ho _ IH]; intros k; simpl.
  - now destruct k.
  - unfold fetch at 1. destruct (nth_error l o) as [x|] eqn:E.
    + destruct k as [|k]; simpl; [now rewrite E | apply IH].
    + apply nth_error_None in E. lia.
Qed.

(** Reading a contiguous copy of a strided view whose offsets all fall
    inside the storage. *)
Lemma contiguous_nth {B : Type} (sz st idx : list nat) (l : list B) :
  List.length st = List.length sz ->
  (forall idx', Forall2 lt idx' sz -> (dot idx' st < List.length l)%nat) ->
  Forall2 lt idx sz ->
  nth_error (data (contiguous (mkStrided sz st l))) (ravel sz idx) = nth_error l (dot idx st).
Proof.
  intros Hlen Hall Hidx. unfold contiguous. simpl.
  rewrite flat_map_fetch_nth by (apply offsets_bound; [exact Hlen | exact Hall]).
  now rewrite offsets_nth by assumption.
Qed.

End StridedIndexing.

(** ** Shape inference of view *)

Section ViewShapes.
Import Tensor.

Lemma prod_Z_of_nat (l : list nat) : prod_Z (map Z.of_nat l) = Z.of_nat (prod_nat l).
Proof.
  induction l as [|x l IH]; [reflexivity|].
  change (Z.of_nat x * prod_Z (map Z.of_nat l) = Z.of_nat (x * prod_nat l)).
  rewrite IH. lia.
Qed.

Lemma prod_Z_app (l1 l2 : list Z) : prod_Z (l1 ++ l2) = prod_Z l1 * prod_Z l2.
Proof.
  induction l1 as [|x l1 IH].
  - change (prod_Z l2 = 1 * prod_Z l2). lia.
  - change (x * prod_Z (l1 ++ l2) = x * prod_Z l1 * prod_Z l2). rewrite IH. lia.
Qed.

Lemma sizes_not_below (l : list nat) :
  existsb (fun d => d <? -1) (map Z.of_nat l) = false.
Proof.
  induction l as [|x l IH]; simpl; [reflexivity|]. rewrite IH.
  replace (Z.of_nat x <? -1) with false; [reflexivity|]. symmetry. apply Z.ltb_ge. lia.
Qed.

Lemma sizes_known (l : list nat) :
  filter (fun d => negb (d =? -1)) (map Z.of_nat l) = map Z.of_nat l.
Proof.
  induction l as [|x l IH]; simpl; [reflexivity|]. rewrite IH.
  replace (Z.of_nat x =? -1) with false; [reflexivity|]. symmetry. apply Z.eqb_neq. lia.
Qed.

Lemma sizes_read_back (l : list nat) (hole : nat) :
  map (fun d => if d =? -1 then hole else Z.to_nat d) (map Z.of_nat l) = l.
Proof.
  induction l as [|x l IH]; simpl; [reflexivity|]. rewrite IH.
  replace (Z.of_nat x =? -1) with false by (symmetry; apply Z.eqb_neq; lia).
  now rewrite Nat2Z.id.
Qed.

(** A shape with one [-1] among sizes whose product is positive and divides
    the element count: the hole is the quotient. *)
Lemma infer_size_hole (pre post : list nat) (q : nat) (n : Z) :
  (0 < prod_nat pre * prod_nat post)%nat ->
  n = Z.of_nat (prod_nat pre * prod_nat post * q) ->
  infer_size (map Z.of_nat pre ++ -1 :: map Z.of_nat post) n = Ok (pre ++ q :: post)%list.
Proof.
  intros Hpos ->. unfold infer_size.
  rewrite existsb_app. simpl. rewrite !sizes_not_below. simpl.
  rewrite filter_app. simpl. rewrite !sizes_known.
  rewrite !length_app. simpl. rewrite !length_map.
  replace (List.length pre + S (List.length post) - (List.length pre + List.length post))%nat
    with 1%nat by lia.
  rewrite prod_Z_app, !prod_Z_of_nat.
  set (P := (prod_nat pre * prod_nat post)%nat) in *.
  replace (Z.of_nat (prod_nat pre) * Z.of_nat (prod_nat post)) with (Z.of_nat P) by (subst P; lia).
  replace (Z.of_nat (P * q)) with (Z.of_nat q * Z.of_nat P) by lia.
  rewrite Z.mod_mul by lia. rewrite Z.div_mul by lia.
  replace (0 <? Z.of_nat P) with true by (symmetry; apply Z.ltb_lt; lia).
  replace (Z.of_nat P =? 0) with false by (symmetry; apply Z.eqb_neq; lia).
  rewrite Z.eqb_refl, orb_true_r. simpl.
  rewrite map_app. simpl. rewrite !sizes_read_back, Nat2Z.id. reflexivity.
Qed.

End ViewShapes.

(** ** Attention-layout migration of one tensor *)

Section LayoutMigration.
Import Tensor Megatron.

Lemma radix_lt (i n r m : nat) : (i < n -> r < m -> i * m + r < n * m)%nat.
Proof. nia. Qed.

Ltac index_cases :=
  repeat match goal with
         | H : Forall2 _ _ (_ :: _) |- _ => inversion H; clear H; subst
         | H : Forall2 _ _ [] |- _ => inversion H; clear H; subst
         end.

(** Version 0, a tensor of two dimensions: sizes kept, rows regrouped from
    (3, heads, hn) to (heads, 3, hn). *)
Lemma migrate_v0_weight (h hn c : nat) (w : tensor) :
  wf w -> size w = [(3 * h * hn)%nat; c] -> (0 < h)%nat -> (0 < c)%nat ->
  exists w',
    migrate_v0 (Z.of_nat h) w = Ok w' /\
    size w' = [(3 * h * hn)%nat; c] /\
    forall i j k l, (i < 3)%nat -> (j < h)%nat -> (k < hn)%nat -> (l < c)%nat ->
      nth_error (data w') (((j * 3 + i) * hn + k) * c + l) =
      nth_error (data w) (((i * h + j) * hn + k) * c + l).
Proof.
  destruct w as [sz d]. unfold wf, numel. cbn [size data]. intros Hwf -> Hh Hc.
  unfold migrate_v0, rank, last_dim, view, numel. cbn [size data List.length Nat.eqb rev app bind].
  change [3; Z.of_nat h; -1; Z.of_nat c]
    with (map Z.of_nat [3%nat; h] ++ -1 :: map Z.of_nat [c])%list.
  rewrite (infer_size_hole [3%nat; h] [c] hn);
    [ | cbn [prod_nat fold_right]; nia | f_equal; cbn [prod_nat fold_right]; ring ].
  cbn [bind app]. unfold transpose, rank. cbn [size data List.length Nat.ltb Nat.leb andb bind].
  unfold contiguous.
  cbn [ssize sstride storage size data rev app bind swap swap_with nth Nat.eqb
       contiguous_strides].
  change [-1; Z.of_nat c] with (map Z.of_nat [] ++ -1 :: map Z.of_nat [c])%list.
  rewrite (infer_size_hole [] [c] (3 * h * hn)%nat);
    [ | cbn [prod_nat fold_right]; lia | f_equal; cbn [prod_nat fold_right]; ring ].
  cbn [bind app]. eexists. split; [reflexivity|]. split; [reflexivity|].
  intros i j k l Hi Hj Hk Hl. cbn [data prod_nat fold_right].
  pose proof (contiguous_nth [h; 3%nat; hn; c]
                [(hn * (c * 1))%nat; (h * (hn * (c * 1)))%nat; (c * 1)%nat; 1%nat]
                [j; i; k; l] d eq_refl) as Hnth.
  unfold contiguous in Hnth. cbn [ssize sstride storage data ravel dot prod_nat fold_right] in Hnth.
  replace (((j * 3 + i) * hn + k) * c + l)%nat
    with (j * (3 * (hn * (c * 1))) + (i * (hn * (c * 1)) + (k * (c * 1) + (l * 1 + 0))))%nat by ring.
  rewrite Hnth.
  - f_equal. ring.
  - intros idx' Hidx. index_cases. cbn [dot]. rewrite Hwf. cbn [prod_nat fold_right].
    match goal with
    | H1 : (?a < h)%nat, H2 : (?b < 3)%nat, H3 : (?e < hn)%nat, H4 : (?f < c)%nat |- _ =>
        pose proof (radix_lt e hn f c H3 H4) as B1;
        pose proof (radix_lt a h (e * c + f) (hn * c) H1 B1) as B2;
        pose proof (radix_lt b 3 (a * (hn * c) + (e * c + f)) (h * (hn * c)) H2 B2) as B3;
        lia
    end.
  - repeat (apply Forall2_cons; [assumption|]). apply Forall2_nil.
Qed.

(** Version 0, any other tensor (the branch written for the bias): the
    result has one dimension, regrouped from (3, heads, hn) to (heads, 3, hn). *)
Lemma migrate_v0_bias (h hn : nat) (w : tensor) :
  wf w -> rank w <> 2%nat -> numel w = (3 * h * hn)%nat -> (0 < h)%nat ->
  exists w',
    migrate_v0 (Z.of_nat h) w = Ok w' /\
    size w' = [(3 * h * hn)%nat] /\
    forall i j k, (i < 3)%nat -> (j < h)%nat -> (k < hn)%nat ->
      nth_error (data w') ((j * 3 + i) * hn + k) =
      nth_error (data w) ((i * h + j) * hn + k).
Proof.
  destruct w as [sz d]. unfold wf. cbn [size data]. intros Hwf Hrank Hnumel Hh.
  rewrite Hnumel in Hwf.
  unfold migrate_v0. apply Nat.eqb_neq in Hrank. rewrite Hrank.
  unfold view. rewrite Hnumel. cbn [data].
  change [3; Z.of_nat h; -1] with (map Z.of_nat [3%nat; h] ++ -1 :: map Z.of_nat [])%list.
  rewrite (infer_size_hole [3%nat; h] [] hn);
    [ | cbn [prod_nat fold_right]; lia | f_equal; cbn [prod_nat fold_right]; ring ].
  cbn [bind app]. unfold transpose, rank. cbn [size data List.length Nat.ltb Nat.leb andb bind].
  unfold contiguous, numel.
  cbn [ssize sstride storage size data rev app bind swap swap_with nth Nat.eqb
       contiguous_strides].
  change [-1] with (map Z.of_nat [] ++ -1 :: map Z.of_nat [])%list.
  rewrite (infer_size_hole [] [] (3 * h * hn)%nat);
    [ | cbn [prod_nat fold_right]; lia | f_equal; cbn [prod_nat fold_right]; ring ].
  cbn [bind app]. eexists. split; [reflexivity|]. split; [reflexivity|].
  intros i j k Hi Hj Hk. cbn [data prod_nat fold_right].
  pose proof (contiguous_nth [h; 3%nat; hn]
                [(hn * 1)%nat; (h * (hn * 1))%nat; 1%nat] [j; i; k] d eq_refl) as Hnth.
  unfold contiguous in Hnth. cbn [ssize sstride storage data ravel dot prod_nat fold_right] in Hnth.
  replace ((j * 3 + i) * hn + k)%nat
    with (j * (3 * (hn * 1)) + (i * (hn * 1) + (k * 1 + 0)))%nat by ring.
  rewrite Hnth.
  - f_equal. ring.
  - intros idx' Hidx. index_cases. cbn [dot]. rewrite Hwf.
    match goal with
    | H1 : (?a < h)%nat, H2 : (?b < 3)%nat, H3 : (?e < hn)%nat |- _ =>
        pose proof (radix_lt a h e hn H1 H3) as B1;
        pose proof (radix_lt b 3 (a * hn + e) (h * hn) H2 B1) as B2;
        lia
    end.
  - repeat (apply Forall2_cons; [assumption|]). apply Forall2_nil.
Qed.

(** Version 1, a tensor of two dimensions: regrouped from (heads, hn, 3) to
    (heads, 3, hn) and left with four dimensions. *)
Lemma migrate_v1_weight (h hn c : nat) (w : tensor) :
  wf w -> size w = [(h * hn * 3)%nat; c] -> (0 < h)%nat -> (0 < c)%nat ->
  exists w',
    migrate_v1 (Z.of_nat h) w = Ok w' /\
    size w' = [h; 3%nat; hn; c] /\
    forall i j k l, (i < 3)%nat -> (j < h)%nat -> (k < hn)%nat -> (l < c)%nat ->
      nth_error (data w') (((j * 3 + i) * hn + k) * c + l) =
      nth_error (data w) (((j * hn + k) * 3 + i) * c + l).
Proof.
  destruct w as [sz d]. unfold wf, numel. cbn [size data]. intros Hwf -> Hh Hc.
  unfold migrate_v1, rank, last_dim, view, numel. cbn [size data List.length Nat.eqb rev app bind].
  change [Z.of_nat h; -1; 3; Z.of_nat c]
    with (map Z.of_nat [h] ++ -1 :: map Z.of_nat [3%nat; c])%list.
  rewrite (infer_size_hole [h] [3%nat; c] hn);
    [ | cbn [prod_nat fold_right]; nia | f_equal; cbn [prod_nat fold_right]; ring ].
  cbn [bind app]. unfold transpose, rank. cbn [size data List.length Nat.ltb Nat.leb andb bind].
  unfold contiguous.
  cbn [ssize sstride storage size data rev app bind swap swap_with nth Nat.eqb
       contiguous_strides].
  eexists. split; [reflexivity|]. split; [reflexivity|].
  intros i j k l Hi Hj Hk Hl. cbn [data prod_nat fold_right].
  pose proof (contiguous_nth [h; 3%nat; hn; c]
                [(hn * (3 * (c * 1)))%nat; (c * 1)%nat; (3 * (c * 1))%nat; 1%nat]
                [j; i; k; l] d eq_refl) as Hnth.
  unfold contiguous in Hnth. cbn [ssize sstride storage data ravel dot prod_nat fold_right] in Hnth.
  replace (((j * 3 + i) * hn + k) * c + l)%nat
    with (j * (3 * (hn * (c * 1))) + (i * (hn * (c * 1)) + (k * (c * 1) + (l * 1 + 0))))%nat by ring.
  rewrite Hnth.
  - f_equal. ring.
  - intros idx' Hidx. index_cases. cbn [dot]. rewrite Hwf. cbn [prod_nat fold_right].
    match goal with
    | H1 : (?a < h)%nat, H2 : (?b < 3)%nat, H3 : (?e < hn)%nat, H4 : (?f < c)%nat |- _ =>
        pose proof (radix_lt b 3 f c H2 H4) as B1;
        pose proof (radix_lt e hn (b * c + f) (3 * c) H3 B1) as B2;
        pose proof (radix_lt a h (e * (3 * c) + (b * c + f)) (hn * (3 * c)) H1 B2) as B3;
        lia
    end.
  - repeat (apply Forall2_cons; [assumption|]). apply Forall2_nil.
Qed.

(** Version 1, any other tensor (the branch written for the bias):
    regrouped from (heads, hn, 3) to (heads, 3, hn) and left with three
    dimensions. *)
Lemma migrate_v1_bias (h hn : nat) (w : tensor) :
  wf w -> rank w <> 2%nat -> numel w = (h * hn * 3)%nat -> (0 < h)%nat ->
  exists w',
    migrate_v1 (Z.of_nat h) w = Ok w' /\
    size w' = [h; 3%nat; hn] /\
    forall i j k, (i < 3)%nat -> (j < h)%nat -> (k < hn)%nat ->
      nth_error (data w') ((j * 3 + i) * hn + k) =
      nth_error (data w) ((j * hn + k) * 3 + i).
Proof.
  destruct w as [sz d]. unfold wf. cbn [size data]. intros Hwf Hrank Hnumel Hh.
  rewrite Hnumel in Hwf.
  unfold migrate_v1. apply Nat.eqb_neq in Hrank. rewrite Hrank.
  unfold view. rewrite Hnumel. cbn [data].
  change [Z.of_nat h; -1; 3] with (map Z.of_nat [h] ++ -1 :: map Z.of_nat [3%nat])%list.
  rewrite (infer_size_hole [h] [3%nat] hn);
    [ | cbn [prod_nat fold_right]; lia | f_equal; cbn [prod_nat fold_right]; ring ].
  cbn [bind app]. unfold transpose, rank. cbn [size data List.length Nat.ltb Nat.leb andb bind].
  unfold contiguous.
  cbn [ssize sstride storage size data rev app bind swap swap_with nth Nat.eqb
       contiguous_strides].
  eexists. split; [reflexivity|]. split; [reflexivity|].
  intros i j k Hi Hj Hk. cbn [data prod_nat fold_right].
  pose proof (contiguous_nth [h; 3%nat; hn]
                [(hn * (3 * 1))%nat; 1%nat; (3 * 1)%nat] [j; i; k] d eq_refl) as Hnth.
  unfold contiguous in Hnth. cbn [ssize sstride storage data ravel dot prod_nat fold_right] in Hnth.
  replace ((j * 3 + i) * hn + k)%nat
    with (j * (3 * (hn * 1)) + (i * (hn * 1) + (k * 1 + 0)))%nat by ring.
  rewrite Hnth.
  - f_equal. ring.
  - intros idx' Hidx. index_cases. cbn [dot]. rewrite Hwf.
    match goal with
    | H1 : (?a < h)%nat, H2 : (?b < 3)%nat, H3 : (?e < hn)%nat |- _ =>
        pose proof (radix_lt e hn b 3 H3 H2) as B1;
        pose proof (radix_lt a h (e * 3 + b) (hn * 3) H1 B1) as B2;
        lia
    end.
  - repeat (apply Forall2_cons; [assumption|]). apply Forall2_nil.
Qed.

Lemma keys_get {V : Type} (d : Dict.t V) (k : string) :
  In k (Dict.keys d) -> exists v, Dict.get d k = Some v.
Proof.
  induction d as [|[k' v'] d IH]; simpl; [contradiction|].
  intros [-> | Hin].
  - rewrite String.eqb_refl. eauto.
  - destruct (String.eqb k' k); eauto.
Qed.

(** The loop over the keys: every key that mentions the marker gets its
    tensor migrated once, every other entry is left as it was. *)
Lemma migrate_keys_entries (f : tensor -> result tensor) (keys : list string)
    (sd : Dict.t tensor) :
  NoDup keys ->
  (forall k, In k keys -> mentions_qkv k = true ->
             exists w w', Dict.get sd k = Some w /\ f w = Ok w') ->
  exists sd',
    migrate_keys f keys sd = Ok sd' /\
    (forall k, In k keys -> mentions_qkv k = true ->
               exists w w', Dict.get sd k = Some w /\ f w = Ok w' /\ Dict.get sd' k = Some w') /\
    (forall k, ~ (In k keys /\ mentions_qkv k = true) -> Dict.get sd' k = Dict.get sd k).
Proof.
  intros Hnd. revert sd. induction Hnd as [|key rest Hnotin Hnd IH]; intros sd Hall.
  - exists sd. split; [reflexivity|]. split; [intros k [] | reflexivity].
  - simpl. fold (mentions_qkv key). destruct (mentions_qkv key) eqn:Hm.
    + destruct (Hall key (or_introl eq_refl) Hm) as (w & w' & Hget & Hf).
      unfold Dict.lookup. rewrite Hget. simpl. rewrite Hf. simpl.
      destruct (IH (Dict.set sd key w')) as (sd' & Hrun & Hmig & Hrest).
      { intros k Hin Hk.
        assert (key <> k) by (intros ->; contradiction).
        rewrite dict_get_set_other by assumption. apply Hall; [now right | exact Hk]. }
      exists sd'. split; [exact Hrun|]. split.
      * intros k [<- | Hin] Hk.
        -- exists w, w'. repeat split; try assumption.
           rewrite Hrest by (intros [Hin _]; contradiction). apply dict_get_set_same.
        -- assert (key <> k) by (intros ->; contradiction).
           destruct (Hmig k Hin Hk) as (w0 & w0' & Hg0 & Hf0 & Hg0').
           rewrite dict_get_set_other in Hg0 by assumption. eauto.
      * intros k Hk.
        assert (key <> k) by (intros ->; apply Hk; split; [now left | exact Hm]).
        rewrite Hrest by (intros [Hin Hk']; apply Hk; split; [now right | exact Hk']).
        now apply dict_get_set_other.
    + destruct (IH sd) as (sd' & Hrun & Hmig & Hrest).
      { intros k Hin Hk. apply Hall; [now right | exact Hk]. }
      exists sd'. split; [exact Hrun|]. split.
      * intros k [<- | Hin] Hk; [congruence | now apply Hmig].
      * intros k Hk. apply Hrest. intros [Hin Hk']. apply Hk. split; [now right | exact Hk'].
Qed.

Lemma as_size_int (z : Z) :
  - 2 ^ 63 <= z < 2 ^ 63 -> as_size (VInt z) = Ok z.
Proof.
  intros [Hlo Hhi]. unfold as_size.
  destruct (Z.leb_spec (- 2 ^ 63) z); [|lia].
  destruct (Z.ltb_spec z (2 ^ 63)); [reflexivity | lia].
Qed.

Lemma v0_shape_migrates (h : nat) (w : tensor) :
  wf w -> (0 < h)%nat -> v0_shape h w -> exists w', migrate_v0 (Z.of_nat h) w = Ok w'.
Proof.
  intros Hwf Hh [_ [(hn & c & Hsz & Hc) | (Hr & hn & Hn)]].
  - destruct (migrate_v0_weight h hn c w Hwf Hsz Hh Hc) as (w' & Hw' & _). eauto.
  - destruct (migrate_v0_bias h hn w Hwf Hr Hn Hh) as (w' & Hw' & _). eauto.
Qed.

Lemma v1_shape_migrates (h : nat) (w : tensor) :
  wf w -> (0 < h)%nat -> v1_shape h w -> exists w', migrate_v1 (Z.of_nat h) w = Ok w'.
Proof.
  intros Hwf Hh [_ [(hn & c & Hsz & Hc) | (Hr & hn & Hn)]].
  - destruct (migrate_v1_weight h hn c w Hwf Hsz Hh Hc) as (w' & Hw' & _). eauto.
  - destruct (migrate_v1_bias h hn w Hwf Hr Hn Hh) as (w' & Hw' & _). eauto.
Qed.

Lemma get_keys {V : Type} (d : Dict.t V) (k : string) (v : V) :
  Dict.get d k = Some v -> In k (Dict.keys d).
Proof.
  induction d as [|[k' v'] d IH]; simpl; [discriminate|].
  destruct (String.eqb k' k) eqn:E.
  - apply String.eqb_eq in E. now left.
  - intros H. right. now apply IH.
Qed.

(** The migration loop on a state dict whose marked tensors all migrate. *)
Lemma migrate_state_dict (f : tensor -> result tensor) (sd : Dict.t tensor) :
  NoDup (Dict.keys sd) ->
  (forall key w, Dict.get sd key = Some w -> mentions_qkv key = true ->
                 exists w', f w = Ok w') ->
  exists sd',
    migrate_keys f (Dict.keys sd) sd = Ok sd' /\
    (forall key w, Dict.get sd key = Some w -> mentions_qkv key = false ->
                   Dict.get sd' key = Some w) /\
    (forall key w, Dict.get sd key = Some w -> mentions_qkv key = true ->
                   exists w', f w = Ok w' /\ Dict.get sd' key = Some w').
Proof.
  intros Hnd Hall.
  destruct (migrate_keys_entries f (Dict.keys sd) sd Hnd) as (sd' & Hrun & Hmig & Hrest).
  { intros k Hin Hk. destruct (keys_get sd k Hin) as [w Hw].
    destruct (Hall k w Hw Hk) as [w' Hw']. eauto. }
  exists sd'. split; [exact Hrun|]. split.
  - intros key w Hget Hk. rewrite Hrest; [exact Hget|].
    intros [_ Hk']. congruence.
  - intros key w Hget Hk.
    destruct (Hmig key (get_keys sd key w Hget) Hk) as (w0 & w0' & Hg0 & Hf0 & Hg0').
    assert (w0 = w) by congruence. subst w0. eauto.
Qed.

(** C3: a checkpoint of version 3 or more is left as it is. For version 0,
    every entry whose key holds the marker is replaced: a tensor of
    [3 * heads * hn] rows and [c] columns keeps its two sizes, its rows
    regrouped from (3, heads, hn) to (heads, 3, hn); a bias of
    [3 * heads * hn] elements keeps its one size, regrouped the same way. For
    version 1 the rows come as (heads, hn, 3): the weight is left with the
    four sizes (heads, 3, hn, c), the bias with the three sizes
    (heads, 3, hn). The other entries are untouched. *)
Theorem C3_qkv_layout_migration
    (old_checkpoint : Dict.t value) (hparams : option value) (sd : Dict.t tensor) :
  (Py.lt3 (checkpoint_version old_checkpoint) = Ok false ->
   migrate_attention old_checkpoint hparams sd = Ok sd) /\
  (forall h : nat,
      NoDup (Dict.keys sd) ->
      (forall key w, Dict.get sd key = Some w -> wf w) ->
      (0 < h)%nat ->
      Py.lt3 (checkpoint_version old_checkpoint) = Ok true ->
      attention_heads hparams old_checkpoint = Ok (VInt (Z.of_nat h)) ->
      (Py.eq_small (checkpoint_version old_checkpoint) 0 = true ->
       (forall key w, Dict.get sd key = Some w -> mentions_qkv key = true -> v0_shape h w) ->
       exists sd',
         migrate_attention old_checkpoint hparams sd = Ok sd' /\
         (forall key w, Dict.get sd key = Some w -> mentions_qkv key = false ->
                        Dict.get sd' key = Some w) /\
         (forall key w, Dict.get sd key = Some w -> mentions_qkv key = true ->
            exists w',
              Dict.get sd' key = Some w' /\
              (forall hn c, size w = [(3 * h * hn)%nat; c] -> (0 < c)%nat ->
                 size w' = [(3 * h * hn)%nat; c] /\
                 forall i j k l, (i < 3)%nat -> (j < h)%nat -> (k < hn)%nat -> (l < c)%nat ->
                   nth_error (data w') (((j * 3 + i) * hn + k) * c + l) =
                   nth_error (data w) (((i * h + j) * hn + k) * c + l)) /\
              (forall hn, size w = [(3 * h * hn)%nat] ->
                 size w' = [(3 * h * hn)%nat] /\
                 forall i j k, (i < 3)%nat -> (j < h)%nat -> (k < hn)%nat ->
                   nth_error (data w') ((j * 3 + i) * hn + k) =
                   nth_error (data w) ((i * h + j) * hn + k)))) /\
      (Py.eq_small (checkpoint_version old_checkpoint) 0 = false ->
       Py.eq_small (checkpoint_version old_checkpoint) 1 = true ->
       (forall key w, Dict.get sd key = Some w -> mentions_qkv key = true -> v1_shape h w) ->
       exists sd',
         migrate_attention old_checkpoint hparams sd = Ok sd' /\
         (forall key w, Dict.get sd key = Some w -> mentions_qkv key = false ->
                        Dict.get sd' key = Some w) /\
         (forall key w, Dict.get sd key = Some w -> mentions_qkv key = true ->
            exists w',
              Dict.get sd' key = Some w' /\
              (forall hn c, size w = [(h * hn * 3)%nat; c] -> (0 < c)%nat ->
                 size w' = [h; 3%nat; hn; c] /\
                 forall i j k l, (i < 3)%nat -> (j < h)%nat -> (k < hn)%nat -> (l < c)%nat ->
                   nth_error (data w') (((j * 3 + i) * hn + k) * c + l) =
                   nth_error (data w) (((j * hn + k) * 3 + i) * c + l)) /\
              (forall hn, size w = [(h * hn * 3)%nat] ->
                 size w' = [h; 3%nat; hn] /\
                 forall i j k, (i < 3)%nat -> (j < h)%nat -> (k < hn)%nat ->
                   nth_error (data w') ((j * 3 + i) * hn + k) =
                   nth_error (data w) ((j * hn + k) * 3 + i))))).
Proof.
  split.
  - intros Hlt. unfold migrate_attention. now rewrite Hlt.
  - intros h Hnd Hwf Hh Hlt Hheads. split.
    + intros H0 Hshape.
      destruct (migrate_state_dict
                  (fun w => n <- as_size (VInt (Z.of_nat h)) ;; migrate_v0 n w) sd Hnd)
        as (sd' & Hrun & Hrest & Hmig).
      { intros key w Hget Hk.
        rewrite as_size_int by (split; [lia | exact (proj1 (Hshape key w Hget Hk))]).
        apply v0_shape_migrates; eauto. }
      exists sd'. split; [|split; [exact Hrest|]].
      * unfold migrate_attention. rewrite Hlt. simpl. rewrite Hheads. simpl. rewrite H0.
        exact Hrun.
      * intros key w Hget Hk. destruct (Hmig key w Hget Hk) as (w' & Hf & Hget').
        rewrite as_size_int in Hf
          by (split; [lia | exact (proj1 (Hshape key w Hget Hk))]).
        cbn [bind] in Hf.
        exists w'. split; [exact Hget'|]. split.
        -- intros hn c Hsz Hc.
           destruct (migrate_v0_weight h hn c w (Hwf key w Hget) Hsz Hh Hc) as (w2 & Hf2 & Hs2 & Hd2).
           assert (w2 = w') by congruence. subst w2. split; assumption.
        -- intros hn Hsz.
           assert (Hr : rank w <> 2%nat) by (unfold rank; rewrite Hsz; discriminate).
           assert (Hn : numel w = (3 * h * hn)%nat)
             by (unfold numel; rewrite Hsz; cbn [prod_nat fold_right]; lia).
           destruct (migrate_v0_bias h hn w (Hwf key w Hget) Hr Hn Hh) as (w2 & Hf2 & Hs2 & Hd2).
           assert (w2 = w') by congruence. subst w2. split; assumption.
    + intros H0 H1 Hshape.
      destruct (migrate_state_dict
                  (fun w => n <- as_size (VInt (Z.of_nat h)) ;; migrate_v1 n w) sd Hnd)
        as (sd' & Hrun & Hrest & Hmig).
      { intros key w Hget Hk.
        rewrite as_size_int by (split; [lia | exact (proj1 (Hshape key w Hget Hk))]).
        apply v1_shape_migrates; eauto. }
      exists sd'. split; [|split; [exact Hrest|]].
      * unfold migrate_attention. rewrite Hlt. simpl. rewrite Hheads. simpl. rewrite H0, H1.
        exact Hrun.
      * intros key w Hget Hk. destruct (Hmig key w Hget Hk) as (w' & Hf & Hget').
        rewrite as_size_int in Hf
          by (split; [lia | exact (proj1 (Hshape key w Hget Hk))]).
        cbn [bind] in Hf.
        exists w'. split; [exact Hget'|]. split.
        -- intros hn c Hsz Hc.
           destruct (migrate_v1_weight h hn c w (Hwf key w Hget) Hsz Hh Hc) as (w2 & Hf2 & Hs2 & Hd2).
           assert (w2 = w') by congruence. subst w2. split; assumption.
        -- intros hn Hsz.
           assert (Hr : rank w <> 2%nat) by (unfold rank; rewrite Hsz; discriminate).
           assert (Hn : numel w = (h * hn * 3)%nat)
             by (unfold numel; rewrite Hsz; cbn [prod_nat fold_right]; lia).
           destruct (migrate_v1_bias h hn w (Hwf key w Hget) Hr Hn Hh) as (w2 & Hf2 & Hs2 & Hd2).
           assert (w2 = w') by congruence. subst w2. split; assumption.
Qed.

(** C4 (as amended): a fused tensor whose number of dimensions is not 2 is
    not refused for it; whatever that number, it takes the branch written
    for the bias. With [3 * heads * hn] elements the version-0 branch returns
    them in one dimension, regrouped from (3, heads, hn) to (heads, 3, hn);
    with [heads * hn * 3] elements the version-1 branch returns them with the
    sizes (heads, 3, hn). *)
Theorem C4_other_ranks_take_the_bias_branch (h hn : nat) (w : tensor) :
  wf w -> rank w <> 2%nat -> (0 < h)%nat ->
  (numel w = (3 * h * hn)%nat ->
   exists w',
     migrate_v0 (Z.of_nat h) w = Ok w' /\ size w' = [numel w] /\
     forall i j k, (i < 3)%nat -> (j < h)%nat -> (k < hn)%nat ->
       nth_error (data w') ((j * 3 + i) * hn + k) = nth_error (data w) ((i * h + j) * hn + k)) /\
  (numel w = (h * hn * 3)%nat ->
   exists w',
     migrate_v1 (Z.of_nat h) w = Ok w' /\ size w' = [h; 3%nat; hn] /\
     forall i j k, (i < 3)%nat -> (j < h)%nat -> (k < hn)%nat ->
       nth_error (data w') ((j * 3 + i) * hn + k) = nth_error (data w) ((j * hn + k) * 3 + i)).
Proof.
  intros Hwf Hr Hh. split.
  - intros Hn. destruct (migrate_v0_bias h hn w Hwf Hr Hn Hh) as (w' & Hf & Hs & Hd).
    exists w'. rewrite Hn. auto.
  - intros Hn. exact (migrate_v1_bias h hn w Hwf Hr Hn Hh).
Qed.

End LayoutMigration.

(** Witness of C3: the sample state dict under a version-0 checkpoint with
    two heads. *)
Lemma C3_sample_migration_witness :
  exists sd' w',
    Megatron.migrate_attention Samples.old_v0 None Samples.state_dict = Ok sd' /\
    Dict.get sd' Samples.QKV_WEIGHT = Some w' /\
    Tensor.size w' = [6%nat; 2%nat] /\
    Dict.get sd' Samples.DENSE_WEIGHT = Dict.get Samples.state_dict Samples.DENSE_WEIGHT.
Proof.
  destruct (proj2 (C3_qkv_layout_migration Samples.old_v0 None Samples.state_dict) 2%nat)
    as [H0 _].
  - repeat (apply NoDup_cons; [intros Hin; repeat (destruct Hin as [Hin | Hin]; [discriminate|]);
                               exact Hin|]).
    apply NoDup_nil.
  - intros key w. unfold Samples.state_dict. cbn [Dict.get].
    repeat match goal with
           | |- context [String.eqb ?a key] => destruct (String.eqb a key)
           end; intros H; inversion H; reflexivity.
  - apply Nat.lt_0_succ.
  - reflexivity.
  - reflexivity.
  - destruct (H0 eq_refl) as (sd' & Hrun & Hrest & Hmig).
    + intros key w. unfold Samples.state_dict. cbn [Dict.get].
      destruct (String.eqb Samples.QKV_WEIGHT key) eqn:E1.
      { intros H _. inversion H. split; [reflexivity|]. left. exists 1%nat, 2%nat.
        split; [reflexivity | apply Nat.lt_0_succ]. }
      destruct (String.eqb Samples.QKV_BIAS key) eqn:E2.
      { intros H _. inversion H. split; [reflexivity|]. right.
        split; [discriminate | exists 1%nat; reflexivity]. }
      destruct (String.eqb Samples.DENSE_WEIGHT key) eqn:E3; [|discriminate].
      apply String.eqb_eq in E3. subst key. intros _ H. discriminate H.
    + destruct (Hmig Samples.QKV_WEIGHT _ eq_refl eq_refl) as (w' & Hget & Hweight & _).
      exists sd', w'. split; [exact Hrun|]. split; [exact Hget|]. split.
      * exact (proj1 (Hweight 1%nat 2%nat eq_refl (Nat.lt_0_succ 1))).
      * exact (Hrest Samples.DENSE_WEIGHT _ eq_refl eq_refl).
Defined.

(** Witness of C4: the sample tensor of sizes (3, 2, 4) with two heads. *)
Lemma C4_rank3_witness :
  exists w',
    Megatron.migrate_v0 2 (Tensor.mk [3%nat; 2%nat; 4%nat]
      [0; 1; 2; 3; 4; 5; 6; 7; 8; 9; 10; 11; 12; 13; 14; 15; 16; 17; 18; 19; 20; 21; 22; 23]%float)
    = Ok w' /\
    Tensor.size w' = [24%nat].
Proof.
  destruct (proj1 (C4_other_ranks_take_the_bias_branch 2 4
                     (Tensor.mk [3%nat; 2%nat; 4%nat]
      [0; 1; 2; 3; 4; 5; 6; 7; 8; 9; 10; 11; 12; 13; 14; 15; 16; 17; 18; 19; 20; 21; 22; 23]%float)
                     eq_refl ltac:(discriminate) (Nat.lt_0_succ 1)) eq_refl)
    as (w' & Hrun & Hsize & _).
  exists w'. split; [exact Hrun | exact Hsize].
Defined.

(** C4, counterexample to "a rank outside 1 and 2 is rejected": under a
    version-0 checkpoint the fused tensor of sizes (3, 2, 4) is migrated
    through the bias branch and comes back with one dimension. *)
Lemma C4_rank3_tensor_is_migrated :
  Megatron.migrate_attention Samples.old_v0 None Samples.state_dict_rank3
  = Ok [(Samples.QKV_WEIGHT,
         Tensor.mk [24%nat]
           [0; 1; 2; 3; 8; 9; 10; 11; 16; 17; 18; 19;
            4; 5; 6; 7; 12; 13; 14; 15; 20; 21; 22; 23]%float)].
Proof.
  vm_compute. reflexivity.
Qed.

(** ** Doubles: zeros, order *)

Section Doubles.
Import FloatOrder.

Lemma prim_inj (x y : float) : Prim2SF x = Prim2SF y -> x = y.
Proof.
  intros H. rewrite <- (SF2Prim_Prim2SF x), <- (SF2Prim_Prim2SF y). now rewrite H.
Qed.

Lemma zero_is_zero (x : float) :
  PrimFloat.eqb x 0%float = true <-> exists s, Prim2SF x = S754_zero s.
Proof.
  rewrite eqb_spec. change (Prim2SF 0%float) with (S754_zero false).
  split.
  - destruct (Prim2SF x) as [s| [|] | | [|] m e]; simpl; intros H; try discriminate; eauto.
  - intros [s ->]. reflexivity.
Qed.

Lemma zsim_same_number (x y : float) :
  zsim (Prim2SF x) (Prim2SF y) <-> Spec.same_number x y.
Proof.
  unfold zsim, Spec.same_number. split.
  - intros [H | (s & s' & Hx & Hy)].
    + left. now apply prim_inj.
    + right. split; apply zero_is_zero; eauto.
  - intros [-> | [Hx Hy]].
    + now left.
    + right. apply zero_is_zero in Hx, Hy. destruct Hx as [s Hx], Hy as [s' Hy]. eauto.
Qed.

Lemma zsim_refl (a : spec_float) : zsim a a.
Proof. now left. Qed.

(** Adding to 0.0 changes at most the sign of a zero. *)
Lemma add_zero_l (y : float) : zsim (Prim2SF (PrimFloat.add 0%float y)) (Prim2SF y).
Proof.
  rewrite add_spec. change (Prim2SF 0%float) with (S754_zero false).
  destruct (Prim2SF y) as [[|]| [|] | | [|] m e]; simpl; try (now left);
    right; eauto.
Qed.

Lemma add_zsim (x x' y : float) :
  zsim (Prim2SF x) (Prim2SF x') ->
  zsim (Prim2SF (PrimFloat.add x y)) (Prim2SF (PrimFloat.add x' y)).
Proof.
  rewrite !add_spec. intros [-> | (s & s' & -> & ->)]; [now left|].
  destruct (Prim2SF y) as [[|]| [|] | | [|] m e]; destruct s, s'; simpl;
    try (now left); right; eauto.
Qed.

Lemma div_zsim (x x' y : float) :
  zsim (Prim2SF x) (Prim2SF x') ->
  zsim (Prim2SF (PrimFloat.div x y)) (Prim2SF (PrimFloat.div x' y)).
Proof.
  rewrite !div_spec. intros [-> | (s & s' & -> & ->)]; [now left|].
  destruct (Prim2SF y) as [[|]| [|] | | [|] m e]; destruct s, s'; simpl;
    try (now left); right; eauto.
Qed.

Lemma compare_zsim_l (a a' b : spec_float) :
  zsim a a' -> SFcompare a b = SFcompare a' b.
Proof.
  intros [-> | (s & s' & -> & ->)]; [reflexivity|]. now destruct b.
Qed.

Lemma compare_zsim_r (a b b' : spec_float) :
  zsim b b' -> SFcompare a b = SFcompare a b'.
Proof.
  intros [-> | (s & s' & -> & ->)]; [reflexivity|]. now destruct a.
Qed.

Lemma leb_zsim (x x' y y' : float) :
  zsim (Prim2SF x) (Prim2SF x') -> zsim (Prim2SF y) (Prim2SF y') ->
  PrimFloat.leb x y = PrimFloat.leb x' y'.
Proof.
  intros Hx Hy. rewrite !leb_spec. unfold SFleb.
  now rewrite (compare_zsim_l _ _ _ Hx), (compare_zsim_r _ _ _ Hy).
Qed.

Lemma is_nan_zsim (x x' : float) :
  zsim (Prim2SF x) (Prim2SF x') -> PrimFloat.is_nan x = PrimFloat.is_nan x'.
Proof.
  intros Hx. unfold PrimFloat.is_nan. rewrite !eqb_spec. unfold SFeqb.
  now rewrite (compare_zsim_l _ _ _ Hx), (compare_zsim_r _ _ _ Hx).
Qed.

(** A double is not NaN exactly when its specification is not. *)
Lemma is_nan_spec (x : float) :
  PrimFloat.is_nan x = false <-> Prim2SF x <> S754_nan.
Proof.
  unfold PrimFloat.is_nan. rewrite eqb_spec. unfold SFeqb.
  destruct (Prim2SF x) as [s| [|] | | [|] m e]; simpl;
    try rewrite Z.compare_refl; try rewrite Pos.compare_cont_refl; simpl;
    split; intros H; try reflexivity; try discriminate; try congruence.
Qed.

(** On numbers, [SFcompare] is the lexicographic comparison of the keys. *)
Lemma compare_key (a b : spec_float) :
  a <> S754_nan -> b <> S754_nan ->
  match SFcompare a b with
  | Some Lt => lt3 (key a) (key b)
  | Some Eq => key a = key b
  | Some Gt => lt3 (key b) (key a)
  | None => False
  end.
Proof.
  intros Ha Hb.
  destruct a as [sa| [|] | | [|] ma ea]; destruct b as [sb| [|] | | [|] mb eb];
    try congruence; simpl; try lia; try reflexivity.
  - destruct (Z.compare_spec ea eb); [|lia|lia]. subst.
    change (Pos.compare_cont Eq ma mb) with (Pos.compare ma mb).
    destruct (Pos.compare_spec ma mb); simpl; [subst; reflexivity | lia | lia].
  - destruct (Z.compare_spec ea eb); [|lia|lia]. subst.
    change (Pos.compare_cont Eq ma mb) with (Pos.compare ma mb).
    destruct (Pos.compare_spec ma mb); simpl; [subst; reflexivity | lia | lia].
Qed.

Lemma leb_key (x y : float) :
  PrimFloat.is_nan x = false -> PrimFloat.is_nan y = false ->
  (PrimFloat.leb x y = true <-> ~ lt3 (fkey y) (fkey x)).
Proof.
  intros Hx Hy. apply is_nan_spec in Hx, Hy. rewrite leb_spec. unfold SFleb, fkey.
  pose proof (compare_key _ _ Hx Hy) as H.
  destruct (SFcompare (Prim2SF x) (Prim2SF y)) as [[| |]|]; [| | |contradiction];
    destruct (key (Prim2SF x)) as [[a1 a2] a3], (key (Prim2SF y)) as [[b1 b2] b3];
    simpl in *; split; intros; try discriminate; try reflexivity;
    try (inversion H; subst); lia.
Qed.

Lemma ltb_key (x y : float) :
  PrimFloat.is_nan x = false -> PrimFloat.is_nan y = false ->
  (PrimFloat.ltb x y = true <-> lt3 (fkey x) (fkey y)).
Proof.
  intros Hx Hy. apply is_nan_spec in Hx, Hy. rewrite ltb_spec. unfold SFltb, fkey.
  pose proof (compare_key _ _ Hx Hy) as H.
  destruct (SFcompare (Prim2SF x) (Prim2SF y)) as [[| |]|]; [| | |contradiction];
    destruct (key (Prim2SF x)) as [[a1 a2] a3], (key (Prim2SF y)) as [[b1 b2] b3];
    simpl in *; split; intros; try discriminate; try reflexivity;
    try (inversion H; subst); lia.
Qed.

End Doubles.

(** ** numpy.argmax *)

Section Argmax.
Import FloatOrder Reranker.

Local Abbreviation number x := (PrimFloat.is_nan x = false).

Ltac by_keys :=
  repeat match goal with
         | H : PrimFloat.leb ?a ?b = true |- _ => apply leb_key in H; [|assumption..]
         | H : PrimFloat.ltb ?a ?b = true |- _ => apply ltb_key in H; [|assumption..]
         | H : PrimFloat.leb ?a ?b = false |- _ =>
             apply not_true_iff_false in H; rewrite leb_key in H by assumption
         | |- PrimFloat.leb ?a ?b = true => apply leb_key; [assumption..|]
         | |- PrimFloat.ltb ?a ?b = true => apply ltb_key; [assumption..|]
         end;
  unfold lt3 in *;
  repeat match goal with
         | |- context [fkey ?a] => destruct (fkey a) as [[? ?] ?]
         | H : context [fkey ?a] |- _ => destruct (fkey a) as [[? ?] ?]
         end;
  lia.

Lemma leb_refl (x : float) : number x -> PrimFloat.leb x x = true.
Proof. intros Hx. by_keys. Qed.

Lemma not_leb_ltb (x y : float) :
  number x -> number y -> PrimFloat.leb x y = false -> PrimFloat.ltb y x = true.
Proof. intros Hx Hy H. by_keys. Qed.

Lemma leb_ltb_trans (a b c : float) :
  number a -> number b -> number c ->
  PrimFloat.leb a b = true -> PrimFloat.ltb b c = true -> PrimFloat.ltb a c = true.
Proof. intros Ha Hb Hc H1 H2. by_keys. Qed.

Lemma ltb_leb (a b : float) :
  number a -> number b -> PrimFloat.ltb a b = true -> PrimFloat.leb a b = true.
Proof. intros Ha Hb H. by_keys. Qed.

(** The scan keeps the first position of the largest score seen so far. *)
Lemma argmax_scan_first_maximum (xs pre : list float) (mp : float) (best : nat) :
  Forall (fun x => number x) (pre ++ xs) ->
  nth_error pre best = Some mp ->
  (forall j s, nth_error pre j = Some s -> PrimFloat.leb s mp = true) ->
  (forall j s, (j < best)%nat -> nth_error pre j = Some s -> PrimFloat.ltb s mp = true) ->
  Spec.first_maximum (pre ++ xs) (argmax_scan xs (List.length pre) mp best).
Proof.
  revert pre mp best. induction xs as [|x rest IH]; intros pre mp best Hnum Hbest Hle Hlt.
  - assert (Hr : argmax_scan [] (List.length pre) mp best = best)
      by (simpl; destruct (PrimFloat.is_nan mp); reflexivity).
    rewrite Hr, app_nil_r. exists mp. auto.
  - rewrite Forall_forall in Hnum.
    assert (Hmp : number mp).
    { apply Hnum. apply in_or_app. left. eapply nth_error_In; eauto. }
    assert (Hx : number x) by (apply Hnum; apply in_or_app; right; now left).
    assert (Hpre : forall j s, nth_error pre j = Some s -> number s).
    { intros j s Hs. apply Hnum. apply in_or_app. left. eapply nth_error_In; eauto. }
    simpl. rewrite Hmp.
    replace (pre ++ x :: rest)%list with ((pre ++ [x]) ++ rest)%list
      by (rewrite <- app_assoc; reflexivity).
    replace (S (List.length pre)) with (List.length (pre ++ [x])%list)
      by (rewrite length_app; simpl; lia).
    destruct (PrimFloat.leb x mp) eqn:E; simpl.
    + apply IH.
      * apply Forall_forall. intros y Hy. apply Hnum. rewrite <- app_assoc in Hy. exact Hy.
      * rewrite nth_error_app1; [exact Hbest|]. apply nth_error_Some. congruence.
      * intros j s Hs. destruct (Nat.lt_ge_cases j (List.length pre)) as [Hj | Hj].
        -- rewrite nth_error_app1 in Hs by exact Hj. eauto.
        -- rewrite nth_error_app2 in Hs by exact Hj.
           destruct (j - List.length pre)%nat as [|[|]]; simpl in Hs; inversion Hs.
           subst. exact E.
      * intros j s Hj Hs.
        assert (best < List.length pre)%nat by (apply nth_error_Some; congruence).
        rewrite nth_error_app1 in Hs by lia. eauto.
    + apply not_leb_ltb in E; try assumption.
      apply IH.
      * apply Forall_forall. intros y Hy. apply Hnum. rewrite <- app_assoc in Hy. exact Hy.
      * rewrite nth_error_app2 by lia. now rewrite Nat.sub_diag.
      * intros j s Hs. destruct (Nat.lt_ge_cases j (List.length pre)) as [Hj | Hj].
        -- rewrite nth_error_app1 in Hs by exact Hj.
           apply ltb_leb; eauto. eapply leb_ltb_trans with (b := mp); eauto.
        -- rewrite nth_error_app2 in Hs by exact Hj.
           destruct (j - List.length pre)%nat as [|[|]]; simpl in Hs; inversion Hs.
           subst. now apply leb_refl.
      * intros j s Hj Hs. rewrite nth_error_app1 in Hs by exact Hj.
        eapply leb_ltb_trans with (b := mp); eauto.
Qed.

(** On scores none of which is NaN, [argmax] returns the first position of
    the largest. *)
Lemma argmax_first_maximum (xs : list float) :
  xs <> [] -> Forall (fun x => number x) xs ->
  exists best, argmax xs = Ok best /\ Spec.first_maximum xs best.
Proof.
  destruct xs as [|x rest]; [congruence|]. intros _ Hnum.
  exists (argmax_scan rest 1 x 0). split; [reflexivity|].
  apply (argmax_scan_first_maximum rest [x] x 0 Hnum eq_refl).
  - intros [|[|j]] s Hs; simpl in Hs; inversion Hs. subst.
    apply leb_refl. now inversion Hnum.
  - intros j s Hj. lia.
Qed.

(** [argmax] does not see the sign of a zero. *)
Lemma argmax_scan_zsim (xs ys : list float) (i : nat) (mp mp' : float) (best : nat) :
  Forall2 (fun x y => zsim (Prim2SF x) (Prim2SF y)) xs ys ->
  zsim (Prim2SF mp) (Prim2SF mp') ->
  argmax_scan xs i mp best = argmax_scan ys i mp' best.
Proof.
  intros Hall. revert i mp mp' best.
  induction Hall as [|x y xs ys Hxy _ IH]; intros i mp mp' best Hmp; simpl.
  - now rewrite (is_nan_zsim _ _ Hmp).
  - rewrite (is_nan_zsim _ _ Hmp), (leb_zsim _ _ _ _ Hxy Hmp).
    destruct (PrimFloat.is_nan mp'); [reflexivity|].
    destruct (PrimFloat.leb y mp'); simpl; now apply IH.
Qed.

Lemma argmax_zsim (xs ys : list float) :
  Forall2 (fun x y => zsim (Prim2SF x) (Prim2SF y)) xs ys ->
  argmax xs = argmax ys.
Proof.
  intros [|x y xs' ys' Hxy Hall]; [reflexivity|]. simpl.
  f_equal. now apply argmax_scan_zsim.
Qed.

End Argmax.

(** ** Score fusion against the specification's formula *)

Section Fusion.
Import FloatOrder Reranker.

Variable float_pow : float -> float -> result float.
Variable args : Args.

(** Where no divisor is zero the loop body and the formula fail alike (only
    the power can), and return the same number: the sum the loop starts
    from 0 can differ only in the sign of a zero. *)
Lemma fuse_fused_score (r : Spec.score_record) :
  Spec.divisors_not_zero float_pow args r = true ->
  match fuse float_pow args (Spec.forward r) (Spec.reverse r) (Spec.lm r)
          (Spec.src_len r) (Spec.tgt_len r),
        Spec.fused_score float_pow args r with
  | Ok s, Ok s' => zsim (Prim2SF s) (Prim2SF s')
  | Raise e, Raise e' => e = e'
  | _, _ => False
  end.
Proof.
  unfold Spec.divisors_not_zero. intros Hdiv.
  apply andb_prop in Hdiv. destruct Hdiv as [Hlen Hpen].
  assert (Hf : normalized args (Spec.forward r) (Spec.tgt_len r)
               = Ok (Spec.primed args (Spec.forward r) (Spec.tgt_len r)) /\
               normalized args (Spec.reverse r) (Spec.src_len r)
               = Ok (Spec.primed args (Spec.reverse r) (Spec.src_len r)) /\
               normalized args (Spec.lm r) (Spec.tgt_len r)
               = Ok (Spec.primed args (Spec.lm r) (Spec.tgt_len r))).
  { unfold normalized, Spec.primed, truediv.
    destruct (length_normalize_scores args); [|repeat split].
    apply andb_prop in Hlen. destruct Hlen as [Hs Ht].
    apply negb_true_iff in Hs, Ht. rewrite Hs, Ht. repeat split. }
  destruct Hf as (Hf & Hrv & Hl).
  unfold fuse, Spec.fused_score. rewrite Hf. cbn [bind]. rewrite Hrv. cbn [bind].
  rewrite Hl. cbn [bind].
  assert (Hsum : zsim
            (Prim2SF (PrimFloat.add
               (PrimFloat.add
                  (PrimFloat.add 0%float
                     (PrimFloat.mul (forward_model_coef args)
                        (Spec.primed args (Spec.forward r) (Spec.tgt_len r))))
                  (PrimFloat.mul (reverse_model_coef args)
                     (Spec.primed args (Spec.reverse r) (Spec.src_len r))))
               (PrimFloat.mul (target_lm_coef args)
                  (Spec.primed args (Spec.lm r) (Spec.tgt_len r)))))
            (Prim2SF (Spec.weighted_sum args r))).
  { unfold Spec.weighted_sum. apply add_zsim. apply add_zsim. apply add_zero_l. }
  destruct (len_pen args) as [p|]; [|exact Hsum].
  unfold Spec.length_penalty in *.
  destruct (float_pow _ p) as [penalty|e]; cbn [bind]; [|reflexivity].
  apply negb_true_iff in Hpen. unfold truediv. rewrite Hpen.
  now apply div_zsim.
Qed.

(** [score_fusion] on the columns of a window whose records all have a fused
    score by the formula. *)
Lemma score_fusion_fused (recs : list Spec.score_record) (scores : list float) :
  Forall (fun r => Spec.divisors_not_zero float_pow args r = true) recs ->
  Forall2 (fun r s => Spec.fused_score float_pow args r = Ok s) recs scores ->
  exists fused,
    score_fusion float_pow args (map Spec.forward recs) (map Spec.reverse recs)
      (map Spec.lm recs) (map Spec.src_len recs) (map Spec.tgt_len recs) = Ok fused /\
    Forall2 (fun s s' => zsim (Prim2SF s) (Prim2SF s')) fused scores.
Proof.
  intros Hdiv Hscores.
  induction Hscores as [|r s recs scores Hr _ IH]; simpl.
  - exists []. split; [reflexivity | constructor].
  - inversion Hdiv as [|r' recs' Hd Hrest]. subst.
    pose proof (fuse_fused_score r Hd) as Hone. rewrite Hr in Hone.
    destruct (fuse float_pow args _ _ _ _ _) as [s0|e]; [|contradiction]. simpl.
    destruct (IH Hrest) as (fused & -> & Hall). simpl.
    exists (s0 :: fused). split; [reflexivity | now constructor].
Qed.

End Fusion.

(** ** One window of the cached score file *)

Section Window.
Import FloatOrder Reranker.

Variable float_pow : float -> float -> result float.
Variable float_of_string : string -> result float.
Variable args : Args.

Lemma comprehension_map {A B C : Type} (f : A -> result B) (g : C -> B)
    (l : list A) (rs : list C) :
  Forall2 (fun x r => f x = Ok (g r)) l rs ->
  Megatron.comprehension f l = Ok (map g rs).
Proof.
  induction 1 as [|x r l rs Hx _ IH]; simpl; [reflexivity|].
  now rewrite Hx, IH.
Qed.

Lemma reads_columns (w : list string) (recs : list Spec.score_record) :
  Forall2 (Spec.reads float_of_string) w recs ->
  forallb (fun item => Nat.eqb (List.length item) 7) (map fields w) = true /\
  column (map fields w) 0 = Ok (map Spec.src_txt recs) /\
  column (map fields w) 1 = Ok (map Spec.tgt_txt recs) /\
  float_column float_of_string (map fields w) 2 = Ok (map Spec.forward recs) /\
  float_column float_of_string (map fields w) 3 = Ok (map Spec.reverse recs) /\
  float_column float_of_string (map fields w) 4 = Ok (map Spec.lm recs) /\
  float_column float_of_string (map fields w) 5 = Ok (map Spec.src_len recs) /\
  float_column float_of_string (map fields w) 6 = Ok (map Spec.tgt_len recs).
Proof.
  intros Hall. unfold column, float_column.
  split; [|repeat split; apply comprehension_map].
  - induction Hall as [|line r w recs (f & rv & l & sl & tl & Hf & _) _ IH]; simpl;
      [reflexivity|]. rewrite Hf. exact IH.
  - induction Hall as [|line r w recs (f & rv & l & sl & tl & Hf & _) _ IH]; simpl;
      constructor; [now rewrite Hf | exact IH].
  - induction Hall as [|line r w recs (f & rv & l & sl & tl & Hf & _) _ IH]; simpl;
      constructor; [now rewrite Hf | exact IH].
  - induction Hall as [|line r w recs (f & rv & l & sl & tl & Hf & H1 & _) _ IH]; simpl;
      constructor; [now rewrite Hf | exact IH].
  - induction Hall as [|line r w recs (f & rv & l & sl & tl & Hf & _ & H2 & _) _ IH]; simpl;
      constructor; [now rewrite Hf | exact IH].
  - induction Hall as [|line r w recs (f & rv & l & sl & tl & Hf & _ & _ & H3 & _) _ IH];
      simpl; constructor; [now rewrite Hf | exact IH].
  - induction Hall as [|line r w recs (f & rv & l & sl & tl & Hf & _ & _ & _ & H4 & _) _ IH];
      simpl; constructor; [now rewrite Hf | exact IH].
  - induction Hall as [|line r w recs (f & rv & l & sl & tl & Hf & _ & _ & _ & _ & H5) _ IH];
      simpl; constructor; [now rewrite Hf | exact IH].
Qed.

Lemma Forall2_length_eq {A B : Type} (R : A -> B -> Prop) (l : list A) (l' : list B) :
  Forall2 R l l' -> List.length l = List.length l'.
Proof. induction 1; simpl; congruence. Qed.

Lemma Forall_zsim_number (fused scores : list float) :
  Forall2 (fun s s' => zsim (Prim2SF s) (Prim2SF s')) fused scores ->
  Forall (fun s => PrimFloat.is_nan s = false) scores ->
  Forall (fun s => PrimFloat.is_nan s = false) fused.
Proof.
  induction 1 as [|s s' fused scores Hs _ IH]; intros Hnum; constructor.
  - rewrite (is_nan_zsim _ _ Hs). now inversion Hnum.
  - apply IH. now inversion Hnum.
Qed.

(** A full window whose lines read as records with fused scores by the
    formula, no divisor zero and no score NaN: the target text of the first
    maximum is selected. *)
Lemma rerank_window_selects (w : list string) (recs : list Spec.score_record)
    (scores : list float) :
  w <> [] ->
  Forall2 (Spec.reads float_of_string) w recs ->
  Forall (fun r => Spec.divisors_not_zero float_pow args r = true) recs ->
  Forall2 (fun r s => Spec.fused_score float_pow args r = Ok s) recs scores ->
  Forall (fun s => PrimFloat.is_nan s = false) scores ->
  exists text,
    rerank_window float_pow float_of_string args (map fields w) = Ok text /\
    Spec.window_selection recs scores text.
Proof.
  intros Hne Hreads Hdiv Hscores Hnum.
  destruct (reads_columns w recs Hreads) as (H7 & H0 & H1 & H2 & H3 & H4 & H5 & H6).
  destruct (score_fusion_fused float_pow args recs scores Hdiv Hscores)
    as (fused & Hfused & Hsim).
  unfold rerank_window. rewrite H7, H0, H1, H2, H3, H4, H5, H6. simpl.
  rewrite Hfused. simpl. rewrite (argmax_zsim _ _ Hsim).
  assert (Hlen : List.length w = List.length scores).
  { rewrite (Forall2_length_eq _ _ _ Hreads). apply (Forall2_length_eq _ _ _ Hscores). }
  destruct (argmax_first_maximum scores) as (best & -> & Hbest); [|exact Hnum|].
  { intros ->. destruct w; [congruence | discriminate]. }
  simpl. destruct Hbest as (top & Htop & Hle & Hlt).
  assert (Hlt' : (best < List.length recs)%nat).
  { rewrite (Forall2_length_eq _ _ _ Hscores). apply nth_error_Some. congruence. }
  destruct (nth_error recs best) as [r|] eqn:Er; [|apply nth_error_None in Er; lia].
  exists (Spec.tgt_txt r). split.
  - unfold field. now rewrite nth_error_map, Er.
  - exists best, r. split; [exact Er|]. split; [reflexivity|]. exists top. auto.
Qed.

End Window.

(** ** The reranker on a cached score file *)

Section Rerank.
Import FloatOrder Reranker.

Variable float_pow : float -> float -> result float.
Variable float_of_string : string -> result float.
Variable world : World.
Variable srctext_rerank : Args -> io (list string).
Variable write_scores_file : Args -> io unit.

Lemma windows_select (args : Args) (ws : list (list string))
    (recs : list (list Spec.score_record)) (scores : list (list float)) :
  Forall (fun w => Z.of_nat (List.length w) = beam_size args /\ w <> []) ws ->
  Forall2 (Forall2 (Spec.reads float_of_string)) ws recs ->
  Forall (Forall (fun r => Spec.divisors_not_zero float_pow args r = true)) recs ->
  Forall2 (Forall2 (fun r s => Spec.fused_score float_pow args r = Ok s)) recs scores ->
  Forall (Forall (fun s => PrimFloat.is_nan s = false)) scores ->
  exists out,
    Megatron.comprehension
      (fun w => rerank_window float_pow float_of_string args (map fields w)) ws = Ok out /\
    Forall2 (fun rs text => Spec.window_selection (fst rs) (snd rs) text)
            (combine recs scores) out.
Proof.
  intros Hws Hreads. revert scores Hws.
  induction Hreads as [|w rw ws recs Hw _ IH]; intros scores Hws Hdiv Hscores Hnum.
  - inversion Hscores. subst. exists []. split; [reflexivity | constructor].
  - inversion Hscores as [|rw' sw recs' scores' Hsw Hrest]. subst.
    inversion Hws as [|w' ws' [_ Hne] Hws']. subst.
    inversion Hdiv as [|rw'' recs'' Hdw Hdrest]. subst.
    inversion Hnum as [|sw' scores'' Hnw Hnrest]. subst.
    destruct (rerank_window_selects float_pow float_of_string args w rw sw Hne Hw Hdw Hsw Hnw)
      as (text & Hrun & Hsel).
    destruct (IH scores' Hws' Hdrest Hrest Hnrest) as (out & Hout & Hall).
    exists (text :: out). simpl. rewrite Hrun. simpl. rewrite Hout. simpl.
    split; [reflexivity | now constructor].
Qed.

(** C2: on a cached score file, for every window of [beam_size] lines that
    read as records, no divisor of the formula zero and no fused score NaN,
    the reranker writes the target text of the record with the largest fused
    score, the first of them on a tie; the fused score the code computes is
    the number the formula of the specification gives (weighted sum of the
    scores, each divided by its length under length normalization, the sum
    divided by ((5 + target length) / 6) ** len_pen under a penalty). With
    scores -2.0, -3.0 and -1.0, coefficients 1.0, 0.7 and 0.07, no
    normalization and no penalty the fused score is -4.17, by the code and
    by the formula. *)
Theorem C2_rerank_writes_first_maximum :
  (forall sl tl,
      fuse float_pow Samples.cached_args (-2.0)%float (-3.0)%float (-1.0)%float sl tl
      = Ok (-4.17)%float /\
      Spec.fused_score float_pow Samples.cached_args
        {| Spec.src_txt := EmptyString; Spec.tgt_txt := EmptyString;
           Spec.forward := (-2.0)%float; Spec.reverse := (-3.0)%float;
           Spec.lm := (-1.0)%float; Spec.src_len := sl; Spec.tgt_len := tl |}
      = Ok (-4.17)%float) /\
  (forall args path ws tail recs scores,
      cached_mode args path ->
      read_lines world path = Ok (List.concat ws ++ tail)%list ->
      Forall (fun w => Z.of_nat (List.length w) = beam_size args /\ w <> []) ws ->
      Z.of_nat (List.length tail) < beam_size args ->
      Forall2 (Forall2 (Spec.reads float_of_string)) ws recs ->
      Forall (Forall (fun r => Spec.divisors_not_zero float_pow args r = true)) recs ->
      Forall2 (Forall2 (fun r s => Spec.fused_score float_pow args r = Ok s)) recs scores ->
      Forall (Forall (fun s => PrimFloat.is_nan s = false)) scores ->
      exists out,
        main float_pow float_of_string world srctext_rerank write_scores_file args
        = ([ReadFile path; WriteFile (tgtout args) out],
           write_lines world (tgtout args) out) /\
        Forall2 (fun rs text => Spec.window_selection (fst rs) (snd rs) text)
                (combine recs scores) out /\
        Forall2 (Forall2 (fun r s =>
                   exists s', fuse float_pow args (Spec.forward r) (Spec.reverse r) (Spec.lm r)
                                (Spec.src_len r) (Spec.tgt_len r) = Ok s' /\
                              Spec.same_number s' s)) recs scores).
Proof.
  split.
  - intros sl tl. split; reflexivity.
  - intros args path ws tail recs scores Hmode Hread Hws Htail Hreads Hdiv Hscores Hnum.
    destruct (windows_select args ws recs scores Hws Hreads Hdiv Hscores Hnum)
      as (out & Hout & Hsel).
    exists out. split; [|split; [exact Hsel|]].
    + rewrite (main_cached float_pow float_of_string world srctext_rerank write_scores_file
                 args path _ Hmode Hread).
      rewrite rerank_cached_windows by assumption. now rewrite Hout.
    + clear - Hdiv Hscores. revert Hdiv.
      induction Hscores as [|rw sw recs scores Hrw _ IH]; intros Hdiv; constructor.
      * inversion Hdiv as [|rw' recs' Hdw _]. subst. clear - Hrw Hdw.
        induction Hrw as [|r s rw sw Hr _ IH]; constructor.
        -- inversion Hdw as [|r' rw' Hd _]. subst.
           pose proof (fuse_fused_score float_pow args r Hd) as Hone. rewrite Hr in Hone.
           destruct (fuse float_pow args _ _ _ _ _) as [s'|e]; [|contradiction].
           exists s'. split; [reflexivity|]. now apply zsim_same_number.
        -- apply IH. now inversion Hdw.
      * apply IH. now inversion Hdiv.
Qed.

End Rerank.

(** Witness of C2: the sample file under length normalization and a length
    penalty of 1; its one full window selects a candidate of the largest
    fused score, and the code's fused scores of the two candidates are the
    formula's. *)
Lemma C2_sample_window_witness :
  exists out,
    Reranker.main Instances.pow_exact Instances.float_of_decimal Samples.world
      Samples.no_srctext_rerank Samples.no_write_scores_file Samples.cached_args_penalized
    = ([Reranker.ReadFile "scores.tsv"; Reranker.WriteFile "out.txt" out], Ok tt) /\
    Forall2 (fun rs text => Spec.window_selection (fst rs) (snd rs) text)
      (combine [[Samples.first_record; Samples.second_record]]
               [map (Samples.score_of Samples.cached_args_penalized)
                    [Samples.first_record; Samples.second_record]])
      out /\
    Forall2 (Forall2 (fun r s =>
               exists s', Reranker.fuse Instances.pow_exact Samples.cached_args_penalized
                            (Spec.forward r) (Spec.reverse r) (Spec.lm r)
                            (Spec.src_len r) (Spec.tgt_len r) = Ok s' /\
                          Spec.same_number s' s))
      [[Samples.first_record; Samples.second_record]]
      [map (Samples.score_of Samples.cached_args_penalized)
           [Samples.first_record; Samples.second_record]].
Proof.
  destruct (proj2 (C2_rerank_writes_first_maximum
                     Instances.pow_exact Instances.float_of_decimal Samples.world
                     Samples.no_srctext_rerank Samples.no_write_scores_file)
              Samples.cached_args_penalized "scores.tsv"
              [[Samples.score_line "quelle" "first" "-2.0" "-3.0" "-1.0" "3" "2";
                Samples.score_line "quelle" "second" "-1.5" "-3.0" "-1.0" "3" "2"]]
              [Samples.score_line "bach" "third" "-1.0" "-1.0" "-1.0" "1" "1"]
              [[Samples.first_record; Samples.second_record]]
              [map (Samples.score_of Samples.cached_args_penalized)
                   [Samples.first_record; Samples.second_record]])
    as (out & Hmain & Hsel & Hfused).
  - repeat split.
  - reflexivity.
  - constructor; [split; [reflexivity | discriminate] | constructor].
  - reflexivity.
  - constructor; [|constructor]. constructor; [|constructor; [|constructor]].
    + exists "-2.0", "-3.0", "-1.0", "3", "2". repeat split; vm_compute; reflexivity.
    + exists "-1.5", "-3.0", "-1.0", "3", "2". repeat split; vm_compute; reflexivity.
  - constructor; [|constructor]. constructor; [|constructor; [|constructor]];
      vm_compute; reflexivity.
  - constructor; [|constructor]. constructor; [|constructor; [|constructor]];
      vm_compute; reflexivity.
  - constructor; [|constructor]. constructor; [|constructor; [|constructor]];
      vm_compute; reflexivity.
  - exists out. split; [exact Hmain | split; [exact Hsel | exact Hfused]].
Defined.

(** ** Rank injection *)

(** C7: a checkpoint path without a directory part is resolved to a path
    under the root, and resolving the result again gives yet another path:
    the resolver is not idempotent there. A path with a directory part is
    resolved to the same path both times. *)
Theorem C7_bare_file_name_not_idempotent :
  Megatron.megatron_lm_inject_model_parallel_rank Samples.two_way "model_optim_rng.pt"
  = "/mp_rank_00/model_optim_rng.pt" /\
  Megatron.megatron_lm_inject_model_parallel_rank Samples.two_way
    (Megatron.megatron_lm_inject_model_parallel_rank Samples.two_way "model_optim_rng.pt")
  = "//mp_rank_00/model_optim_rng.pt" /\
  Megatron.megatron_lm_inject_model_parallel_rank Samples.two_way "ckpts/model_optim_rng.pt"
  = "ckpts/mp_rank_00/model_optim_rng.pt" /\
  Megatron.megatron_lm_inject_model_parallel_rank Samples.two_way
    (Megatron.megatron_lm_inject_model_parallel_rank Samples.two_way "ckpts/model_optim_rng.pt")
  = "ckpts/mp_rank_00/model_optim_rng.pt" /\
  Megatron.megatron_lm_inject_model_parallel_rank Samples.grid
    (Megatron.megatron_lm_inject_model_parallel_rank Samples.grid "ckpts/model_optim_rng.pt")
  = "ckpts/mp_rank_01_012/model_optim_rng.pt".
Proof.
  repeat split; vm_compute; reflexivity.
Qed.

(** ** Paths with a directory part *)

Section Paths.
Import PyStr.

Local Abbreviation no_slash s := (after_last "/" s = O).

Lemma append_assoc (a b c : string) : (a ++ b) ++ c = a ++ b ++ c.
Proof. induction a as [|x a IH]; simpl; [reflexivity | now rewrite IH]. Qed.

Lemma after_last_sep (x y : string) :
  no_slash y -> after_last "/" (x ++ String "/" y) = S (String.length x).
Proof.
  intros Hy. induction x as [|a x IH]; simpl.
  - now rewrite Hy.
  - now rewrite IH.
Qed.

Lemma take_sep (x y : string) :
  take (S (String.length x)) (x ++ String "/" y) = x ++ "/".
Proof. induction x as [|a x IH]; simpl; [reflexivity | now rewrite <- IH]. Qed.

Lemma drop_sep (x y : string) :
  drop (S (String.length x)) (x ++ String "/" y) = y.
Proof. induction x as [|a x IH]; simpl; [now destruct y | exact IH]. Qed.

Lemma all_char_app (c : ascii) (x y : string) :
  all_char c (x ++ y) = all_char c x && all_char c y.
Proof.
  induction x as [|a x IH]; simpl; [reflexivity|].
  rewrite IH. now rewrite andb_assoc.
Qed.

Lemma rstrip_char_sep (x : string) :
  rstrip_char "/" (x ++ "/") = rstrip_char "/" x.
Proof. induction x as [|a x IH]; simpl; [reflexivity | now rewrite IH]. Qed.

(** The directory and the file name of a path that ends in a separator and
    a name without one. *)
Lemma basename_sep (x y : string) : no_slash y -> Path.basename (x ++ String "/" y) = y.
Proof.
  intros Hy. unfold Path.basename. rewrite after_last_sep by exact Hy. apply drop_sep.
Qed.

Lemma dirname_sep (x y : string) :
  no_slash y ->
  Path.dirname (x ++ String "/" y) =
  if all_char "/" x then x ++ "/" else rstrip_char "/" x.
Proof.
  intros Hy. unfold Path.dirname. rewrite after_last_sep by exact Hy. rewrite take_sep.
  rewrite all_char_app, rstrip_char_sep. simpl. rewrite andb_true_r.
  destruct (x ++ "/") eqn:E; [now destruct x|].
  reflexivity.
Qed.

Lemma basename_no_slash (p : string) : no_slash (Path.basename p).
Proof.
  unfold Path.basename. induction p as [|a p IH]; simpl; [reflexivity|].
  destruct (after_last "/" p) as [|n] eqn:E.
  - destruct (Ascii.eqb a "/") eqn:Ea; simpl.
    + destruct p; [reflexivity | exact E].
    + now rewrite E, Ea.
  - exact IH.
Qed.

Lemma rstrip_char_idem (c : ascii) (s : string) :
  rstrip_char c (rstrip_char c s) = rstrip_char c s.
Proof.
  induction s as [|a s IH]; simpl; [reflexivity|].
  destruct (rstrip_char c s) as [|b r] eqn:E.
  - destruct (Ascii.eqb a c) eqn:Ea; simpl; [reflexivity | now rewrite Ea].
  - simpl. simpl in IH. destruct (rstrip_char c r) as [|b' r'] eqn:E'.
    + destruct (Ascii.eqb b c); [discriminate | now rewrite IH].
    + now rewrite IH.
Qed.

(** A directory part that is neither empty nor made of separators has no
    trailing separator. *)
Lemma dirname_stripped (q : string) :
  Path.dirname q <> EmptyString ->
  all_char "/" (Path.dirname q) = false ->
  rstrip_char "/" (Path.dirname q) = Path.dirname q.
Proof.
  unfold Path.dirname.
  destruct (take (after_last "/" q) q) as [|a h] eqn:E; [congruence|].
  destruct (all_char "/" (String a h)) eqn:Eall; [congruence|].
  intros _ _. apply rstrip_char_idem.
Qed.

Lemma rstrip_char_no_slash (z : string) : no_slash z -> rstrip_char "/" z = z.
Proof.
  induction z as [|a z IH]; simpl; [reflexivity|].
  destruct (after_last "/" z) as [|n] eqn:E; [|discriminate].
  destruct (Ascii.eqb a "/") eqn:Ea; [discriminate|]. intros _.
  rewrite IH by reflexivity. destruct z; reflexivity.
Qed.

Lemma rstrip_char_app_name (x z : string) :
  no_slash z -> z <> EmptyString -> rstrip_char "/" (x ++ z) = x ++ z.
Proof.
  intros Hz Hne. induction x as [|a x IH]; simpl.
  - now apply rstrip_char_no_slash.
  - rewrite IH. destruct (x ++ z) eqn:E; [|reflexivity].
    destruct x; simpl in E; [congruence | discriminate].
Qed.

Lemma no_slash_not_prefixed (b : string) : no_slash b -> String.prefix "/" b = false.
Proof.
  destruct b as [|a b]; [reflexivity|]. intros H.
  cbn [String.prefix]. destruct (Ascii.ascii_dec "/" a) as [<- | Hne]; [|reflexivity].
  cbn [after_last] in H. rewrite Ascii.eqb_refl in H.
  destruct (after_last "/" b); discriminate.
Qed.

Lemma endswith_sep_cons (a : ascii) (s : string) :
  endswith (String a s) "/" =
  match s with
  | EmptyString => Ascii.eqb a "/"
  | String _ _ => endswith s "/"
  end.
Proof.
  unfold endswith. simpl.
  destruct s as [|b s]; simpl; [now rewrite andb_true_r|].
  destruct (rev (list_ascii_of_string s) ++ [b])%list as [|x l] eqn:E.
  - destruct (rev (list_ascii_of_string s)); discriminate.
  - simpl. now destruct l.
Qed.

Lemma stripped_not_ending (d : string) :
  rstrip_char "/" d = d -> d <> EmptyString -> endswith d "/" = false.
Proof.
  induction d as [|a d IH]; [congruence|]. intros Hs _.
  rewrite endswith_sep_cons. simpl in Hs.
  destruct d as [|b d].
  - simpl in Hs. destruct (Ascii.eqb a "/"); [discriminate | reflexivity].
  - destruct (rstrip_char "/" (String b d)) as [|b' r] eqn:E.
    + destruct (Ascii.eqb a "/"); discriminate.
    + apply IH; [congruence | discriminate].
Qed.

Lemma no_slash_app (x y : string) : no_slash x -> no_slash y -> no_slash (x ++ y).
Proof.
  intros Hx Hy. induction x as [|a x IH]; simpl; [exact Hy|].
  simpl in Hx. destruct (after_last "/" x); [|discriminate].
  rewrite IH by reflexivity. exact Hx.
Qed.

Lemma no_slash_zeros (n : nat) : no_slash (Megatron.zeros n).
Proof. induction n as [|n IH]; simpl; [reflexivity | now rewrite IH]. Qed.

Lemma no_slash_digits (u : Decimal.uint) : no_slash (NilEmpty.string_of_uint u).
Proof. induction u; simpl; rewrite ?IHu; reflexivity. Qed.

Lemma no_slash_format (width : nat) (z : Z) : no_slash (Megatron.format_d width z).
Proof.
  assert (Hd : no_slash (NilZero.string_of_uint (N.to_uint (Z.abs_N z)))).
  { unfold NilZero.string_of_uint. destruct (N.to_uint (Z.abs_N z)) eqn:E;
      try reflexivity; rewrite <- E; apply no_slash_digits. }
  unfold Megatron.format_d. destruct (z <? 0).
  - apply (no_slash_app "-"); [reflexivity|]. apply no_slash_app; [apply no_slash_zeros | exact Hd].
  - apply no_slash_app; [apply no_slash_zeros | exact Hd].
Qed.

Lemma prefix_app (s x : string) : String.prefix s (s ++ x) = true.
Proof.
  induction s as [|a s IH]; simpl; [now destruct x|].
  destruct (Ascii.ascii_dec a a); [exact IH | congruence].
Qed.

Lemma rank_segment_shape (st : Megatron.AppState) :
  no_slash (Megatron.rank_segment st) /\
  String.prefix "mp_rank_" (Megatron.rank_segment st) = true /\
  Megatron.rank_segment st <> EmptyString.
Proof.
  unfold Megatron.rank_segment.
  destruct (Megatron.pipeline_model_parallel_size st) as [pp|]; [destruct (pp =? 1)|];
    (split; [|split; [apply prefix_app | discriminate]]);
    repeat (apply no_slash_app; [try reflexivity; apply no_slash_format|]);
    try apply no_slash_format.
Qed.

(** Under model parallelism the resolver puts the rank segment between the
    directory and the file name of the stripped path. *)
Lemma inject_with_segment (uninject : string -> string) (st : Megatron.AppState)
    (mp : Z) (p : string) :
  Megatron.model_parallel_size st = Some mp -> 1 < mp ->
  Megatron.inject_with uninject st p =
  Path.dirname (uninject p) ++ String "/" (Megatron.rank_segment st
    ++ String "/" (Path.basename (uninject p))).
Proof.
  intros Hmp Hgt. unfold Megatron.inject_with, Megatron.rank_segment. rewrite Hmp.
  replace (1 <? mp) with true by (symmetry; now apply Z.ltb_lt).
  destruct (Megatron.pipeline_model_parallel_size st) as [pp|]; [destruct (pp =? 1)|];
    simpl; rewrite ?append_assoc; reflexivity.
Qed.

(** Stripping the rank segment from a resolved path gives back directory
    and file name. *)
Lemma uninject_resolved (d seg b : string) :
  d <> EmptyString -> all_char "/" d = false -> rstrip_char "/" d = d ->
  no_slash seg -> String.prefix "mp_rank_" seg = true -> seg <> EmptyString ->
  no_slash b ->
  Megatron.uninject_model_parallel_rank (d ++ String "/" (seg ++ String "/" b)) =
  d ++ String "/" b.
Proof.
  intros Hd Hall Hstrip Hseg Hpre Hne Hb.
  unfold Megatron.uninject_model_parallel_rank.
  replace (d ++ String "/" (seg ++ String "/" b)) with ((d ++ String "/" seg) ++ String "/" b)
    by (rewrite append_assoc; reflexivity).
  rewrite (dirname_sep _ b Hb), (basename_sep _ b Hb).
  rewrite all_char_app, Hall. simpl.
  replace (d ++ String "/" seg) with ((d ++ "/") ++ seg) by (rewrite append_assoc; reflexivity).
  rewrite (rstrip_char_app_name _ seg Hseg Hne).
  replace ((d ++ "/") ++ seg) with (d ++ String "/" seg) by (rewrite append_assoc; reflexivity).
  rewrite (basename_sep _ seg Hseg), Hpre, (dirname_sep _ seg Hseg), Hall, Hstrip.
  unfold Path.join. rewrite (no_slash_not_prefixed b Hb).
  destruct d as [|a d']; [congruence|].
  now rewrite (stripped_not_ending _ Hstrip Hd).
Qed.

(** X2: where the stripped path has a directory part that is not made of
    separators alone, resolving under model parallelism is idempotent. *)
Theorem inject_idempotent_with_directory (st : Megatron.AppState) (mp : Z) (p : string) :
  Megatron.model_parallel_size st = Some mp -> 1 < mp ->
  Path.dirname (Megatron.uninject_model_parallel_rank p) <> EmptyString ->
  all_char "/" (Path.dirname (Megatron.uninject_model_parallel_rank p)) = false ->
  Megatron.megatron_lm_inject_model_parallel_rank st
    (Megatron.megatron_lm_inject_model_parallel_rank st p)
  = Megatron.megatron_lm_inject_model_parallel_rank st p.
Proof.
  intros Hmp Hgt Hd Hall. unfold Megatron.megatron_lm_inject_model_parallel_rank.
  rewrite !(inject_with_segment _ st mp _ Hmp Hgt).
  set (q := Megatron.uninject_model_parallel_rank p) in *.
  destruct (rank_segment_shape st) as (Hseg & Hpre & Hne).
  pose proof (dirname_stripped q Hd Hall) as Hstrip.
  pose proof (basename_no_slash q) as Hb.
  rewrite (uninject_resolved _ _ _ Hd Hall Hstrip Hseg Hpre Hne Hb).
  rewrite (dirname_sep _ _ Hb), (basename_sep _ _ Hb), Hall, Hstrip. reflexivity.
Qed.

End Paths.

(** The resolver on the sample path with a directory. *)
Lemma inject_idempotent_witness :
  Megatron.megatron_lm_inject_model_parallel_rank Samples.grid
    (Megatron.megatron_lm_inject_model_parallel_rank Samples.grid "ckpts/model_optim_rng.pt")
  = Megatron.megatron_lm_inject_model_parallel_rank Samples.grid "ckpts/model_optim_rng.pt".
Proof.
  apply (inject_idempotent_with_directory Samples.grid 64 "ckpts/model_optim_rng.pt" eq_refl eq_refl).
  - discriminate.
  - reflexivity.
Defined.

(** ** parse_weights: the walk as a list of leaves *)

Section Walking.

Variable translator : Dict.t string.

Lemma store_raise (entries : list (string * value)) (e : exn) :
  fold_left Walk.store entries (Raise e) = Raise e.
Proof. induction entries as [|x xs IH]; simpl; auto. Qed.

Lemma parse_node_leaves (node : value) :
  forall parent_key st,
    Megatron.parse_node translator node parent_key st =
    match node with
    | VDict _ => fold_left Walk.store (Walk.leaves translator node parent_key) (Ok st)
    | _ => Raise TypeError
    end.
Proof.
  induction node using Walk.value_nested_ind; intros parent_key st; try reflexivity.
  simpl. revert st. induction H as [|[key child] rest Hc Hrest IH]; intros st.
  - reflexivity.
  - simpl in Hc. rewrite fold_left_app.
    destruct child as [| | | | |w| | |];
    try (unfold Megatron.parse_leaf; simpl; rewrite ?IH, ?store_raise; reflexivity).
    rewrite Hc. destruct (fold_left Walk.store _ (Ok st)) eqn:E.
    + simpl. apply IH.
    + simpl. rewrite store_raise. reflexivity.
Qed.

Lemma store_tensors (entries : list (string * value)) :
  forall total converted,
    fold_left Walk.store entries (Ok (total, converted)) =
    if forallb (fun entry => Walk.is_tensor (snd entry)) entries
    then Ok (total + Walk.count_elements entries, Walk.assign_all converted entries)
    else Raise (AttributeError "cpu").
Proof.
  induction entries as [|[key leaf] rest IH]; intros total converted.
  - simpl. f_equal. f_equal. lia.
  - destruct leaf; try (simpl; apply store_raise).
    cbn [fold_left Walk.store bind fst snd forallb Walk.is_tensor andb
         Walk.count_elements Walk.assign_all].
    rewrite IH. destruct (forallb _ rest); [|reflexivity].
    f_equal. f_equal. lia.
Qed.

Lemma parse_weights_leaves (weight_dict : Dict.t value) (parent_key : string)
    (total : Z) (converted : Dict.t Megatron.tensor) :
  Megatron.parse_weights weight_dict parent_key total converted translator =
  if forallb (fun entry => Walk.is_tensor (snd entry))
       (Walk.leaves translator (VDict weight_dict) parent_key)
  then Ok (total + Walk.count_elements (Walk.leaves translator (VDict weight_dict) parent_key),
           Walk.assign_all converted (Walk.leaves translator (VDict weight_dict) parent_key))
  else Raise (AttributeError "cpu").
Proof.
  unfold Megatron.parse_weights. rewrite parse_node_leaves. apply store_tensors.
Qed.

(** X3: the walk succeeds exactly when every leaf is a tensor. It then adds the
    number of elements of every leaf to the total and assigns every leaf,
    in visiting order, under its dotted key; on any other leaf it raises
    AttributeError. *)
Theorem parse_weights_flattens (weight_dict : Dict.t value) (parent_key : string)
    (total : Z) (converted : Dict.t Megatron.tensor) :
  let entries := Walk.leaves translator (VDict weight_dict) parent_key in
  Megatron.parse_weights weight_dict parent_key total converted translator =
  if forallb (fun entry => Walk.is_tensor (snd entry)) entries
  then Ok (total + Walk.count_elements entries, Walk.assign_all converted entries)
  else Raise (AttributeError "cpu").
Proof. intros entries. apply parse_weights_leaves. Qed.

Lemma keys_set_in {V : Type} (d : Dict.t V) (k k' : string) (v : V) :
  In k (Dict.keys (Dict.set d k' v)) -> k = k' \/ In k (Dict.keys d).
Proof.
  induction d as [|[k0 v0] d IH]; simpl.
  - intros [H|[]]; auto.
  - destruct (String.eqb k0 k') eqn:E; simpl.
    + intros [H|H]; auto.
    + intros [H|H]; auto. destruct (IH H); auto.
Qed.

Lemma assign_all_keys (entries : list (string * value)) :
  forall converted k,
    In k (Dict.keys (Walk.assign_all converted entries)) ->
    In k (Dict.keys converted) \/ In k (map fst entries).
Proof.
  induction entries as [|[key leaf] rest IH]; intros converted k Hk.
  - now left.
  - destruct leaf; simpl in Hk |- *;
      try (destruct (IH _ _ Hk); [now left | now right; right]).
    destruct (IH _ _ Hk) as [H|H]; [|now right; right].
    apply keys_set_in in H. destruct H; [right; left; congruence | now left].
Qed.

Lemma leaves_prefixed (node : value) :
  forall parent_key,
    Forall (fun entry => exists rest, fst entry = "model" ++ parent_key ++ "." ++ rest)
      (Walk.leaves translator node parent_key).
Proof.
  induction node using Walk.value_nested_ind; intros parent_key; try apply Forall_nil.
  simpl. induction H as [|[key child] rest Hc Hrest IH].
  - apply Forall_nil.
  - apply Forall_app. split; [|exact IH].
    simpl in Hc. destruct child;
      try (apply Forall_cons; [eexists; reflexivity | apply Forall_nil]).
    eapply Forall_impl; [|apply Hc].
    intros entry (rest' & E). exists (Megatron.translate_key translator key ++ "." ++ rest').
    rewrite E. simpl. rewrite append_assoc. reflexivity.
Qed.

Lemma assign_all_other (entries : list (string * value)) :
  forall converted k,
    ~ In k (map fst entries) ->
    Dict.get (Walk.assign_all converted entries) k = Dict.get converted k.
Proof.
  induction entries as [|[key leaf] rest IH]; intros converted k Hk.
  - reflexivity.
  - simpl in Hk. destruct leaf; simpl; try (apply IH; tauto).
    rewrite IH by tauto. apply dict_get_set_other. intros ->. tauto.
Qed.

Lemma parse_weights_namespace (weight_dict : Dict.t value) (parent_key : string)
    (total : Z) (converted : Dict.t Megatron.tensor) (st : Megatron.walk_state) :
  Megatron.parse_weights weight_dict parent_key total converted translator = Ok st ->
  forall k,
    (In k (Dict.keys (snd st)) ->
     In k (Dict.keys converted) \/ exists rest, k = "model" ++ parent_key ++ "." ++ rest) /\
    ((forall rest, k <> "model" ++ parent_key ++ "." ++ rest) ->
     Dict.get (snd st) k = Dict.get converted k).
Proof.
  rewrite parse_weights_leaves.
  destruct (forallb _ _); [|discriminate].
  intros E k. inversion E; subst st; clear E. simpl.
  pose proof (leaves_prefixed (VDict weight_dict) parent_key) as Hall.
  rewrite Forall_forall in Hall. split.
  - intros Hk. apply assign_all_keys in Hk. destruct Hk as [H|H]; [now left|right].
    apply in_map_iff in H. destruct H as (entry & <- & Hin).
    exact (Hall _ Hin).
  - intros Hk. apply assign_all_other. intros H.
    apply in_map_iff in H. destruct H as (entry & <- & Hin).
    destruct (Hall _ Hin) as (rest & E). exact (Hk rest E).
Qed.

(** X4: the walk writes only inside its own namespace: every key it leaves in
    [converted] was there before or begins with "model", the parent key
    and a dot, and the entries under any other key are what they were. *)
Theorem parse_weights_keys_prefixed (weight_dict : Dict.t value) (parent_key : string)
    (total : Z) (converted : Dict.t Megatron.tensor) (st : Megatron.walk_state) :
  Megatron.parse_weights weight_dict parent_key total converted translator = Ok st ->
  forall k,
    (In k (Dict.keys (snd st)) ->
     In k (Dict.keys converted) \/ exists rest, k = "model" ++ parent_key ++ "." ++ rest) /\
    ((forall rest, k <> "model" ++ parent_key ++ "." ++ rest) ->
     Dict.get (snd st) k = Dict.get converted k).
Proof. apply parse_weights_namespace. Qed.

(** A key in which no rule's pattern occurs is kept as it is. *)
Lemma translate_loop_no_match (rules : Dict.t string) (key new_key : string) :
  Forall (fun rule => PyStr.find key (fst rule) < 0) rules ->
  Megatron.translate_loop rules key new_key = new_key.
Proof.
  intros H. revert new_key. induction H as [|[p r] rules Hp _ IH]; intros new_key; simpl.
  - reflexivity.
  - simpl in Hp. rewrite IH. destruct (Z.leb_spec 0 (PyStr.find key p)); [lia | reflexivity].
Qed.

(** X5: of the rules whose pattern occurs in the key, the last one in the
    order of the translator decides: the translated key is that rule's
    replacement applied to the key, whatever the earlier rules are. *)
Theorem translate_key_last_match (before after : Dict.t string)
    (pattern replacement key : string) :
  0 <= PyStr.find key pattern ->
  Forall (fun rule => PyStr.find key (fst rule) < 0) after ->
  Megatron.translate_key (before ++ (pattern, replacement) :: after)%list key =
  PyStr.replace key pattern replacement.
Proof.
  intros Hp Hafter. unfold Megatron.translate_key.
  generalize key at 2. induction before as [|[p r] before IH]; intros new_key; simpl.
  - rewrite translate_loop_no_match by exact Hafter.
    destruct (Z.leb_spec 0 (PyStr.find key pattern)); [reflexivity | lia].
  - apply IH.
Qed.

End Walking.

(** The sample weight tree walked with the rules of [convert]: the key of
    the fused projection begins with "model.". *)
Lemma parse_weights_keys_prefixed_witness :
  exists st,
    Megatron.parse_weights Examples.weights "" 0 [] Megatron.name_translate = Ok st /\
    forall k,
      (In k (Dict.keys (snd st)) ->
       In k (Dict.keys (@nil (string * Megatron.tensor))) \/
       exists rest, k = "model" ++ "" ++ "." ++ rest) /\
      ((forall rest, k <> "model" ++ "" ++ "." ++ rest) ->
       Dict.get (snd st) k = Dict.get [] k).
Proof.
  eexists. split.
  - vm_compute. reflexivity.
  - apply (parse_weights_keys_prefixed Megatron.name_translate Examples.weights "" 0 []).
    vm_compute. reflexivity.
Defined.

(** The rules of [convert] on a key in which the first two patterns occur. *)
Lemma translate_key_last_match_witness :
  Megatron.translate_key Megatron.name_translate "transformer.attention.w" =
  PyStr.replace "transformer.attention.w" ".attention." ".self_attention.".
Proof.
  apply (translate_key_last_match [("transformer", "encoder")]
           [("word_embeddings_for_head", "word_embeddings")]
           ".attention." ".self_attention." "transformer.attention.w").
  - vm_compute. discriminate.
  - repeat constructor.
Defined.

(** ** load_from_checkpoint: what the migration leaves alone, and what it refuses *)

Section MigrationFrame.
Import Megatron.

Lemma keys_set_present {V : Type} (d : Dict.t V) (k : string) (v v' : V) :
  Dict.get d k = Some v -> Dict.keys (Dict.set d k v') = Dict.keys d.
Proof.
  induction d as [|[k0 v0] d IH]; simpl.
  - discriminate.
  - destruct (String.eqb_spec k0 k).
    + subst k0. reflexivity.
    + intros H. simpl. f_equal. apply IH, H.
Qed.

Lemma migrate_keys_frame (f : tensor -> result tensor) (keys : list string) :
  forall sd sd',
    migrate_keys f keys sd = Ok sd' ->
    Dict.keys sd' = Dict.keys sd /\
    forall key, mentions_qkv key = false -> Dict.get sd' key = Dict.get sd key.
Proof.
  induction keys as [|k keys IH]; intros sd sd'; simpl.
  - intros E. inversion E. auto.
  - fold (mentions_qkv k). destruct (mentions_qkv k) eqn:Ek.
    + intros E.
      apply bind_ok_inv in E. destruct E as (w & Hw & E).
      apply bind_ok_inv in E. destruct E as (w' & Hw' & E).
      unfold Dict.lookup in Hw. destruct (Dict.get sd k) as [w0|] eqn:Hget; [|discriminate].
      destruct (IH _ _ E) as [Hkeys Hother]. split.
      * rewrite Hkeys. eapply keys_set_present, Hget.
      * intros key Hkey. rewrite Hother by exact Hkey.
        apply dict_get_set_other. intros ->. congruence.
    + apply IH.
Qed.

Lemma migrate_attention_keys (old_checkpoint : Dict.t value) (hparams : option value)
    (sd sd' : Dict.t tensor) :
  migrate_attention old_checkpoint hparams sd = Ok sd' ->
  Dict.keys sd' = Dict.keys sd /\
  forall key, mentions_qkv key = false -> Dict.get sd' key = Dict.get sd key.
Proof.
  unfold migrate_attention. intros E.
  apply bind_ok_inv in E. destruct E as ([|] & _ & E).
  - apply bind_ok_inv in E. destruct E as (np & _ & E).
    destruct (Py.eq_small _ 0).
    + eapply migrate_keys_frame, E.
    + destruct (Py.eq_small _ 1).
      * eapply migrate_keys_frame, E.
      * inversion E. auto.
  - inversion E. auto.
Qed.


(** X6: the migration of the attention layout never renames, adds, drops or
    reorders an entry of the state dict, and never changes a tensor whose
    key lacks the marker, whatever the checkpoint version is. *)
Theorem migrate_attention_frame (old_checkpoint : Dict.t value) (hparams : option value)
    (sd sd' : Dict.t tensor) :
  migrate_attention old_checkpoint hparams sd = Ok sd' ->
  Dict.keys sd' = Dict.keys sd /\
  forall key, mentions_qkv key = false -> Dict.get sd' key = Dict.get sd key.
Proof. apply migrate_attention_keys. Qed.

Lemma known_not_below (l : list Z) :
  Forall (fun d => 0 <= d) l -> existsb (fun d => d <? -1) l = false.
Proof.
  induction 1 as [|x l Hx _ IH]; simpl; [reflexivity|]. rewrite IH.
  destruct (Z.ltb_spec x (-1)); [lia | reflexivity].
Qed.

Lemma known_kept (l : list Z) :
  Forall (fun d => 0 <= d) l -> filter (fun d => negb (d =? -1)) l = l.
Proof.
  induction 1 as [|x l Hx _ IH]; simpl; [reflexivity|]. rewrite IH.
  destruct (Z.eqb_spec x (-1)); [lia | reflexivity].
Qed.

(** A shape with one [-1] among sizes whose product is zero or does not
    divide the element count has no solution. *)
Lemma infer_size_no_solution (pre post : list Z) (n : Z) :
  Forall (fun d => 0 <= d) pre -> Forall (fun d => 0 <= d) post ->
  Tensor.prod_Z pre * Tensor.prod_Z post = 0 \/
  n mod (Tensor.prod_Z pre * Tensor.prod_Z post) <> 0 ->
  Tensor.infer_size (pre ++ -1 :: post) n = Raise RuntimeError.
Proof.
  intros Hpre Hpost Hbad. unfold Tensor.infer_size.
  rewrite existsb_app. simpl. rewrite !known_not_below by assumption. simpl.
  rewrite filter_app. simpl. rewrite !known_kept by assumption.
  rewrite !length_app. simpl.
  replace (List.length pre + S (List.length post) - (List.length pre + List.length post))%nat
    with 1%nat by lia.
  rewrite prod_Z_app.
  set (P := Tensor.prod_Z pre * Tensor.prod_Z post) in *.
  destruct (Z.eqb_spec P 0) as [E|E].
  - rewrite andb_false_r. reflexivity.
  - destruct Hbad as [H|H]; [contradiction|].
    destruct (Z.eqb_spec n P) as [En|En].
    + subst n. rewrite Z.mod_same in H by exact E. contradiction.
    + destruct (Z.eqb_spec (n mod P) 0); [contradiction|].
      rewrite andb_false_r. reflexivity.
Qed.

(** X7: a fused weight whose number of rows is not a multiple of three times
    the number of heads, or any weight when the number of heads is not
    positive, cannot be viewed by heads: the migration of either version
    raises RuntimeError on it. *)
Theorem migrate_rejects_indivisible_rows (np : Z) (w : tensor) (r c : nat) :
  Tensor.size w = [r; c] ->
  np <= 0 \/ Z.of_nat r mod (3 * np) <> 0 ->
  migrate_v0 np w = Raise RuntimeError /\ migrate_v1 np w = Raise RuntimeError.
Proof.
  intros Hsize Hbad.
  assert (Hlast : Tensor.last_dim w = Ok (Z.of_nat c)).
  { unfold Tensor.last_dim. rewrite Hsize. reflexivity. }
  assert (Hn : Z.of_nat (Tensor.numel w) = Z.of_nat r * Z.of_nat c).
  { unfold Tensor.numel. rewrite Hsize. unfold Tensor.prod_nat. simpl. lia. }
  unfold migrate_v0, migrate_v1, Tensor.rank. rewrite Hsize. simpl List.length.
  cbn [Nat.eqb]. rewrite Hlast. cbn [bind]. unfold Tensor.view. rewrite Hn.
  destruct (Z.ltb_spec np (-1)) as [Hlow|Hlow].
  { unfold Tensor.infer_size. cbn [existsb]. 
    replace (np <? -1) with true by (symmetry; apply Z.ltb_lt; lia).
    rewrite !orb_true_r. simpl. split; reflexivity. }
  destruct (Z.eq_dec np (-1)) as [->|Hneg].
  { unfold Tensor.infer_size. cbn [existsb filter negb Z.eqb Z.ltb Z.compare orb].
    destruct (Z.ltb_spec (Z.of_nat c) (-1)); [lia|].
    destruct (Z.eqb_spec (Z.of_nat c) (-1)); [lia|]. simpl. split; reflexivity. }
  assert (Hnp : 0 <= np) by lia.
  assert (Hc : 0 <= Z.of_nat c) by lia.
  assert (Hprod : 3 * np * Z.of_nat c = 0 \/
                  (Z.of_nat r * Z.of_nat c) mod (3 * np * Z.of_nat c) <> 0).
  { destruct (Z.eq_dec (Z.of_nat c) 0) as [E|E]; [left; rewrite E; lia|].
    destruct (Z.eq_dec np 0) as [E0|E0]; [left; rewrite E0; lia|].
    right. destruct Hbad as [H|H]; [lia|].
    rewrite Z.mul_mod_distr_r by lia. nia. }
  split.
  - rewrite (infer_size_no_solution [3; np] [Z.of_nat c]).
    + reflexivity.
    + repeat constructor; lia.
    + repeat constructor; lia.
    + cbv [Tensor.prod_Z fold_right].
      replace (3 * (np * 1) * (Z.of_nat c * 1)) with (3 * np * Z.of_nat c) by lia.
      exact Hprod.
  - rewrite (infer_size_no_solution [np] [3; Z.of_nat c]).
    + reflexivity.
    + repeat constructor; lia.
    + repeat constructor; lia.
    + cbv [Tensor.prod_Z fold_right].
      replace (np * 1 * (3 * (Z.of_nat c * 1))) with (3 * np * Z.of_nat c) by lia.
      exact Hprod.
Qed.

End MigrationFrame.

(** The sample state dict under a version-0 checkpoint with two heads. *)
Lemma migrate_attention_frame_witness :
  exists sd',
    Megatron.migrate_attention Samples.old_v0 None Samples.state_dict = Ok sd' /\
    Dict.keys sd' = Dict.keys Samples.state_dict /\
    forall key, Megatron.mentions_qkv key = false ->
                Dict.get sd' key = Dict.get Samples.state_dict key.
Proof.
  eexists. split.
  - vm_compute. reflexivity.
  - apply (migrate_attention_frame Samples.old_v0 None Samples.state_dict).
    vm_compute. reflexivity.
Defined.

(** Five rows and two heads. *)
Lemma migrate_rejects_indivisible_rows_witness :
  Megatron.migrate_v0 2 Examples.five_rows = Raise RuntimeError /\
  Megatron.migrate_v1 2 Examples.five_rows = Raise RuntimeError.
Proof.
  apply (migrate_rejects_indivisible_rows 2 Examples.five_rows 5 2).
  - reflexivity.
  - right. vm_compute. discriminate.
Defined.

(** ** load_from_checkpoint: migrated tensors stay well formed *)

Section WellFormed.
Import Tensor Megatron.

Ltac each_index :=
  repeat match goal with
         | H : Forall2 _ _ (_ :: _) |- _ => inversion H; clear H; subst
         | H : Forall2 _ _ [] |- _ => inversion H; clear H; subst
         end.

Lemma flat_map_fetch_length {B : Type} (l : list B) (offs : list nat) :
  Forall (fun o => (o < List.length l)%nat) offs ->
  List.length (flat_map (fetch l) offs) = List.length offs.
Proof.
  induction 1 as [|o offs Ho _ IH]; simpl; [reflexivity|].
  rewrite length_app, IH. unfold fetch.
  destruct (nth_error l o) eqn:E; [reflexivity|]. apply nth_error_None in E. lia.
Qed.

(** The contiguous copy of a strided view whose offsets all fall inside
    the storage holds one element for each index. *)
Lemma contiguous_wf {B : Type} (sz st : list nat) (l : list B) :
  List.length st = List.length sz ->
  (forall idx, Forall2 lt idx sz -> (dot idx st < List.length l)%nat) ->
  wf (contiguous (mkStrided sz st l)).
Proof.
  intros Hlen Hall. unfold wf, contiguous, numel. cbn [size data ssize sstride storage].
  rewrite flat_map_fetch_length by (apply offsets_bound; [exact Hlen | exact Hall]).
  apply offsets_length, Hlen.
Qed.

Lemma migrate_v0_weight_wf (h hn c : nat) (w : tensor) :
  wf w -> size w = [(3 * h * hn)%nat; c] -> (0 < h)%nat -> (0 < c)%nat ->
  exists w', migrate_v0 (Z.of_nat h) w = Ok w' /\ wf w' /\ numel w' = numel w.
Proof.
  destruct w as [sz d]. unfold wf, numel. cbn [size data]. intros Hwf -> Hh Hc.
  unfold migrate_v0, rank, last_dim, view, numel. cbn [size data List.length Nat.eqb rev app bind].
  change [3; Z.of_nat h; -1; Z.of_nat c]
    with (map Z.of_nat [3%nat; h] ++ -1 :: map Z.of_nat [c])%list.
  rewrite (infer_size_hole [3%nat; h] [c] hn);
    [ | cbn [prod_nat fold_right]; nia | f_equal; cbn [prod_nat fold_right]; ring ].
  cbn [bind app]. unfold transpose, rank. cbn [size data List.length Nat.ltb Nat.leb andb bind].
  cbn [swap swap_with nth Nat.eqb contiguous_strides].
  pose proof (contiguous_wf [h; 3%nat; hn; c]
                [(hn * (c * 1))%nat; (h * (hn * (c * 1)))%nat; (c * 1)%nat; 1%nat] d eq_refl)
    as Hcopy.
  unfold wf, numel in Hcopy.
  set (copy := contiguous _) in *.
  assert (Hsize : size copy = [h; 3%nat; hn; c]) by reflexivity.
  assert (Hlen : List.length (data copy) = (h * (3 * (hn * (c * 1))))%nat).
  { rewrite Hcopy; [rewrite Hsize; reflexivity|].
    intros idx' Hidx. each_index. cbn [dot]. rewrite Hwf. cbn [prod_nat fold_right].
    match goal with
    | H1 : (?a < h)%nat, H2 : (?b < 3)%nat, H3 : (?e < hn)%nat, H4 : (?f < c)%nat |- _ =>
        pose proof (radix_lt e hn f c H3 H4) as B1;
        pose proof (radix_lt a h (e * c + f) (hn * c) H1 B1) as B2;
        pose proof (radix_lt b 3 (a * (hn * c) + (e * c + f)) (h * (hn * c)) H2 B2) as B3;
        lia
    end. }
  rewrite Hsize. cbn [rev app bind prod_nat fold_right].
  change [-1; Z.of_nat c] with (map Z.of_nat [] ++ -1 :: map Z.of_nat [c])%list.
  rewrite (infer_size_hole [] [c] (3 * h * hn)%nat);
    [ | cbn [prod_nat fold_right]; lia | f_equal; cbn [prod_nat fold_right]; ring ].
  cbn [bind app]. eexists. split; [reflexivity|].
  cbn [size data prod_nat fold_right]. split; [rewrite Hlen; ring | reflexivity].
Qed.

Lemma migrate_v0_bias_wf (h hn : nat) (w : tensor) :
  wf w -> rank w <> 2%nat -> numel w = (3 * h * hn)%nat -> (0 < h)%nat ->
  exists w', migrate_v0 (Z.of_nat h) w = Ok w' /\ wf w' /\ numel w' = numel w.
Proof.
  destruct w as [sz d]. unfold wf. cbn [size data]. intros Hwf Hrank Hnumel Hh.
  rewrite Hnumel in Hwf.
  unfold migrate_v0. apply Nat.eqb_neq in Hrank. rewrite Hrank.
  unfold view. rewrite Hnumel. cbn [data].
  change [3; Z.of_nat h; -1] with (map Z.of_nat [3%nat; h] ++ -1 :: map Z.of_nat [])%list.
  rewrite (infer_size_hole [3%nat; h] [] hn);
    [ | cbn [prod_nat fold_right]; lia | f_equal; cbn [prod_nat fold_right]; ring ].
  cbn [bind app]. unfold transpose, rank. cbn [size data List.length Nat.ltb Nat.leb andb bind].
  cbn [swap swap_with nth Nat.eqb contiguous_strides].
  pose proof (contiguous_wf [h; 3%nat; hn]
                [(hn * 1)%nat; (h * (hn * 1))%nat; 1%nat] d eq_refl) as Hcopy.
  unfold wf in Hcopy.
  set (copy := contiguous _) in *.
  assert (Hsize : size copy = [h; 3%nat; hn]) by reflexivity.
  assert (Hlen : List.length (data copy) = (h * (3 * (hn * 1)))%nat).
  { rewrite Hcopy; [unfold numel; rewrite Hsize; reflexivity|].
    intros idx' Hidx. each_index. cbn [dot]. rewrite Hwf.
    match goal with
    | H1 : (?a < h)%nat, H2 : (?b < 3)%nat, H3 : (?e < hn)%nat |- _ =>
        pose proof (radix_lt a h e hn H1 H3) as B1;
        pose proof (radix_lt b 3 (a * hn + e) (h * hn) H2 B1) as B2;
        lia
    end. }
  unfold numel at 1. rewrite Hsize. cbn [prod_nat fold_right].
  change [-1] with (map Z.of_nat [] ++ -1 :: map Z.of_nat [])%list.
  rewrite (infer_size_hole [] [] (3 * h * hn)%nat);
    [ | cbn [prod_nat fold_right]; lia | f_equal; cbn [prod_nat fold_right]; ring ].
  cbn [bind app]. eexists. split; [reflexivity|].
  unfold numel. cbn [size data prod_nat fold_right].
  split; [rewrite Hlen; ring | ring].
Qed.

Lemma migrate_v1_weight_wf (h hn c : nat) (w : tensor) :
  wf w -> size w = [(h * hn * 3)%nat; c] -> (0 < h)%nat -> (0 < c)%nat ->
  exists w', migrate_v1 (Z.of_nat h) w = Ok w' /\ wf w' /\ numel w' = numel w.
Proof.
  destruct w as [sz d]. unfold wf, numel. cbn [size data]. intros Hwf -> Hh Hc.
  unfold migrate_v1, rank, last_dim, view, numel. cbn [size data List.length Nat.eqb rev app bind].
  change [Z.of_nat h; -1; 3; Z.of_nat c]
    with (map Z.of_nat [h] ++ -1 :: map Z.of_nat [3%nat; c])%list.
  rewrite (infer_size_hole [h] [3%nat; c] hn);
    [ | cbn [prod_nat fold_right]; nia | f_equal; cbn [prod_nat fold_right]; ring ].
  cbn [bind app]. unfold transpose, rank. cbn [size data List.length Nat.ltb Nat.leb andb bind].
  cbn [swap swap_with nth Nat.eqb contiguous_strides].
  pose proof (contiguous_wf [h; 3%nat; hn; c]
                [(hn * (3 * (c * 1)))%nat; (c * 1)%nat; (3 * (c * 1))%nat; 1%nat] d eq_refl)
    as Hcopy.
  unfold wf, numel in Hcopy.
  set (copy := contiguous _) in *.
  assert (Hsize : size copy = [h; 3%nat; hn; c]) by reflexivity.
  eexists. split; [reflexivity|]. rewrite Hsize. cbn [prod_nat fold_right]. split; [|ring].
  rewrite Hcopy; [rewrite Hsize; reflexivity|].
  intros idx' Hidx. each_index. cbn [dot]. rewrite Hwf. cbn [prod_nat fold_right].
  match goal with
  | H1 : (?a < h)%nat, H2 : (?b < 3)%nat, H3 : (?e < hn)%nat, H4 : (?f < c)%nat |- _ =>
      pose proof (radix_lt b 3 f c H2 H4) as B1;
      pose proof (radix_lt e hn (b * c + f) (3 * c) H3 B1) as B2;
      pose proof (radix_lt a h (e * (3 * c) + (b * c + f)) (hn * (3 * c)) H1 B2) as B3;
      lia
  end.
Qed.

Lemma migrate_v1_bias_wf (h hn : nat) (w : tensor) :
  wf w -> rank w <> 2%nat -> numel w = (h * hn * 3)%nat -> (0 < h)%nat ->
  exists w', migrate_v1 (Z.of_nat h) w = Ok w' /\ wf w' /\ numel w' = numel w.
Proof.
  destruct w as [sz d]. unfold wf. cbn [size data]. intros Hwf Hrank Hnumel Hh.
  rewrite Hnumel in Hwf.
  unfold migrate_v1. apply Nat.eqb_neq in Hrank. rewrite Hrank.
  unfold view. rewrite Hnumel. cbn [data].
  change [Z.of_nat h; -1; 3] with (map Z.of_nat [h] ++ -1 :: map Z.of_nat [3%nat])%list.
  rewrite (infer_size_hole [h] [3%nat] hn);
    [ | cbn [prod_nat fold_right]; lia | f_equal; cbn [prod_nat fold_right]; ring ].
  cbn [bind app]. unfold transpose, rank. cbn [size data List.length Nat.ltb Nat.leb andb bind].
  cbn [swap swap_with nth Nat.eqb contiguous_strides].
  pose proof (contiguous_wf [h; 3%nat; hn]
                [(hn * (3 * 1))%nat; 1%nat; (3 * 1)%nat] d eq_refl) as Hcopy.
  unfold wf in Hcopy.
  set (copy := contiguous _) in *.
  assert (Hsize : size copy = [h; 3%nat; hn]) by reflexivity.
  eexists. split; [reflexivity|]. unfold numel at 1 2. rewrite Hsize.
  cbn [prod_nat fold_right]. split.
  - rewrite Hcopy; [unfold numel; rewrite Hsize; reflexivity|].
    intros idx' Hidx. each_index. cbn [dot]. rewrite Hwf.
    match goal with
    | H1 : (?a < h)%nat, H2 : (?b < 3)%nat, H3 : (?e < hn)%nat |- _ =>
        pose proof (radix_lt e hn b 3 H3 H2) as B1;
        pose proof (radix_lt a h (e * 3 + b) (hn * 3) H1 B1) as B2;
        lia
    end.
  - ring.
Qed.

(** X27: migration keeps tensors well formed: a well-formed tensor of a shape
    the branches of a version can view is returned well formed, holding as
    many elements as before. *)
Theorem migration_keeps_well_formed (h : nat) (w : tensor) :
  wf w -> (0 < h)%nat ->
  (v0_shape h w ->
   exists w', migrate_v0 (Z.of_nat h) w = Ok w' /\ wf w' /\ numel w' = numel w) /\
  (v1_shape h w ->
   exists w', migrate_v1 (Z.of_nat h) w = Ok w' /\ wf w' /\ numel w' = numel w).
Proof.
  intros Hwf Hh. split.
  - intros [_ [(hn & c & Hsz & Hc) | (Hr & hn & Hn)]].
    + exact (migrate_v0_weight_wf h hn c w Hwf Hsz Hh Hc).
    + exact (migrate_v0_bias_wf h hn w Hwf Hr Hn Hh).
  - intros [_ [(hn & c & Hsz & Hc) | (Hr & hn & Hn)]].
    + exact (migrate_v1_weight_wf h hn c w Hwf Hsz Hh Hc).
    + exact (migrate_v1_bias_wf h hn w Hwf Hr Hn Hh).
Qed.

End WellFormed.

(** The fused projection of the sample state dict, six rows for two heads. *)
Lemma migration_keeps_well_formed_witness :
  exists w',
    Megatron.migrate_v0 2
      (Tensor.mk [6%nat; 2%nat] [0; 1; 2; 3; 4; 5; 6; 7; 8; 9; 10; 11]%float) = Ok w' /\
    Tensor.wf w' /\
    Tensor.numel w' =
    Tensor.numel (Tensor.mk [6%nat; 2%nat] [0; 1; 2; 3; 4; 5; 6; 7; 8; 9; 10; 11]%float).
Proof.
  apply (proj1 (migration_keeps_well_formed 2
                  (Tensor.mk [6%nat; 2%nat] [0; 1; 2; 3; 4; 5; 6; 7; 8; 9; 10; 11]%float)
                  eq_refl (Nat.lt_0_succ 1))).
  split; [reflexivity|]. left. exists 1%nat, 2%nat.
  split; [reflexivity | apply Nat.lt_0_succ].
Defined.

(** ** add_optimizer_state: the entries written and the learning rates *)

Section OptimizerFrame.
Import Megatron.

Variable float_floordiv : float -> float -> float.

Lemma step_block_other_keys (lm new : Dict.t value) (k : string) :
  k <> "global_step" -> k <> "epoch" ->
  Dict.get (step_block lm new) k = Dict.get new k.
Proof.
  intros Hg He. unfold step_block, NEW_STEP_KEY.
  destruct (Dict.get lm STEP_KEY); [|reflexivity].
  rewrite !dict_get_set_other by congruence. reflexivity.
Qed.

Lemma add_optimizer_state_other_keys (lm new new' : Dict.t value) (amp : bool) (k : string) :
  add_optimizer_state float_floordiv lm new amp = Ok new' ->
  k <> "optimizer_states" -> k <> "global_step" -> k <> "epoch" -> k <> "lr_schedulers" ->
  Dict.get new' k = Dict.get new k.
Proof.
  intros H Ho Hg He Hs. unfold add_optimizer_state in H.
  apply bind_ok_inv in H. destruct H as (new1 & H1 & H2).
  rewrite (scheduler_block_other_keys _ _ _ _ k H2 Hs).
  rewrite (step_block_other_keys _ _ _ Hg He).
  exact (optimizer_block_other_keys _ _ _ _ k H1 Ho).
Qed.

(** X8: whatever the source checkpoint holds, the adapter writes at most the
    four entries [optimizer_states], [global_step], [epoch] and
    [lr_schedulers] of the new checkpoint: every other entry, the
    converted weights among them, is what it was. *)
Theorem add_optimizer_state_frame (lm new new' : Dict.t value) (amp : bool) (k : string) :
  add_optimizer_state float_floordiv lm new amp = Ok new' ->
  k <> "optimizer_states" -> k <> "global_step" -> k <> "epoch" -> k <> "lr_schedulers" ->
  Dict.get new' k = Dict.get new k.
Proof. apply add_optimizer_state_other_keys. Qed.

(** The step counter of the source, when the adapter returns. *)
Lemma add_optimizer_state_step (lm new new' : Dict.t value) (amp : bool) :
  add_optimizer_state float_floordiv lm new amp = Ok new' ->
  Dict.get new' "global_step" =
  match Dict.get lm "iteration" with
  | Some it => Some it
  | None => Dict.get new "global_step"
  end.
Proof.
  intros H. unfold add_optimizer_state in H.
  apply bind_ok_inv in H. destruct H as (new1 & H1 & H2).
  rewrite (scheduler_block_other_keys _ _ _ _ "global_step" H2) by congruence.
  pose proof (step_block_fields lm new1) as S.
  destruct (Dict.get lm "iteration") as [it|].
  - exact (proj1 S).
  - rewrite S. apply (optimizer_block_other_keys _ _ _ _ _ H1). congruence.
Qed.

Lemma set_initial_lr_dicts (sched : Dict.t value) (hi : value) (groups : list (Dict.t value)) :
  Dict.get sched "max_lr" = Some hi ->
  set_initial_lr (VDict sched) (map VDict groups) =
  Ok (map (fun g => VDict (Dict.set g "initial_lr" hi)) groups).
Proof.
  intros Hhi. unfold set_initial_lr.
  induction groups as [|g groups IH]; simpl; [reflexivity|].
  unfold Dict.lookup. rewrite Hhi. simpl.
  unfold set_initial_lr in IH. cbn [Py.getitem] in IH. unfold Dict.lookup in IH.
  rewrite Hhi in IH. simpl in IH. rewrite IH. reflexivity.
Qed.

Lemma initial_lr_read_back (hi : value) (groups : list (Dict.t value)) :
  comprehension (fun i => Py.getitem i "initial_lr")
    (map (fun g => VDict (Dict.set g "initial_lr" hi)) groups) =
  Ok (map (fun _ => hi) groups).
Proof.
  induction groups as [|g groups IH]; simpl; [reflexivity|].
  unfold Dict.lookup. rewrite dict_get_set_same. simpl. rewrite IH. reflexivity.
Qed.

Lemma lr_read_back (hi : value) (groups : list (Dict.t value)) (lrs : list value) :
  Forall2 (fun g lr => Dict.get g "lr" = Some lr) groups lrs ->
  comprehension (fun i => Py.getitem i "lr")
    (map (fun g => VDict (Dict.set g "initial_lr" hi)) groups) = Ok lrs.
Proof.
  induction 1 as [|g lr groups lrs Hg _ IH]; simpl; [reflexivity|].
  unfold Dict.lookup. rewrite dict_get_set_other by congruence. rewrite Hg. simpl.
  rewrite IH. reflexivity.
Qed.

(** X9: a checkpoint with the optimizer state nested as Megatron-LM saves it, a
    scheduler and int step counts, adapted with [megatron_amp_o2]: the
    adapter returns; every parameter group of the stored optimizer state
    has [initial_lr] set to the scheduler's [max_lr]; [base_lrs] holds
    [max_lr] once per parameter group and [_last_lr] the groups' own [lr],
    in their order. *)
Theorem add_optimizer_state_learning_rates
    (lm new section opt sched attrs : Dict.t value) (groups : list (Dict.t value))
    (lrs : list value) (hi lo : value) (g d w n : Z) :
  Dict.get lm "optimizer" = Some (VDict section) ->
  Dict.get section "optimizer" = Some (VDict opt) ->
  Dict.get opt "param_groups" = Some (VList (map VDict groups)) ->
  Forall2 (fun group lr => Dict.get group "lr" = Some lr) groups lrs ->
  Dict.get lm "lr_scheduler" = Some (VDict sched) ->
  Dict.get sched "max_lr" = Some hi ->
  Dict.get sched "min_lr" = Some lo ->
  Dict.get sched "decay_steps" = Some (VInt d) ->
  Dict.get sched "warmup_steps" = Some (VInt w) ->
  Dict.get sched "num_steps" = Some (VInt n) ->
  Dict.get lm "args" = Some (VNamespace attrs) ->
  Dict.get attrs "global_batch_size" = Some (VInt g) ->
  g <> 0 ->
  exists new' states content,
    add_optimizer_state float_floordiv lm new true = Ok new' /\
    Dict.get new' "optimizer_states" = Some (VList [VDict states]) /\
    Dict.get states "optimizer" =
      Some (VDict (Dict.set opt "param_groups"
              (VList (map (fun group => VDict (Dict.set group "initial_lr" hi)) groups)))) /\
    Dict.get new' "lr_schedulers" = Some (VList [VDict content]) /\
    Dict.get content "base_lrs" = Some (VList (map (fun _ => hi) groups)) /\
    Dict.get content "_last_lr" = Some (VList lrs).
Proof.
  intros Ho Hnest Hgroups Hlrs Hsched Hhi Hlo Hd Hw Hn Ha Hg Hg0.
  assert (Hs : Dict.mem lm "lr_scheduler" = true) by (unfold Dict.mem; now rewrite Hsched).
  assert (Hmo : Dict.mem lm "optimizer" = true) by (unfold Dict.mem; now rewrite Ho).
  assert (Hms : Dict.mem section "optimizer" = true) by (unfold Dict.mem; now rewrite Hnest).
  set (groups' := map (fun group => VDict (Dict.set group "initial_lr" hi)) groups).
  set (opt' := Dict.set opt "param_groups" (VList groups')).
  assert (Hfill : backfill_initial_lr lm (VDict opt) = Ok (VDict opt')).
  { unfold backfill_initial_lr, LR_SCHEDULER. rewrite Hs. unfold Dict.lookup. rewrite Hsched.
    cbn [bind Py.getitem]. unfold Dict.lookup. rewrite Hgroups. cbn [bind Py.iter].
    rewrite (set_initial_lr_dicts _ _ _ Hhi). reflexivity. }
  assert (Hblock : exists states,
             optimizer_block lm new true =
               Ok (Dict.set new "optimizer_states" (VList [VDict states])) /\
             Dict.get states "optimizer" = Some (VDict opt')).
  { unfold optimizer_block, OPTIMIZER_KEY, FP32_FP16_KEY, NEW_OPTIMIZER_KEY. rewrite Ho.
    cbn [Py.contains bind]. rewrite Hms. cbn [Py.getitem]. unfold Dict.lookup at 1.
    rewrite Hnest. cbn [bind]. rewrite Hfill. cbn [bind].
    destruct (Dict.mem section "fp32_from_fp16_params") eqn:Ef.
    - unfold Dict.lookup, Dict.mem in *.
      destruct (Dict.get section "fp32_from_fp16_params") as [fp|]; [|discriminate].
      cbn [bind]. eexists. split; [reflexivity|]. apply dict_get_set_same.
    - cbn [bind]. eexists. split; [reflexivity|]. apply dict_get_set_same. }
  destruct Hblock as (states & Hblock & Hstates).
  set (new1 := step_block lm (Dict.set new "optimizer_states" (VList [VDict states]))).
  assert (Hnew1 : Dict.get new1 "optimizer_states" = Some (VList [VDict states])).
  { unfold new1. rewrite step_block_other_keys by congruence. apply dict_get_set_same. }
  assert (Hpg : new_param_groups new1 = Ok groups').
  { unfold new_param_groups, Dict.lookup. rewrite Hnew1. cbn [bind Py.getitem0 Py.getitem].
    unfold Dict.lookup. rewrite Hstates. cbn [bind Py.getitem]. unfold Dict.lookup.
    unfold opt'. rewrite dict_get_set_same. reflexivity. }
  unfold add_optimizer_state. rewrite Hblock. cbn [bind]. fold new1.
  unfold scheduler_block, LR_SCHEDULER, OPTIMIZER_KEY, NEW_LR_SCHEDULER. rewrite Hs, Hmo.
  unfold Dict.lookup at 1 2. rewrite Ha, Hsched. cbn [bind Py.getattr]. rewrite Hg. cbn [bind].
  rewrite !(steps_in_batches_int _ _ _ _ _ Hd Hg0), !(steps_in_batches_int _ _ _ _ _ Hw Hg0),
    !(steps_in_batches_int _ _ _ _ _ Hn Hg0).
  cbn [bind Py.getitem]. unfold Dict.lookup. rewrite Hw, Hlo. cbn [bind].
  rewrite (floordiv_int _ _ _ Hg0). cbn [bind Py.add Py.as_number].
  rewrite Hpg. cbn [bind]. unfold groups'.
  rewrite initial_lr_read_back, (lr_read_back _ _ _ Hlrs). cbn [bind].
  eexists. exists states. eexists. split; [reflexivity|].
  split; [rewrite dict_get_set_other by congruence; exact Hnew1|].
  split; [exact Hstates|].
  split; [apply dict_get_set_same|].
  split; reflexivity.
Qed.

(** X10: without [megatron_amp_o2] the optimizer state is stored as it is, not
    under an [optimizer] entry of its own; when the source also holds a
    scheduler, the lookup made to derive the base learning rates raises
    [KeyError] on [optimizer]. *)
Theorem add_optimizer_state_unwrapped_state
    (lm new section opt sched attrs : Dict.t value) (lo : value) (g d w : Z) :
  Dict.get lm "optimizer" = Some (VDict section) ->
  Dict.get section "optimizer" = Some (VDict opt) ->
  Dict.get opt "optimizer" = None ->
  Dict.get lm "lr_scheduler" = Some (VDict sched) ->
  Dict.get sched "min_lr" = Some lo ->
  Dict.get sched "decay_steps" = Some (VInt d) ->
  Dict.get sched "warmup_steps" = Some (VInt w) ->
  Dict.get lm "args" = Some (VNamespace attrs) ->
  Dict.get attrs "global_batch_size" = Some (VInt g) ->
  g <> 0 ->
  add_optimizer_state float_floordiv lm new false = Raise (KeyError "optimizer").
Proof.
  intros Ho Hnest Hflat Hsched Hlo Hd Hw Ha Hg Hg0.
  assert (Hs : Dict.mem lm "lr_scheduler" = true) by (unfold Dict.mem; now rewrite Hsched).
  assert (Hmo : Dict.mem lm "optimizer" = true) by (unfold Dict.mem; now rewrite Ho).
  assert (Hms : Dict.mem section "optimizer" = true) by (unfold Dict.mem; now rewrite Hnest).
  unfold add_optimizer_state, optimizer_block, OPTIMIZER_KEY, NEW_OPTIMIZER_KEY. rewrite Ho.
  cbn [Py.contains bind]. rewrite Hms. cbn [Py.getitem]. unfold Dict.lookup at 1.
  rewrite Hnest. cbn [bind].
  set (new1 := step_block lm (Dict.set new "optimizer_states" (VList [VDict opt]))).
  assert (Hnew1 : Dict.get new1 "optimizer_states" = Some (VList [VDict opt])).
  { unfold new1. rewrite step_block_other_keys by congruence. apply dict_get_set_same. }
  assert (Hpg : new_param_groups new1 = Raise (KeyError "optimizer")).
  { unfold new_param_groups, Dict.lookup. rewrite Hnew1. cbn [bind Py.getitem0 Py.getitem].
    unfold Dict.lookup. rewrite Hflat. reflexivity. }
  unfold scheduler_block, LR_SCHEDULER, OPTIMIZER_KEY. rewrite Hs, Hmo.
  unfold Dict.lookup at 1 2. rewrite Ha, Hsched. cbn [bind Py.getattr]. rewrite Hg. cbn [bind].
  rewrite !(steps_in_batches_int _ _ _ _ _ Hd Hg0), !(steps_in_batches_int _ _ _ _ _ Hw Hg0).
  cbn [bind Py.getitem]. unfold Dict.lookup. rewrite Hw, Hlo. cbn [bind].
  rewrite (floordiv_int _ _ _ Hg0). cbn [bind Py.add Py.as_number].
  rewrite Hpg. reflexivity.
Qed.

(** X11: a global batch size of zero: once the optimizer states are in place,
    the first step count divided raises [ZeroDivisionError]. *)
Theorem add_optimizer_state_zero_batch_size
    (lm new new1 sched attrs : Dict.t value) (amp : bool) (raw : value) (d : Z) :
  optimizer_block lm new amp = Ok new1 ->
  Dict.get lm "lr_scheduler" = Some (VDict sched) ->
  Dict.get sched "decay_steps" = Some raw ->
  Py.int raw = Ok d ->
  Dict.get lm "args" = Some (VNamespace attrs) ->
  Dict.get attrs "global_batch_size" = Some (VInt 0) ->
  add_optimizer_state float_floordiv lm new amp = Raise ZeroDivisionError.
Proof.
  intros Hblock Hsched Hd Hint Ha Hg.
  assert (Hs : Dict.mem lm "lr_scheduler" = true) by (unfold Dict.mem; now rewrite Hsched).
  unfold add_optimizer_state. rewrite Hblock. cbn [bind].
  unfold scheduler_block, LR_SCHEDULER. rewrite Hs.
  unfold Dict.lookup at 1 2. rewrite Ha, Hsched. cbn [bind Py.getattr]. rewrite Hg. cbn [bind].
  unfold steps_in_batches at 1. cbn [Py.getitem]. unfold Dict.lookup at 1. rewrite Hd.
  cbn [bind]. rewrite Hint. reflexivity.
Qed.

End OptimizerFrame.

(** The full sample checkpoint adapted into a checkpoint that holds
    converted weights. *)
Lemma add_optimizer_state_frame_witness :
  exists new',
    Megatron.add_optimizer_state Instances.floor_quotient Samples.checkpoint_full
      [("state_dict", VDict [])] true = Ok new' /\
    Dict.get new' "state_dict" = Dict.get [("state_dict", VDict [])] "state_dict".
Proof.
  eexists. split.
  - vm_compute. reflexivity.
  - apply (add_optimizer_state_frame Instances.floor_quotient Samples.checkpoint_full
             [("state_dict", VDict [])] _ true "state_dict").
    + vm_compute. reflexivity.
    + discriminate.
    + discriminate.
    + discriminate.
    + discriminate.
Defined.

(** The full sample checkpoint: one parameter group, [max_lr] 0.5. *)
Lemma add_optimizer_state_learning_rates_witness :
  exists new' states content,
    Megatron.add_optimizer_state Instances.floor_quotient Samples.checkpoint_full [] true
    = Ok new' /\
    Dict.get new' "optimizer_states" = Some (VList [VDict states]) /\
    Dict.get states "optimizer" =
      Some (VDict [("state", VDict []);
                   ("param_groups",
                    VList [VDict [("lr", VFloat 0.25); ("initial_lr", VFloat 0.5)]])]) /\
    Dict.get new' "lr_schedulers" = Some (VList [VDict content]) /\
    Dict.get content "base_lrs" = Some (VList [VFloat 0.5]) /\
    Dict.get content "_last_lr" = Some (VList [VFloat 0.25]).
Proof.
  apply (add_optimizer_state_learning_rates Instances.floor_quotient
           Samples.checkpoint_full []
           [("optimizer",
             VDict [("state", VDict []);
                    ("param_groups", VList [VDict [("lr", VFloat 0.25)]])]);
            ("fp32_from_fp16_params", VList [])]
           [("state", VDict []); ("param_groups", VList [VDict [("lr", VFloat 0.25)]])]
           [("max_lr", VFloat 0.5); ("min_lr", VFloat 0.125); ("warmup_steps", VInt 3200);
            ("num_steps", VInt 64000); ("decay_style", VStr "linear");
            ("decay_steps", VInt 320000)]
           [("global_batch_size", VInt 64)]
           [[("lr", VFloat 0.25)]] [VFloat 0.25] (VFloat 0.5) (VFloat 0.125)
           64 320000 3200 64000);
    try reflexivity.
  - repeat constructor.
  - discriminate.
Defined.

(** The full sample checkpoint adapted without [megatron_amp_o2]. *)
Lemma add_optimizer_state_unwrapped_state_witness :
  Megatron.add_optimizer_state Instances.floor_quotient Samples.checkpoint_full [] false
  = Raise (KeyError "optimizer").
Proof.
  apply (add_optimizer_state_unwrapped_state Instances.floor_quotient
           Samples.checkpoint_full []
           [("optimizer",
             VDict [("state", VDict []);
                    ("param_groups", VList [VDict [("lr", VFloat 0.25)]])]);
            ("fp32_from_fp16_params", VList [])]
           [("state", VDict []); ("param_groups", VList [VDict [("lr", VFloat 0.25)]])]
           [("max_lr", VFloat 0.5); ("min_lr", VFloat 0.125); ("warmup_steps", VInt 3200);
            ("num_steps", VInt 64000); ("decay_style", VStr "linear");
            ("decay_steps", VInt 320000)]
           [("global_batch_size", VInt 64)]
           (VFloat 0.125) 64 320000 3200);
    try reflexivity.
  discriminate.
Defined.

(** A scheduler section and a global batch size of zero. *)
Lemma add_optimizer_state_zero_batch_size_witness :
  Megatron.add_optimizer_state Instances.floor_quotient Examples.checkpoint_zero_batch [] true
  = Raise ZeroDivisionError.
Proof.
  apply (add_optimizer_state_zero_batch_size Instances.floor_quotient
           Examples.checkpoint_zero_batch [] []
           [("max_lr", VFloat 0.5); ("min_lr", VFloat 0.125); ("warmup_steps", VInt 3200);
            ("num_steps", VInt 64000); ("decay_style", VStr "linear");
            ("decay_steps", VInt 320000)]
           [("global_batch_size", VInt 0)] true (VInt 320000) 320000);
    reflexivity.
Defined.

(** ** load_from_checkpoint: the file of hyper-parameters and the returned checkpoint *)

Section Extension.
Import Loader.

Lemma split_not_empty (sep : ascii) (s : string) : PyStr.split sep s <> [].
Proof.
  destruct s as [|c s]; simpl; [discriminate|].
  destruct (Ascii.eqb c sep); [discriminate|].
  destruct (PyStr.split sep s); discriminate.
Qed.

(** The fields of a string cut at a separator are the fields of the two
    parts. *)
Lemma split_app (sep : ascii) (x y : string) :
  PyStr.split sep (x ++ String sep y) = (PyStr.split sep x ++ PyStr.split sep y)%list.
Proof.
  induction x as [|c x IH]; simpl.
  - rewrite Ascii.eqb_refl. reflexivity.
  - destruct (Ascii.eqb c sep); [now rewrite IH|].
    rewrite IH. pose proof (split_not_empty sep x) as Hne.
    destruct (PyStr.split sep x) as [|f fs]; [congruence | reflexivity].
Qed.

Lemma contains_char_cons (c a : ascii) (s : string) :
  PyStr.contains (String a s) (String c EmptyString) =
  Ascii.eqb a c || PyStr.contains s (String c EmptyString).
Proof.
  unfold PyStr.contains, PyStr.find. simpl.
  destruct (ascii_dec c a) as [->|Hne].
  - rewrite Ascii.eqb_refl. destruct s; reflexivity.
  - destruct (Ascii.eqb_spec a c) as [->|_]; [congruence|]. simpl.
    destruct (index 0 (String c EmptyString) s); simpl; [|reflexivity].
    destruct (Z.leb_spec 0 (Z.of_nat n)); [|lia].
    destruct (Z.leb_spec 0 (Z.pos (Pos.of_succ_nat n))); [reflexivity | lia].
Qed.

(** A string in which the separator does not occur is one field. *)
Lemma split_one_field (sep : ascii) (s : string) :
  PyStr.contains s (String sep EmptyString) = false -> PyStr.split sep s = [s].
Proof.
  induction s as [|a s IH]; [reflexivity|].
  rewrite contains_char_cons. intros H. apply orb_false_elim in H. destruct H as [Ha Hs].
  simpl. rewrite Ha, (IH Hs). reflexivity.
Qed.

Lemma extension_after_dot (stem ext : string) :
  PyStr.contains ext "." = false -> extension (stem ++ String "." ext) = ext.
Proof.
  intros Hext. unfold extension. rewrite split_app, (split_one_field _ _ Hext).
  apply last_last.
Qed.

Lemma lower_char_idem (c : ascii) : lower_char (lower_char c) = lower_char c.
Proof. destruct c as [[] [] [] [] [] [] [] []]; reflexivity. Qed.

Lemma lower_idem (s : string) : lower (lower s) = lower s.
Proof. induction s as [|c s IH]; simpl; [reflexivity | now rewrite lower_char_idem, IH]. Qed.

Lemma lower_char_dot (c : ascii) : Ascii.eqb (lower_char c) "." = Ascii.eqb c ".".
Proof. destruct c as [[] [] [] [] [] [] [] []]; reflexivity. Qed.

Lemma lower_no_dot (s : string) :
  PyStr.contains (lower s) "." = PyStr.contains s ".".
Proof.
  induction s as [|c s IH]; [reflexivity|].
  simpl lower. rewrite !contains_char_cons, lower_char_dot, IH. reflexivity.
Qed.

(** X12: the loader of the hyper-parameter file is chosen by what follows the
    last dot of the file name alone, read without regard to case: a name
    and its last extension in lower case, taken alone, choose alike. *)
Theorem loader_of_last_extension (stem ext : string) :
  PyStr.contains ext "." = false ->
  loader_of (stem ++ "." ++ ext) = loader_of (lower ext).
Proof.
  intros Hext. unfold loader_of.
  change (stem ++ "." ++ ext) with (stem ++ String "." ext).
  rewrite (extension_after_dot stem ext Hext).
  assert (Hlow : extension (lower ext) = lower ext).
  { unfold extension. rewrite split_one_field; [reflexivity|].
    now rewrite lower_no_dot. }
  rewrite Hlow, lower_idem. reflexivity.
Qed.

End Extension.

Section Loading.
Import Loader.

Variable float_floordiv : float -> float -> float.
Variable load_hparams_from_tags_csv : string -> result value.
Variable load_hparams_from_yaml : string -> result value.

Local Abbreviation load :=
  (load_from_checkpoint float_floordiv load_hparams_from_tags_csv load_hparams_from_yaml).

(** What the steps of [load_from_checkpoint] leave when it returns. *)
Lemma load_from_checkpoint_inv (weights old_checkpoint : Dict.t value)
    (hparams_file : option string) (translator : Dict.t string)
    (config_kwargs : Dict.t value) (r : loaded) :
  load weights old_checkpoint hparams_file translator config_kwargs = Ok r ->
  exists st hparams state_dict,
    Megatron.parse_weights weights "" 0 [] translator = Ok st /\
    match hparams_file with
    | Some file =>
        exists d, load_hparams load_hparams_from_tags_csv load_hparams_from_yaml file = Ok d /\
                  hparams = Some d
    | None => hparams = None
    end /\
    Megatron.migrate_attention old_checkpoint (option_map VDict hparams) (snd st)
    = Ok state_dict /\
    Megatron.add_optimizer_state float_floordiv old_checkpoint
      [("state_dict", tensors_value state_dict);
       (CHECKPOINT_HYPER_PARAMS_KEY,
        VDict (update (match hparams with Some d => d | None => [] end) config_kwargs))]
      true = Ok (checkpoint r) /\
    steps r = Dict.get old_checkpoint "iteration" /\
    consumed r = consumed_samples old_checkpoint /\
    check_point_version r = Megatron.checkpoint_version old_checkpoint.
Proof.
  unfold load_from_checkpoint. intros E.
  apply bind_ok_inv in E. destruct E as (st & Hst & E).
  apply bind_ok_inv in E. destruct E as (hparams & Hh & E).
  apply bind_ok_inv in E. destruct E as (state_dict & Hsd & E).
  apply bind_ok_inv in E. destruct E as (ck & Hck & E).
  inversion E; subst r; clear E. cbn [checkpoint steps consumed check_point_version].
  exists st, hparams, state_dict. repeat (split; [assumption || reflexivity || idtac|]);
    try reflexivity.
  destruct hparams_file as [file|].
  - apply bind_ok_inv in Hh. destruct Hh as (d & Hd & Hh). inversion Hh. eauto.
  - inversion Hh. reflexivity.
Qed.


(** X14: the step count returned to the caller is the source's iteration
    counter, and it is the [global_step] of the returned checkpoint: both
    are absent together. *)
Theorem load_from_checkpoint_steps (weights old_checkpoint : Dict.t value)
    (hparams_file : option string) (translator : Dict.t string)
    (config_kwargs : Dict.t value) (r : loaded) :
  load weights old_checkpoint hparams_file translator config_kwargs = Ok r ->
  steps r = Dict.get old_checkpoint "iteration" /\
  Dict.get (checkpoint r) "global_step" = steps r.
Proof.
  intros E. apply load_from_checkpoint_inv in E.
  destruct E as (st & hparams & state_dict & _ & _ & _ & Hck & Hsteps & _).
  split; [exact Hsteps|].
  rewrite (add_optimizer_state_step _ _ _ _ _ Hck), Hsteps.
  destruct (Dict.get old_checkpoint "iteration"); reflexivity.
Qed.

Lemma update_get (other : Dict.t value) :
  NoDup (Dict.keys other) ->
  forall d k,
    Dict.get (update d other) k =
    match Dict.get other k with
    | Some v => Some v
    | None => Dict.get d k
    end.
Proof.
  unfold update. induction other as [|[k0 v0] other IH]; intros Hnd d k; simpl.
  - reflexivity.
  - inversion Hnd as [|? ? Hnotin Hnd']; subst.
    rewrite (IH Hnd'). destruct (String.eqb_spec k0 k) as [->|Hne].
    + destruct (Dict.get other k) as [v|] eqn:Ek.
      * exfalso. apply Hnotin. eapply get_keys, Ek.
      * apply dict_get_set_same.
    + destruct (Dict.get other k); [reflexivity|].
      apply dict_get_set_other. exact Hne.
Qed.

(** X15: the returned checkpoint always holds hyper-parameters, in which every
    keyword argument passed in overrides what the file gives; under the
    other keys they hold what the file gives, with [on_gpu] cleared, and
    without a file nothing. *)
Theorem load_from_checkpoint_hyper_parameters (weights old_checkpoint : Dict.t value)
    (hparams_file : option string) (translator : Dict.t string)
    (config_kwargs : Dict.t value) (r : loaded) :
  NoDup (Dict.keys config_kwargs) ->
  load weights old_checkpoint hparams_file translator config_kwargs = Ok r ->
  exists hyper,
    Dict.get (checkpoint r) CHECKPOINT_HYPER_PARAMS_KEY = Some (VDict hyper) /\
    (forall k v, Dict.get config_kwargs k = Some v -> Dict.get hyper k = Some v) /\
    (forall k, Dict.get config_kwargs k = None ->
       match hparams_file with
       | Some file =>
           exists from_file,
             load_hparams load_hparams_from_tags_csv load_hparams_from_yaml file
             = Ok from_file /\
             Dict.get from_file "on_gpu" = Some (VBool false) /\
             Dict.get hyper k = Dict.get from_file k
       | None => Dict.get hyper k = None
       end).
Proof.
  intros Hnd E. apply load_from_checkpoint_inv in E.
  destruct E as (st & hparams & state_dict & _ & Hh & _ & Hck & _).
  eexists. split.
  - rewrite (add_optimizer_state_other_keys _ _ _ _ _ _ Hck);
      unfold CHECKPOINT_HYPER_PARAMS_KEY; try congruence. reflexivity.
  - split.
    + intros k v Hk. rewrite (update_get _ Hnd), Hk. reflexivity.
    + intros k Hk. rewrite (update_get _ Hnd), Hk.
      destruct hparams_file as [file|].
      * destruct Hh as (d & Hd & ->). exists d. split; [exact Hd|]. split; [|reflexivity].
        unfold load_hparams in Hd.
        apply bind_ok_inv in Hd. destruct Hd as (kind & _ & Hd).
        apply bind_ok_inv in Hd. destruct Hd as (h & _ & Hd).
        destruct h as [| | | | | | |from_file|]; try discriminate. injection Hd as <-.
        apply dict_get_set_same.
      * subst hparams. reflexivity.
Qed.

(** X16: a checkpoint of version 3 or later is not migrated: the state dict of
    the returned checkpoint holds the leaves of the weight tree, in the
    order of the walk and under their translated keys, each tensor as it
    was. *)
Theorem load_from_checkpoint_recent_version (weights old_checkpoint : Dict.t value)
    (hparams_file : option string) (translator : Dict.t string)
    (config_kwargs : Dict.t value) (r : loaded) :
  Py.lt3 (Megatron.checkpoint_version old_checkpoint) = Ok false ->
  load weights old_checkpoint hparams_file translator config_kwargs = Ok r ->
  Dict.get (checkpoint r) "state_dict" =
  Some (tensors_value (Walk.assign_all [] (Walk.leaves translator (VDict weights) ""))).
Proof.
  intros Hv E. apply load_from_checkpoint_inv in E.
  destruct E as (st & hparams & state_dict & Hst & _ & Hsd & Hck & _).
  rewrite (add_optimizer_state_other_keys _ _ _ _ _ "state_dict" Hck) by congruence.
  unfold Megatron.migrate_attention in Hsd. rewrite Hv in Hsd. cbn [bind] in Hsd.
  inversion Hsd; subst state_dict.
  rewrite parse_weights_leaves in Hst.
  destruct (forallb _ _); [|discriminate]. inversion Hst. reflexivity.
Qed.

(** X17: a checkpoint that records no version counts as version 0 and needs
    the number of attention heads: without a file of hyper-parameters and
    without a legacy [config] entry, loading raises [ValueError] once the
    weights are walked, even when no tensor would be migrated. *)
Theorem load_from_checkpoint_needs_heads (weights old_checkpoint : Dict.t value)
    (translator : Dict.t string) (config_kwargs : Dict.t value) (st : Megatron.walk_state) :
  Megatron.parse_weights weights "" 0 [] translator = Ok st ->
  Dict.get old_checkpoint "checkpoint_version" = None ->
  Dict.get old_checkpoint "config" = None ->
  load weights old_checkpoint None translator config_kwargs =
  Raise (ValueError "need to know number of attention heads").
Proof.
  intros Hst Hv Hc. unfold load_from_checkpoint. rewrite Hst. cbn [bind option_map].
  unfold Megatron.migrate_attention, Megatron.checkpoint_version, Megatron.attention_heads.
  rewrite Hv, Hc. reflexivity.
Qed.

End Loading.

(** A YAML file named in capitals. *)
Lemma loader_of_last_extension_witness :
  Loader.loader_of ("hparams.v2" ++ "." ++ "YAML") = Loader.loader_of (Loader.lower "YAML").
Proof.
  apply (loader_of_last_extension "hparams.v2" "YAML"). reflexivity.
Defined.


(** The sample checkpoint, saved at iteration 500. *)
Lemma load_from_checkpoint_steps_witness :
  exists r,
    Loader.load_from_checkpoint Instances.floor_quotient Examples.no_csv_file
      Examples.yaml_file Examples.weights Examples.old_checkpoint None
      Megatron.name_translate Examples.config_kwargs = Ok r /\
    Loader.steps r = Dict.get Examples.old_checkpoint "iteration" /\
    Dict.get (Loader.checkpoint r) "global_step" = Loader.steps r.
Proof.
  assert (Hrun : exists r,
             Loader.load_from_checkpoint Instances.floor_quotient Examples.no_csv_file
               Examples.yaml_file Examples.weights Examples.old_checkpoint None
               Megatron.name_translate Examples.config_kwargs = Ok r)
    by (eexists; vm_compute; reflexivity).
  destruct Hrun as [r Hrun]. exists r. split; [exact Hrun|].
  exact (load_from_checkpoint_steps _ _ _ _ _ _ _ _ r Hrun).
Defined.

(** The sample checkpoint loaded with a YAML file of hyper-parameters. *)
Lemma load_from_checkpoint_hyper_parameters_witness :
  exists r hyper,
    Loader.load_from_checkpoint Instances.floor_quotient Examples.no_csv_file
      Examples.yaml_file Examples.weights Examples.old_checkpoint (Some "hparams.yaml")
      Megatron.name_translate Examples.config_kwargs = Ok r /\
    Dict.get (Loader.checkpoint r) Loader.CHECKPOINT_HYPER_PARAMS_KEY = Some (VDict hyper) /\
    (forall k v, Dict.get Examples.config_kwargs k = Some v -> Dict.get hyper k = Some v) /\
    Dict.get hyper "on_gpu" = Some (VBool false).
Proof.
  assert (Hrun : exists r,
             Loader.load_from_checkpoint Instances.floor_quotient Examples.no_csv_file
               Examples.yaml_file Examples.weights Examples.old_checkpoint (Some "hparams.yaml")
               Megatron.name_translate Examples.config_kwargs = Ok r)
    by (eexists; vm_compute; reflexivity).
  destruct Hrun as [r Hrun]. exists r.
  assert (Hnd : NoDup (Dict.keys Examples.config_kwargs))
    by (apply NoDup_cons; [intros [] | apply NoDup_nil]).
  destruct (load_from_checkpoint_hyper_parameters _ _ _ _ _ _ _ _ r Hnd Hrun)
    as (hyper & Hget & Hover & Hfile).
  exists hyper. split; [exact Hrun|]. split; [exact Hget|]. split; [exact Hover|].
  destruct (Hfile "on_gpu" eq_refl) as (from_file & _ & Hgpu & ->). exact Hgpu.
Defined.

(** The sample weights in a checkpoint of version 3. *)
Lemma load_from_checkpoint_recent_version_witness :
  exists r,
    Loader.load_from_checkpoint Instances.floor_quotient Examples.no_csv_file
      Examples.yaml_file Examples.weights Samples.checkpoint_weights_only None
      Megatron.name_translate Examples.config_kwargs = Ok r /\
    Dict.get (Loader.checkpoint r) "state_dict" =
    Some (Loader.tensors_value
            (Walk.assign_all [] (Walk.leaves Megatron.name_translate
                                   (VDict Examples.weights) ""))).
Proof.
  assert (Hrun : exists r,
             Loader.load_from_checkpoint Instances.floor_quotient Examples.no_csv_file
               Examples.yaml_file Examples.weights Samples.checkpoint_weights_only None
               Megatron.name_translate Examples.config_kwargs = Ok r)
    by (eexists; vm_compute; reflexivity).
  destruct Hrun as [r Hrun]. exists r. split; [exact Hrun|].
  exact (load_from_checkpoint_recent_version Instances.floor_quotient Examples.no_csv_file
           Examples.yaml_file Examples.weights Samples.checkpoint_weights_only None
           Megatron.name_translate Examples.config_kwargs r eq_refl Hrun).
Defined.

(** The sample weights in a checkpoint that holds nothing else. *)
Lemma load_from_checkpoint_needs_heads_witness :
  Loader.load_from_checkpoint Instances.floor_quotient Examples.no_csv_file
    Examples.yaml_file Examples.weights [("model", VDict Examples.weights)] None
    Megatron.name_translate Examples.config_kwargs
  = Raise (ValueError "need to know number of attention heads").
Proof.
  assert (Hwalk : exists st,
             Megatron.parse_weights Examples.weights "" 0 [] Megatron.name_translate = Ok st)
    by (eexists; vm_compute; reflexivity).
  destruct Hwalk as [st Hwalk].
  exact (load_from_checkpoint_needs_heads Instances.floor_quotient Examples.no_csv_file
           Examples.yaml_file Examples.weights [("model", VDict Examples.weights)]
           Megatron.name_translate Examples.config_kwargs st Hwalk eq_refl eq_refl).
Defined.

(** ** megatron_lm_inject_model_parallel_rank: the file name *)

Section FileName.

(** X18: the resolver never changes the file name: the path it returns ends in
    the file name of the path stripped of its rank segment, whatever the
    parallel sizes and ranks are. *)
Theorem inject_keeps_file_name (uninject : string -> string) (st : Megatron.AppState)
    (p : string) :
  Path.basename (Megatron.inject_with uninject st p) = Path.basename (uninject p).
Proof.
  destruct (Megatron.model_parallel_size st) as [mp|] eqn:Emp.
  - destruct (Z.ltb_spec 1 mp) as [Hmp|Hmp].
    + rewrite (inject_with_segment uninject st mp p Emp Hmp).
      change (Path.dirname (uninject p) ++
              String "/" (Megatron.rank_segment st ++ String "/" (Path.basename (uninject p))))
        with (Path.dirname (uninject p) ++
              "/" ++ (Megatron.rank_segment st ++ String "/" (Path.basename (uninject p)))).
      rewrite <- !append_assoc. apply basename_sep. apply basename_no_slash.
    + unfold Megatron.inject_with. rewrite Emp.
      destruct (Z.ltb_spec 1 mp); [lia | reflexivity].
  - unfold Megatron.inject_with. rewrite Emp. reflexivity.
Qed.

End FileName.

(** ** main: runs on a cached score file and the loading of models *)

Section CachedRuns.
Import Reranker.

Variable float_pow : float -> float -> result float.
Variable float_of_string : string -> result float.
Variable world : World.
Variable srctext_rerank : Args -> io (list string).
Variable write_scores_file : Args -> io unit.

Local Abbreviation run := (main float_pow float_of_string world srctext_rerank write_scores_file).

(** Any list of lines is a sequence of full windows and a shorter tail. *)
Lemma lines_in_windows (b : nat) (lines : list string) :
  (0 < b)%nat ->
  exists ws tail,
    lines = (List.concat ws ++ tail)%list /\
    Forall (fun w => List.length w = b) ws /\
    (List.length tail < b)%nat /\
    List.length ws = (List.length lines / b)%nat.
Proof.
  intros Hb.
  remember (List.length lines) as n eqn:Hn. revert lines Hn.
  induction n as [n IH] using (well_founded_induction Nat.lt_wf_0). intros lines ->.
  destruct (Nat.lt_ge_cases (List.length lines) b) as [Hshort | Hlong].
  - exists [], lines. repeat split; auto. simpl. now rewrite Nat.div_small.
  - destruct (IH (List.length (skipn b lines)) ltac:(rewrite length_skipn; lia)
                (skipn b lines) eq_refl) as (ws & tail & Hsplit & Hall & Htail & Hcount).
    exists (firstn b lines :: ws), tail. split; [|split; [|split]].
    + simpl. rewrite <- app_assoc, <- Hsplit. symmetry. apply firstn_skipn.
    + constructor; [|exact Hall]. rewrite length_firstn. lia.
    + exact Htail.
    + simpl. rewrite Hcount, length_skipn.
      replace (List.length lines) with (1 * b + (List.length lines - b))%nat at 2 by lia.
      rewrite Nat.div_add_l by lia. lia.
Qed.

Lemma comprehension_length {A B : Type} (f : A -> result B) (l : list A) (ys : list B) :
  Megatron.comprehension f l = Ok ys -> List.length ys = List.length l.
Proof.
  revert ys. induction l as [|x l IH]; intros ys; simpl.
  - intros E. inversion E. reflexivity.
  - intros E. apply bind_ok_inv in E. destruct E as (y & _ & E).
    apply bind_ok_inv in E. destruct E as (ys' & Hys & E).
    inversion E. simpl. f_equal. now apply IH.
Qed.

Lemma rerank_cached_count (args : Args) (lines out : list string) :
  0 < beam_size args ->
  rerank_cached float_pow float_of_string args lines = Ok out ->
  Z.of_nat (List.length out) = Z.of_nat (List.length lines) / beam_size args.
Proof.
  intros Hb Hrun.
  assert (Hpos : (0 < Z.to_nat (beam_size args))%nat) by lia.
  destruct (lines_in_windows (Z.to_nat (beam_size args)) lines Hpos)
    as (ws & tail & -> & Hall & Htail & Hcount).
  rewrite rerank_cached_windows in Hrun.
  - apply comprehension_length in Hrun. rewrite Hrun, Hcount.
    rewrite Nat2Z.inj_div, Z2Nat.id by lia. reflexivity.
  - eapply Forall_impl; [|exact Hall]. intros w Hw. cbv beta in Hw. split; [lia|].
    intros ->. simpl in Hw. lia.
  - lia.
Qed.

Lemma cached_loop_never_full (args : Args) (lines : list string) :
  beam_size args <= 0 ->
  forall buf out count,
    cached_loop float_pow float_of_string args lines buf out count = Ok out.
Proof.
  intros Hb. induction lines as [|line lines IH]; intros buf out count; simpl.
  - reflexivity.
  - replace (Z.of_nat (List.length (buf ++ [fields line])) =? beam_size args) with false.
    + apply IH.
    + symmetry. apply Z.eqb_neq. rewrite length_app. simpl. lia.
Qed.

(** X19: with a beam size of zero or less no window is ever full: whatever the
    cached score file holds, malformed lines included, the run reads it,
    selects nothing and writes an empty output. *)
Theorem main_cached_beam_size_not_positive
    (args : Args) (path : string) (lines : list string) :
  cached_mode args path ->
  read_lines world path = Ok lines ->
  beam_size args <= 0 ->
  run args = ([ReadFile path; WriteFile (tgtout args) []], write_lines world (tgtout args) []).
Proof.
  intros Hmode Hread Hb.
  rewrite (main_cached _ _ _ _ _ args path lines Hmode Hread).
  unfold rerank_cached. rewrite cached_loop_never_full by exact Hb. reflexivity.
Qed.

(** X20: on a cached score file the flags [--write_scores], [--reverse_model]
    and [--language_model] are refused: the run raises [ValueError] before
    any model is restored and before any file is read or written. *)
Theorem main_cached_refuses_model_flags (args : Args) (path : string) :
  cached_score_file args = Some path ->
  srctext args = None ->
  write_scores args = true \/ reverse_model args <> None \/ language_model args <> None ->
  exists message, run args = ([], Raise (ValueError message)).
Proof.
  intros Hc Hs Hflags.
  unfold main, load_models, check_inputs, check_cached_args. rewrite Hc, Hs.
  destruct (write_scores args); [eexists; reflexivity|].
  destruct (reverse_model args); [eexists; reflexivity|].
  destruct (language_model args); [eexists; reflexivity|].
  destruct Hflags as [H|[H|H]]; congruence.
Qed.

Lemma restore_reverse_stops (good rest : list string) (bad : string) :
  Forall (fun p => PyStr.endswith p ".nemo" = true /\ restore_from world (Some p) = Ok tt) good ->
  PyStr.endswith bad ".nemo" = false ->
  restore_reverse world (good ++ bad :: rest)%list =
  (map (fun p => RestoreModel (Some p)) good,
   Raise (NotImplementedError ("Only support .nemo files, but got: " ++ bad))).
Proof.
  induction 1 as [|p good [Hext Hok] _ IH]; intros Hbad; simpl.
  - rewrite Hbad. reflexivity.
  - rewrite Hext. unfold restore, emit, bind_io. rewrite Hok, (IH Hbad). reflexivity.
Qed.

(** X21: without a cached score file the reverse models are restored in the
    order of the comma-separated paths; the first path that does not end
    in [.nemo] ends the run with [NotImplementedError], the models before
    it restored and no file touched, whatever the other flags are. *)
Theorem main_stops_at_first_other_model_file
    (args : Args) (paths : string) (good rest : list string) (bad : string) :
  cached_score_file args = None ->
  reverse_model args = Some paths ->
  PyStr.split "," paths = (good ++ bad :: rest)%list ->
  Forall (fun p => PyStr.endswith p ".nemo" = true /\ restore_from world (Some p) = Ok tt) good ->
  PyStr.endswith bad ".nemo" = false ->
  exists message,
    run args = (map (fun p => RestoreModel (Some p)) good, Raise (NotImplementedError message)).
Proof.
  intros Hc Hr Hsplit Hgood Hbad.
  unfold main, load_models. rewrite Hc, Hr, Hsplit.
  rewrite (restore_reverse_stops _ _ _ Hgood Hbad). eexists. reflexivity.
Qed.

(** X22: on a cached score file no model is ever restored, however the run
    ends and whatever the other flags are. *)
Theorem main_cached_never_restores (args : Args) (path : string) :
  cached_score_file args = Some path ->
  existsb is_restore (fst (run args)) = false.
Proof.
  intros Hc. unfold main, load_models, check_inputs, check_cached_args, cached_rerank.
  rewrite Hc. destruct (srctext args); [reflexivity|].
  destruct (write_scores args); [reflexivity|].
  destruct (reverse_model args); [reflexivity|].
  destruct (language_model args); [reflexivity|].
  cbn [bind_io ret lift emit app].
  destruct (read_lines world path) as [lines|e]; [|reflexivity]. cbn [bind_io lift app].
  destruct (rerank_cached float_pow float_of_string args lines) as [out|e]; [|reflexivity].
  cbn [bind_io app]. unfold emit.
  destruct (write_lines world (tgtout args) out) as [[]|e]; reflexivity.
Qed.

End CachedRuns.

(** A beam size of zero on the file whose second line is short. *)
Lemma main_cached_beam_size_not_positive_witness :
  Reranker.main Instances.pow_exact Instances.float_of_decimal Samples.world_short
    Samples.no_srctext_rerank Samples.no_write_scores_file (Examples.cached_run 0 false false)
  = ([Reranker.ReadFile "scores.tsv"; Reranker.WriteFile "out.txt" []], Ok tt).
Proof.
  apply (main_cached_beam_size_not_positive Instances.pow_exact Instances.float_of_decimal
           Samples.world_short Samples.no_srctext_rerank Samples.no_write_scores_file
           (Examples.cached_run 0 false false) "scores.tsv" Samples.short_record).
  - repeat split.
  - reflexivity.
  - discriminate.
Defined.

(** A cached score file with [--write_scores]. *)
Lemma main_cached_refuses_model_flags_witness :
  exists message,
    Reranker.main Instances.pow_exact Instances.float_of_decimal Samples.world
      Samples.no_srctext_rerank Samples.no_write_scores_file (Examples.cached_run 2 true false)
    = ([], Raise (ValueError message)).
Proof.
  apply (main_cached_refuses_model_flags Instances.pow_exact Instances.float_of_decimal
           Samples.world Samples.no_srctext_rerank Samples.no_write_scores_file
           (Examples.cached_run 2 true false) "scores.tsv").
  - reflexivity.
  - reflexivity.
  - left. reflexivity.
Defined.

(** Three reverse models, the second a checkpoint file. *)
Lemma main_stops_at_first_other_model_file_witness :
  exists message,
    Reranker.main Instances.pow_exact Instances.float_of_decimal Samples.world
      Samples.no_srctext_rerank Samples.no_write_scores_file Examples.model_run
    = ([Reranker.RestoreModel (Some "a.nemo")], Raise (NotImplementedError message)).
Proof.
  apply (main_stops_at_first_other_model_file Instances.pow_exact Instances.float_of_decimal
           Samples.world Samples.no_srctext_rerank Samples.no_write_scores_file
           Examples.model_run "a.nemo,b.ckpt,c.nemo" ["a.nemo"] ["c.nemo"] "b.ckpt").
  - reflexivity.
  - reflexivity.
  - reflexivity.
  - repeat constructor.
  - reflexivity.
Defined.

(** The sample file reranked from cached scores. *)
Lemma main_cached_never_restores_witness :
  existsb Reranker.is_restore
    (fst (Reranker.main Instances.pow_exact Instances.float_of_decimal Samples.world
            Samples.no_srctext_rerank Samples.no_write_scores_file Samples.cached_args))
  = false.
Proof.
  exact (main_cached_never_restores Instances.pow_exact Instances.float_of_decimal
           Samples.world Samples.no_srctext_rerank Samples.no_write_scores_file
           Samples.cached_args "scores.tsv" eq_refl).
Defined.

(** ** score_fusion and argmax: lengths, zero lengths and NaN *)

Section FusionEdges.
Import Reranker.

Variable float_pow : float -> float -> result float.
Variable args : Args.

Local Abbreviation shortest a b c d e :=
  (Nat.min (List.length a) (Nat.min (List.length b) (Nat.min (List.length c)
     (Nat.min (List.length d) (List.length e))))).

(** X23: [score_fusion] returns one score for each candidate of the zipped
    lists, that is as many as the shortest list holds; without length
    normalization and without a length penalty it always returns. *)
Theorem score_fusion_one_score_per_candidate
    (forward_scores rev_scores lm_scores src_lens tgt_lens : list float) :
  (forall fused,
      score_fusion float_pow args forward_scores rev_scores lm_scores src_lens tgt_lens
      = Ok fused ->
      List.length fused = shortest forward_scores rev_scores lm_scores src_lens tgt_lens) /\
  (length_normalize_scores args = false -> len_pen args = None ->
   is_ok (score_fusion float_pow args forward_scores rev_scores lm_scores src_lens tgt_lens)
   = true).
Proof.
  split.
  - revert rev_scores lm_scores src_lens tgt_lens.
    induction forward_scores as [|f fs IH];
      intros [|r rs] [|l ls] [|sl sls] [|tl tls] fused E;
      try (inversion E; reflexivity).
    cbn [score_fusion] in E.
    apply bind_ok_inv in E. destruct E as (s & _ & E).
    apply bind_ok_inv in E. destruct E as (rest & Hrest & E).
    inversion E. simpl. f_equal. exact (IH _ _ _ _ _ Hrest).
  - intros Hn Hp.
    revert rev_scores lm_scores src_lens tgt_lens.
    induction forward_scores as [|f fs IH];
      intros [|r rs] [|l ls] [|sl sls] [|tl tls]; try reflexivity.
    cbn [score_fusion]. unfold fuse, normalized. rewrite Hn, Hp. cbn [bind].
    specialize (IH rs ls sls tls).
    destruct (score_fusion float_pow args fs rs ls sls tls); [reflexivity | discriminate].
Qed.

(** Under length normalization a candidate whose source or target length
    is zero has no fused score: the division by the length raises
    [ZeroDivisionError]. *)
Lemma fuse_zero_length (f r l sl tl : float) :
  length_normalize_scores args = true ->
  PrimFloat.eqb tl 0%float = true \/ PrimFloat.eqb sl 0%float = true ->
  fuse float_pow args f r l sl tl = Raise ZeroDivisionError.
Proof.
  intros Hn Hzero. unfold fuse, normalized, truediv. rewrite Hn.
  destruct (PrimFloat.eqb tl 0%float); [reflexivity|].
  destruct Hzero as [H|H]; [discriminate|]. rewrite H. reflexivity.
Qed.

(** X24: under length normalization, a zero source or target length at the
    first candidate that has no fused score makes [score_fusion] raise
    [ZeroDivisionError]: no score is returned for the window at all. *)
Theorem score_fusion_zero_length
    (forward_scores rev_scores lm_scores src_lens tgt_lens : list float)
    (i : nat) (f r l sl tl : float) :
  length_normalize_scores args = true ->
  nth_error forward_scores i = Some f ->
  nth_error rev_scores i = Some r ->
  nth_error lm_scores i = Some l ->
  nth_error src_lens i = Some sl ->
  nth_error tgt_lens i = Some tl ->
  PrimFloat.eqb tl 0%float = true \/ PrimFloat.eqb sl 0%float = true ->
  (forall j f' r' l' sl' tl',
      (j < i)%nat ->
      nth_error forward_scores j = Some f' -> nth_error rev_scores j = Some r' ->
      nth_error lm_scores j = Some l' -> nth_error src_lens j = Some sl' ->
      nth_error tgt_lens j = Some tl' ->
      is_ok (fuse float_pow args f' r' l' sl' tl') = true) ->
  score_fusion float_pow args forward_scores rev_scores lm_scores src_lens tgt_lens
  = Raise ZeroDivisionError.
Proof.
  intros Hn. revert forward_scores rev_scores lm_scores src_lens tgt_lens.
  induction i as [|i IH];
    intros [|f0 fs] [|r0 rs] [|l0 ls] [|sl0 sls] [|tl0 tls] Hf Hr Hl Hsl Htl Hzero Hbefore;
    try discriminate.
  - simpl in Hf, Hr, Hl, Hsl, Htl. inversion Hf; inversion Hr; inversion Hl; inversion Hsl;
      inversion Htl; subst.
    cbn [score_fusion]. rewrite fuse_zero_length by assumption. reflexivity.
  - cbn [score_fusion].
    pose proof (Hbefore O f0 r0 l0 sl0 tl0 (Nat.lt_0_succ i) eq_refl eq_refl eq_refl eq_refl
                  eq_refl) as H0.
    destruct (fuse float_pow args f0 r0 l0 sl0 tl0) as [s|e]; [|discriminate]. cbn [bind].
    rewrite (IH fs rs ls sls tls Hf Hr Hl Hsl Htl Hzero).
    + reflexivity.
    + intros j f' r' l' sl' tl' Hj. apply (Hbefore (S j)). lia.
Qed.

End FusionEdges.

Section ArgmaxNaN.
Import Reranker.

Lemma leb_nan_l (x mp : float) : PrimFloat.is_nan x = true -> PrimFloat.leb x mp = false.
Proof.
  intros Hx. rewrite leb_spec. unfold SFleb.
  destruct (Prim2SF x) as [s| [|] | | [|] m e] eqn:E; try reflexivity;
    exfalso; assert (Hn : PrimFloat.is_nan x = false) by (apply is_nan_spec; congruence);
    congruence.
Qed.

Lemma argmax_scan_nan (xs : list float) (i : nat) (mp : float) (best : nat) :
  PrimFloat.is_nan mp = true -> argmax_scan xs i mp best = best.
Proof. intros H. destruct xs; simpl; rewrite H; reflexivity. Qed.

(** The scan stops at the first NaN it meets. *)
Lemma argmax_scan_first_nan (xs : list float) :
  forall (i k : nat) (mp : float) (best : nat) (x : float),
    PrimFloat.is_nan mp = false ->
    nth_error xs k = Some x -> PrimFloat.is_nan x = true ->
    (forall j y, (j < k)%nat -> nth_error xs j = Some y -> PrimFloat.is_nan y = false) ->
    argmax_scan xs i mp best = (i + k)%nat.
Proof.
  induction xs as [|a xs IH]; intros i k mp best x Hmp Hk Hx Hbefore.
  - destruct k; discriminate.
  - simpl. rewrite Hmp. destruct k as [|k].
    + simpl in Hk. inversion Hk; subst a. rewrite (leb_nan_l _ _ Hx). simpl.
      rewrite argmax_scan_nan by exact Hx. lia.
    + simpl in Hk.
      assert (Ha : PrimFloat.is_nan a = false) by (apply (Hbefore O a); [lia | reflexivity]).
      assert (Hrest : forall j y, (j < k)%nat -> nth_error xs j = Some y ->
                                  PrimFloat.is_nan y = false).
      { intros j y Hj Hy. apply (Hbefore (S j) y); [lia | exact Hy]. }
      destruct (negb (PrimFloat.leb a mp)).
      * rewrite (IH (S i) k a i x Ha Hk Hx Hrest). lia.
      * rewrite (IH (S i) k mp best x Hmp Hk Hx Hrest). lia.
Qed.

(** [argmax] on scores with a NaN among them returns the position of the
    first NaN, whatever the other scores are. *)
Lemma argmax_first_nan (xs : list float) (k : nat) (x : float) :
  nth_error xs k = Some x -> PrimFloat.is_nan x = true ->
  (forall j y, (j < k)%nat -> nth_error xs j = Some y -> PrimFloat.is_nan y = false) ->
  argmax xs = Ok k.
Proof.
  intros Hk Hx Hbefore. destruct xs as [|a xs]; [destruct k; discriminate|].
  simpl. f_equal. destruct k as [|k].
  - simpl in Hk. inversion Hk; subst a. apply argmax_scan_nan, Hx.
  - simpl in Hk.
    rewrite (argmax_scan_first_nan xs 1 k a 0 x); trivial.
    + apply (Hbefore O a); [lia | reflexivity].
    + intros j y Hj Hy. apply (Hbefore (S j) y); [lia | exact Hy].
Qed.

End ArgmaxNaN.

(** Two candidates under length normalization, the target length of the
    second zero. *)
Lemma score_fusion_zero_length_witness :
  Reranker.score_fusion Instances.pow_exact (Examples.cached_run 2 false true)
    [(-2.0)%float; (-1.5)%float] [(-3.0)%float; (-3.0)%float] [(-1.0)%float; (-1.0)%float]
    [3%float; 3%float] [2%float; 0%float]
  = Raise ZeroDivisionError.
Proof.
  apply (score_fusion_zero_length Instances.pow_exact (Examples.cached_run 2 false true)
           [(-2.0)%float; (-1.5)%float] [(-3.0)%float; (-3.0)%float]
           [(-1.0)%float; (-1.0)%float] [3%float; 3%float] [2%float; 0%float]
           1 (-1.5)%float (-3.0)%float (-1.0)%float 3%float 0%float);
    try reflexivity.
  - left. reflexivity.
  - intros [|j] f' r' l' sl' tl' Hj Hf Hr Hl Hsl Htl; [|lia].
    inversion Hf; inversion Hr; inversion Hl; inversion Hsl; inversion Htl. reflexivity.
Defined.

(** ** The selections of a cached run *)

Section WindowSelection.
Import Reranker.

Variable float_pow : float -> float -> result float.
Variable float_of_string : string -> result float.
Variable args : Args.

Local Abbreviation window := (rerank_window float_pow float_of_string args).

Lemma comprehension_nth {A B : Type} (f : A -> result B) (l : list A) (ys : list B) :
  Megatron.comprehension f l = Ok ys ->
  forall i y, nth_error ys i = Some y -> exists x, nth_error l i = Some x /\ f x = Ok y.
Proof.
  revert ys. induction l as [|x l IH]; intros ys; simpl.
  - intros E. inversion E. intros [|i] y H; discriminate.
  - intros E. apply bind_ok_inv in E. destruct E as (y0 & Hy0 & E).
    apply bind_ok_inv in E. destruct E as (ys' & Hys & E). inversion E; subst ys.
    intros [|i] y H; simpl in H.
    + inversion H; subst. exists x. auto.
    + exact (IH _ Hys i y H).
Qed.

(** What a window selects is the target text, the second field, of one of
    its own records. *)
Lemma rerank_window_selects_candidate (src_text : list (list string)) (text : string) :
  window src_text = Ok text ->
  exists item, In item src_text /\ nth_error item 1 = Some text.
Proof.
  unfold rerank_window. destruct (forallb _ src_text); [|discriminate]. intros E.
  apply bind_ok_inv in E. destruct E as (src_texts & _ & E).
  apply bind_ok_inv in E. destruct E as (tgt_texts & Htgt & E).
  repeat (apply bind_ok_inv in E; destruct E as (? & _ & E)).
  unfold field in E at 1.
  destruct (nth_error tgt_texts _) as [s|] eqn:Hs; [|discriminate]. inversion E; subst s.
  destruct (comprehension_nth _ _ _ Htgt _ _ Hs) as (item & Hitem & Hfield).
  exists item. split; [eapply nth_error_In, Hitem|].
  unfold field in Hfield. destruct (nth_error item 1); [congruence | discriminate].
Qed.

Lemma column_present (src_text : list (list string)) (k : nat) :
  forallb (fun item => Nat.eqb (List.length item) 7) src_text = true -> (k < 7)%nat ->
  exists col,
    column src_text k = Ok col /\
    forall i item, nth_error src_text i = Some item -> nth_error col i = nth_error item k.
Proof.
  intros Hall Hk. unfold column.
  induction src_text as [|item0 src_text IH]; simpl in *.
  - exists []. split; [reflexivity|]. intros [|i] item H; discriminate.
  - apply andb_prop in Hall. destruct Hall as [H7 Hall]. apply Nat.eqb_eq in H7.
    destruct (IH Hall) as (col & -> & Hcol).
    unfold field at 1. destruct (nth_error item0 k) as [s|] eqn:Es.
    + simpl. exists (s :: col). split; [reflexivity|].
      intros [|i] item H; simpl in H |- *; [inversion H; subst; auto | auto].
    + apply nth_error_None in Es. lia.
Qed.

(** X25: a window whose fused scores hold a NaN selects the record of the first
    NaN, whatever the other scores are. *)
Theorem rerank_window_selects_first_nan
    (src_text : list (list string)) (fs rs ls sls tls fused : list float)
    (k : nat) (x : float) (item : list string) :
  forallb (fun item => Nat.eqb (List.length item) 7) src_text = true ->
  float_column float_of_string src_text 2 = Ok fs ->
  float_column float_of_string src_text 3 = Ok rs ->
  float_column float_of_string src_text 4 = Ok ls ->
  float_column float_of_string src_text 5 = Ok sls ->
  float_column float_of_string src_text 6 = Ok tls ->
  score_fusion float_pow args fs rs ls sls tls = Ok fused ->
  nth_error fused k = Some x -> PrimFloat.is_nan x = true ->
  (forall j y, (j < k)%nat -> nth_error fused j = Some y -> PrimFloat.is_nan y = false) ->
  nth_error src_text k = Some item ->
  exists text, nth_error item 1 = Some text /\ window src_text = Ok text.
Proof.
  intros H7 Hf Hr Hl Hsl Htl Hfused Hk Hx Hbefore Hitem.
  destruct (column_present src_text 0 H7 ltac:(lia)) as (col0 & H0 & _).
  destruct (column_present src_text 1 H7 ltac:(lia)) as (col1 & H1 & Hcol1).
  unfold rerank_window. rewrite H7, H0, H1, Hf, Hr, Hl, Hsl, Htl. cbn [bind].
  rewrite Hfused. cbn [bind]. rewrite (argmax_first_nan fused k x Hk Hx Hbefore). cbn [bind].
  unfold field. rewrite (Hcol1 k item Hitem).
  destruct (nth_error item 1) as [text|] eqn:E.
  - exists text. auto.
  - apply nth_error_None in E.
    rewrite forallb_forall in H7. specialize (H7 item (nth_error_In _ _ Hitem)).
    apply Nat.eqb_eq in H7. lia.
Qed.

End WindowSelection.

Section CachedSelections.
Import Reranker.

Variable float_pow : float -> float -> result float.
Variable float_of_string : string -> result float.
Variable world : World.
Variable srctext_rerank : Args -> io (list string).
Variable write_scores_file : Args -> io unit.

Local Abbreviation run := (main float_pow float_of_string world srctext_rerank write_scores_file).

Lemma concat_windows_nth (b : nat) (ws : list (list string)) (tail : list string) :
  Forall (fun w => List.length w = b) ws ->
  forall i w m line,
    nth_error ws i = Some w -> nth_error w m = Some line ->
    nth_error (List.concat ws ++ tail)%list (i * b + m) = Some line.
Proof.
  induction 1 as [|w0 ws Hw0 _ IH]; intros i w m line Hi Hm.
  - destruct i; discriminate.
  - simpl. rewrite <- app_assoc. destruct i as [|i]; simpl in Hi.
    + inversion Hi; subst w0. simpl. rewrite nth_error_app1; [exact Hm|].
      apply nth_error_Some. congruence.
    + rewrite nth_error_app2 by (simpl; lia).
      replace (S i * b + m - List.length w0)%nat with (i * b + m)%nat by (simpl; lia).
      exact (IH i w m line Hi Hm).
Qed.

(** X26: a run on a cached score file that ends well has read the file and
    written one selection for each full window of [beam_size] lines, as
    many as the number of lines divided by the beam size, rounded down;
    the selection of a window is the second field of one of the lines of
    that window. Lines after the last full window select nothing. *)
Theorem main_cached_selects_within_windows
    (args : Args) (path : string) (lines : list string) (trace : list event) :
  cached_mode args path ->
  read_lines world path = Ok lines ->
  0 < beam_size args ->
  run args = (trace, Ok tt) ->
  exists out,
    trace = [ReadFile path; WriteFile (tgtout args) out] /\
    Z.of_nat (List.length out) = Z.of_nat (List.length lines) / beam_size args /\
    forall i text,
      nth_error out i = Some text ->
      exists j line,
        Z.of_nat i * beam_size args <= Z.of_nat j < (Z.of_nat i + 1) * beam_size args /\
        nth_error lines j = Some line /\
        nth_error (fields line) 1 = Some text.
Proof.
  intros Hmode Hread Hb Hrun.
  rewrite (main_cached _ _ _ _ _ args path lines Hmode Hread) in Hrun.
  destruct (rerank_cached float_pow float_of_string args lines) as [out|e] eqn:E;
    [|discriminate].
  exists out. split; [congruence|]. split; [now apply (rerank_cached_count float_pow float_of_string)|].
  assert (Hpos : (0 < Z.to_nat (beam_size args))%nat) by lia.
  destruct (lines_in_windows (Z.to_nat (beam_size args)) lines Hpos)
    as (ws & tail & -> & Hall & Htail & Hcount).
  rewrite rerank_cached_windows in E.
  - intros i text Hi.
    destruct (comprehension_nth _ _ _ E i text Hi) as (w & Hw & Hwin).
    destruct (rerank_window_selects_candidate _ _ _ _ _ Hwin) as (item & Hin & Hitem).
    apply in_map_iff in Hin. destruct Hin as (line & <- & Hline).
    apply In_nth_error in Hline. destruct Hline as (m & Hm).
    assert (Hlen : List.length w = Z.to_nat (beam_size args)).
    { rewrite Forall_forall in Hall. apply Hall. eapply nth_error_In, Hw. }
    assert (Hmb : (m < List.length w)%nat) by (apply nth_error_Some; congruence).
    exists (i * Z.to_nat (beam_size args) + m)%nat, line. split; [nia|]. split.
    + exact (concat_windows_nth _ ws tail Hall i w m line Hw Hm).
    + exact Hitem.
  - eapply Forall_impl; [|exact Hall]. intros w Hw. cbv beta in Hw. split; [lia|].
    intros ->. simpl in Hw. lia.
  - lia.
Qed.

End CachedSelections.

(** Three candidates, the forward score of the second not a number. *)
Lemma rerank_window_selects_first_nan_witness :
  exists text,
    nth_error (Reranker.fields
                 (Samples.score_line "quelle" "second" "nan" "-3.0" "-1.0" "3" "2")) 1
    = Some text /\
    Reranker.rerank_window Instances.pow_exact Examples.float_of_text
      (Examples.cached_run 3 false false) Examples.nan_window = Ok text.
Proof.
  eapply (rerank_window_selects_first_nan Instances.pow_exact Examples.float_of_text
            (Examples.cached_run 3 false false) Examples.nan_window _ _ _ _ _ _ 1 _ _ eq_refl).
  - vm_compute. reflexivity.
  - vm_compute. reflexivity.
  - vm_compute. reflexivity.
  - vm_compute. reflexivity.
  - vm_compute. reflexivity.
  - vm_compute. reflexivity.
  - reflexivity.
  - reflexivity.
  - intros [|j] y Hj Hy; [|lia]. inversion Hy. reflexivity.
  - reflexivity.
Defined.

(** The sample file of three lines read in beams of two. *)
Lemma main_cached_selects_within_windows_witness :
  exists out,
    fst (Reranker.main Instances.pow_exact Instances.float_of_decimal Samples.world
           Samples.no_srctext_rerank Samples.no_write_scores_file Samples.cached_args)
    = [Reranker.ReadFile "scores.tsv"; Reranker.WriteFile "out.txt" out] /\
    Z.of_nat (List.length out) = Z.of_nat (List.length Samples.three_lines) / 2 /\
    forall i text,
      nth_error out i = Some text ->
      exists j line,
        Z.of_nat i * 2 <= Z.of_nat j < (Z.of_nat i + 1) * 2 /\
        nth_error Samples.three_lines j = Some line /\
        nth_error (Reranker.fields line) 1 = Some text.
Proof.
  apply (main_cached_selects_within_windows Instances.pow_exact Instances.float_of_decimal
           Samples.world Samples.no_srctext_rerank Samples.no_write_scores_file
           Samples.cached_args "scores.tsv" Samples.three_lines).
  - repeat split.
  - reflexivity.
  - reflexivity.
  - vm_compute. reflexivity.
Defined.
